(** * Payroll calculation of the Poster salary backend

    A shallow embedding of [src/services/posterService.js] and
    [src/services/salaryService.js]: the aggregation of sale transactions
    into per-employee revenue and shift counts, the inventory result, the
    salary formula with its rounding, the filter and sort of the report,
    and the validation of the calculation parameters.

    JavaScript numbers are IEEE 754 binary64 values.  The services are
    written once over an interface of the number operations they use
    ([Number]) and read at two instances: [Float64], the primitive
    binary64 floats, which is what the program runs on, and [Ideal], exact
    rationals with NaN and the infinities, which is what the arithmetic
    would be without rounding error. *)

From Stdlib Require Import ZArith QArith Qcanon Qround Lqa List String Ascii Lia Bool Floats.
From Stdlib Require Import Sorting.Sorted.
From Stdlib Require Import DecimalString DecimalZ DecimalN DecimalPos.
From stdpp Require Import gmap strings list.

Set Warnings "-inexact-float".
Local Open Scope Z_scope.

(** ** 1. JavaScript numbers *)

(** The operations of the Number type that the two services use. *)
Class Number := {
  num : Type;
  num_of_Z : Z -> num;                 (* an integer literal or count *)
  NaN : num;
  Infinity : num;
  num_neg : num -> num;                (* unary - *)
  num_add : num -> num -> num;         (* + *)
  num_sub : num -> num -> num;         (* - *)
  num_mul : num -> num -> num;         (* * *)
  num_div : num -> num -> num;         (* / *)
  Math_abs : num -> num;
  Math_round : num -> num;
  num_lt : num -> num -> bool;         (* < *)
  num_le : num -> num -> bool;         (* <= *)
  num_eq : num -> num -> bool;         (* === on two numbers *)
  isNaN : num -> bool;
  (* the Number value of the decimal literal (-1)^neg * m * 10^e *)
  num_of_decimal : bool -> N -> Z -> num
}.

Declare Scope js_scope.
Delimit Scope js_scope with js.
Notation "x + y" := (num_add x y) : js_scope.
Notation "x - y" := (num_sub x y) : js_scope.
Notation "x * y" := (num_mul x y) : js_scope.
Notation "x / y" := (num_div x y) : js_scope.
Notation "x <? y" := (num_lt x y) : js_scope.
Notation "x >? y" := (num_lt y x) : js_scope.
Notation "x <=? y" := (num_le x y) : js_scope.
Notation "x >=? y" := (num_le y x) : js_scope.
Notation "x =? y" := (num_eq x y) : js_scope.

(** *** The binary64 instance *)

Module Float64.

(** The nearest binary64 value of an integer (ties to even). *)
Definition of_Z (z : Z) : float :=
  SF2Prim (binary_normalize prec emax z 0 false).

(** The nearest binary64 value of [m * 10^e]: the integer itself for
    [0 <= e], the correctly rounded quotient [m / 10^(-e)] otherwise. *)
Definition of_decimal (neg : bool) (m : N) (e : Z) : float :=
  match m with
  | N0 => if neg then neg_zero else zero
  | Npos p =>
      let r :=
        if 0 <=? e
        then binary_normalize prec emax (Zpos p * 10 ^ e) 0 false
        else SFdiv prec emax (S754_finite false p 0)
                   (S754_finite false (Z.to_pos (10 ^ (- e))) 0) in
      if neg then PrimFloat.opp (SF2Prim r) else SF2Prim r
  end.

(** [Math.round]: the integer closest to [x], the one towards +infinity
    on a tie, that is [floor (x + 1/2)] computed exactly on the
    mantissa and exponent of [x]; NaN, the infinities, the zeros and the
    integral values are returned unchanged, and a result that is zero
    keeps the sign of [x]. *)
Definition round (x : float) : float :=
  match Prim2SF x with
  | S754_finite s m e =>
      if 0 <=? e then x
      else
        let k := - e in
        let r := (cond_Zopp s (Zpos m~0) + 2 ^ k) / 2 ^ (k + 1) in
        if r =? 0 then (if s then neg_zero else zero) else of_Z r
  | _ => x
  end.

(** The exact value of a finite number (0 for NaN and the infinities). *)
Definition to_Q (x : float) : Q :=
  match Prim2SF x with
  | S754_finite s m e =>
      ((if s then -1 else 1) * inject_Z (Zpos m) * Qpower (inject_Z 2) e)%Q
  | _ => 0%Q
  end.

Definition number : Number := {|
  num := float;
  num_of_Z := of_Z;
  NaN := nan;
  Infinity := infinity;
  num_neg := PrimFloat.opp;
  num_add := PrimFloat.add;
  num_sub := PrimFloat.sub;
  num_mul := PrimFloat.mul;
  num_div := PrimFloat.div;
  Math_abs := PrimFloat.abs;
  Math_round := round;
  num_lt := PrimFloat.ltb;
  num_le := PrimFloat.leb;
  num_eq := PrimFloat.eqb;
  isNaN := PrimFloat.is_nan;
  num_of_decimal := of_decimal
|}.

End Float64.

(** *** The exact instance *)

Module Ideal.

(** A rational, an infinity with its sign, or NaN.  There is one zero. *)
Inductive t := INaN | IInf (neg : bool) | IFin (q : Qc).

Definition Qc_ltb (p q : Qc) : bool := negb (Qle_bool q p).
Definition Qc_leb (p q : Qc) : bool := Qle_bool p q.
Definition Qc_eqb (p q : Qc) : bool := Qeq_bool p q.
Definition Qc_neg (q : Qc) : bool := Qc_ltb q 0%Qc.

Definition of_Z (z : Z) : t := IFin (Q2Qc (inject_Z z)).

Definition opp (x : t) : t :=
  match x with
  | INaN => INaN
  | IInf s => IInf (negb s)
  | IFin q => IFin (- q)%Qc
  end.

Definition add (x y : t) : t :=
  match x, y with
  | INaN, _ | _, INaN => INaN
  | IInf a, IInf b => if Bool.eqb a b then IInf a else INaN
  | IInf a, IFin _ => IInf a
  | IFin _, IInf b => IInf b
  | IFin p, IFin q => IFin (p + q)%Qc
  end.

Definition sub (x y : t) : t := add x (opp y).

Definition mul (x y : t) : t :=
  match x, y with
  | INaN, _ | _, INaN => INaN
  | IInf a, IInf b => IInf (xorb a b)
  | IInf a, IFin q | IFin q, IInf a =>
      if Qc_eqb q 0%Qc then INaN else IInf (xorb a (Qc_neg q))
  | IFin p, IFin q => IFin (p * q)%Qc
  end.

Definition div (x y : t) : t :=
  match x, y with
  | INaN, _ | _, INaN => INaN
  | IInf _, IInf _ => INaN
  | IInf a, IFin q => IInf (xorb a (Qc_neg q))
  | IFin _, IInf _ => IFin 0%Qc
  | IFin p, IFin q =>
      if Qc_eqb q 0%Qc
      then (if Qc_eqb p 0%Qc then INaN else IInf (Qc_neg p))
      else IFin (p / q)%Qc
  end.

Definition abs (x : t) : t :=
  match x with
  | INaN => INaN
  | IInf _ => IInf false
  | IFin q => IFin (if Qc_neg q then - q else q)%Qc
  end.

(** [Math.round]: [floor (x + 1/2)]. *)
Definition round (x : t) : t :=
  match x with
  | IFin q => of_Z (Qfloor (q + Q2Qc (1 # 2)%Q)%Qc)
  | _ => x
  end.

Definition ltb (x y : t) : bool :=
  match x, y with
  | INaN, _ | _, INaN => false
  | IInf a, IInf b => a && negb b
  | IInf a, IFin _ => a
  | IFin _, IInf b => negb b
  | IFin p, IFin q => Qc_ltb p q
  end.

Definition leb (x y : t) : bool :=
  match x, y with
  | INaN, _ | _, INaN => false
  | IInf a, IInf b => a || negb b
  | IInf a, IFin _ => a
  | IFin _, IInf b => negb b
  | IFin p, IFin q => Qc_leb p q
  end.

Definition eqb (x y : t) : bool :=
  match x, y with
  | INaN, _ | _, INaN => false
  | IInf a, IInf b => Bool.eqb a b
  | IFin p, IFin q => Qc_eqb p q
  | _, _ => false
  end.

Definition is_nan (x : t) : bool :=
  match x with INaN => true | _ => false end.

Definition of_decimal (neg : bool) (m : N) (e : Z) : t :=
  let q := Q2Qc (inject_Z (Z.of_N m) * Qpower (inject_Z 10) e) in
  IFin (if neg then - q else q)%Qc.

Definition number : Number := {|
  num := t;
  num_of_Z := of_Z;
  NaN := INaN;
  Infinity := IInf false;
  num_neg := opp;
  num_add := add;
  num_sub := sub;
  num_mul := mul;
  num_div := div;
  Math_abs := abs;
  Math_round := round;
  num_lt := ltb;
  num_le := leb;
  num_eq := eqb;
  isNaN := is_nan;
  num_of_decimal := of_decimal
|}.

End Ideal.

(** ** 2. JavaScript values *)

Local Open Scope string_scope.

(** *** Strings *)

(** The ASCII members of StrWhiteSpaceChar: TAB, LF, VT, FF, CR and space.
    (The non-ASCII ones are not treated as white space.) *)
Definition is_whitespace (c : ascii) : bool :=
  let n := N_of_ascii c in
  ((9 <=? n) && (n <=? 13) || (n =? 32))%N.

Fixpoint trim_start (s : string) : string :=
  match s with
  | String c s' => if is_whitespace c then trim_start s' else s
  | EmptyString => s
  end.

Definition digit_of_char (c : ascii) : option (Decimal.uint -> Decimal.uint) :=
  match c with
  | "0" => Some Decimal.D0 | "1" => Some Decimal.D1 | "2" => Some Decimal.D2
  | "3" => Some Decimal.D3 | "4" => Some Decimal.D4 | "5" => Some Decimal.D5
  | "6" => Some Decimal.D6 | "7" => Some Decimal.D7 | "8" => Some Decimal.D8
  | "9" => Some Decimal.D9 | _ => None
  end%char.

(** The longest prefix of decimal digits, and what follows it. *)
Fixpoint read_digits (s : string) : Decimal.uint * string :=
  match s with
  | String c s' =>
      match digit_of_char c with
      | Some D => let '(d, r) := read_digits s' in (D d, r)
      | None => (Decimal.Nil, s)
      end
  | EmptyString => (Decimal.Nil, s)
  end.

Definition hex_of_char (c : ascii) : option N :=
  let n := N_of_ascii c in
  (if (48 <=? n) && (n <=? 57) then Some (n - 48)
   else if (97 <=? n) && (n <=? 102) then Some (n - 87)
   else if (65 <=? n) && (n <=? 70) then Some (n - 55)
   else None)%N.

(** The value of the longest prefix of hexadecimal digits after [acc],
    and whether a digit was read. *)
Fixpoint read_hex (acc : N) (seen : bool) (s : string) : option N :=
  match s with
  | String c s' =>
      match hex_of_char c with
      | Some h => read_hex (16 * acc + h)%N true s'
      | None => if seen then Some acc else None
      end
  | EmptyString => if seen then Some acc else None
  end.

(** A leading sign, and what follows it. *)
Definition read_sign (s : string) : bool * string :=
  match s with
  | String "-" s' => (true, s')
  | String "+" s' => (false, s')
  | _ => (false, s)
  end.

(** The string starts with "0x" or "0X". *)
Definition hex_prefix (s : string) : bool :=
  match s with
  | String "0" (String x _) => (Ascii.eqb x "x" || Ascii.eqb x "X")%bool
  | _ => false
  end.

(** The integer that the longest prefix of digits denotes, in radix 16
    after "0x" and in radix 10 otherwise; [None] when there is no digit. *)
Definition parse_magnitude (s : string) : option N :=
  if hex_prefix s then
    match s with
    | String _ (String _ s') => read_hex 0%N false s'
    | _ => None
    end
  else
    match read_digits s with
    | (Decimal.Nil, _) => None
    | (d, _) => Some (N.of_uint d)
    end.

(** [parseInt(s)] with no radix; [None] is NaN. *)
Definition parseInt (s : string) : option Z :=
  let '(neg, s1) := read_sign (trim_start s) in
  option_map (fun n => if neg then - Z.of_N n else Z.of_N n) (parse_magnitude s1).

(** [ToString] of an integer Number (below 10^21 in magnitude). *)
Definition Z_toString (z : Z) : string := NilZero.string_of_int (Z.to_int z).

(** [s.split(' ')[0]]: what precedes the first space. *)
Fixpoint before_space (s : string) : string :=
  match s with
  | String c s' => if Ascii.eqb c " " then "" else String c (before_space s')
  | EmptyString => ""
  end.

(** The exponent part of a decimal literal: "e" or "E", an optional sign
    and at least one digit; [0] when there is none. *)
Definition read_exponent (s : string) : Z :=
  match s with
  | String c s' =>
      if (Ascii.eqb c "e" || Ascii.eqb c "E")%bool then
        let '(neg, s2) := read_sign s' in
        match read_digits s2 with
        | (Decimal.Nil, _) => 0
        | (d, _) => if neg then - Z.of_N (N.of_uint d) else Z.of_N (N.of_uint d)
        end
      else 0
  | EmptyString => 0
  end.

Fixpoint uint_length (d : Decimal.uint) : nat :=
  match d with
  | Decimal.Nil => O
  | Decimal.D0 d | Decimal.D1 d | Decimal.D2 d | Decimal.D3 d | Decimal.D4 d
  | Decimal.D5 d | Decimal.D6 d | Decimal.D7 d | Decimal.D8 d | Decimal.D9 d =>
      S (uint_length d)
  end.

Definition starts_with (p s : string) : bool := String.prefix p s.

Section Values.
Context {N : Number}.
Local Open Scope js_scope.

(** A number is falsy when it is a zero or NaN. *)
Definition num_truthy (x : num) : bool := negb (isNaN x || (x =? num_of_Z 0)).

(** The values a field of an API record holds.  (Booleans, arrays and
    objects do not occur in the fields the services read.) *)
Inductive JsVal :=
| JUndefined
| JNull
| JNum (n : num)
| JStr (s : string).

Definition truthy (v : JsVal) : bool :=
  match v with
  | JUndefined | JNull => false
  | JNum n => num_truthy n
  | JStr s => negb (String.eqb s "")
  end.

(** [a || b] *)
Definition js_or (a b : JsVal) : JsVal := if truthy a then a else b.

(** [parseFloat] of a string: the longest prefix of the trimmed string
    that is a StrDecimalLiteral, NaN when there is none. *)
Definition parseFloat_string (s : string) : num :=
  let '(neg, s1) := read_sign (trim_start s) in
  if starts_with "Infinity" s1 then (if neg then num_neg Infinity else Infinity)
  else
    let '(int_part, s2) := read_digits s1 in
    let '(frac_part, s3, dot) :=
      match s2 with
      | String "." s2' => let '(f, r) := read_digits s2' in (f, r, true)
      | _ => (Decimal.Nil, s2, false)
      end in
    match int_part, frac_part with
    | Decimal.Nil, Decimal.Nil => NaN
    | _, _ =>
        num_of_decimal neg
          (N.of_uint (Decimal.app int_part frac_part))
          (read_exponent s3 - Z.of_nat (uint_length frac_part))
    end.

(** [parseFloat(v)]: the argument is converted to a string first.  A
    Number prints to a string that reads back as itself. *)
Definition parseFloat (v : JsVal) : num :=
  match v with
  | JUndefined | JNull => NaN
  | JNum n => n
  | JStr s => parseFloat_string s
  end.

(** [ToNumber] of a parameter that may be undefined. *)
Definition ToNumber (o : option num) : num :=
  match o with Some n => n | None => NaN end.

End Values.

Arguments JsVal N : clear implicits.

(** An employee identifier as the API sends it: absent, a JSON integer or
    a JSON string.  (A fractional Number is not an identifier.) *)
Inductive IdVal :=
| IdMissing
| IdInt (z : Z)
| IdStr (s : string).

Definition id_truthy (v : IdVal) : bool :=
  match v with
  | IdMissing => false
  | IdInt z => negb (z =? 0)%Z
  | IdStr s => negb (String.eqb s "")
  end.

(** [a || b] on identifiers *)
Definition id_or (a b : IdVal) : IdVal := if id_truthy a then a else b.

(** The property key an identifier is used as: its [ToString]. *)
Definition id_key (v : IdVal) : string :=
  match v with
  | IdMissing => "undefined"
  | IdInt z => Z_toString z
  | IdStr s => s
  end.

(** The property key of the Number [parseInt] returned. *)
Definition parsed_key (o : option Z) : string :=
  match o with
  | Some z => Z_toString z
  | None => "NaN"
  end.


(** ** 3. Exceptions, objects and arrays *)

Inductive JsError :=
| RequestError (endpoint : string)    (* makeRequest: the request failed *)
| TypeError                           (* a property read or call on a value that has none *)
| CalculationError (cause : JsError). (* 'Failed to calculate salaries: ' + cause *)

(** What a call does: it returns a value or throws. *)
Inductive Outcome (A : Type) :=
| Returns (a : A)
| Throws (e : JsError).
Arguments Returns {A} a.
Arguments Throws {A} e.

#[global] Instance Outcome_ret : MRet Outcome := @Returns.
#[global] Instance Outcome_bind : MBind Outcome := fun A B k m =>
  match m with
  | Returns a => k a
  | Throws e => Throws e
  end.

(** [l.forEach(f)] for a callback that updates the state [s] and may throw. *)
Fixpoint forEach {A S} (f : S -> A -> Outcome S) (l : list A) (s : S) : Outcome S :=
  match l with
  | [] => Returns s
  | a :: l' => s' ← f s a; forEach f l' s'
  end.

(** An object used as a map from property keys to values.  The own
    properties are kept in the order of their creation, which is what
    [Object.keys] enumerates after the array indices.  (Keys that name a
    member of [Object.prototype] are not modelled.) *)
Module JsObject.
Section Obj.
Context {V : Type}.

Definition t := list (string * V).

Definition empty : t := [].

(** [o[k]] *)
Fixpoint get (k : string) (o : t) : option V :=
  match o with
  | [] => None
  | (k', v) :: o' => if String.eqb k k' then Some v else get k o'
  end.

(** [o[k] = v]: an existing property keeps its place. *)
Fixpoint set (k : string) (v : V) (o : t) : t :=
  match o with
  | [] => [(k, v)]
  | (k', v') :: o' =>
      if String.eqb k k' then (k, v) :: o' else (k', v') :: set k v o'
  end.

(** An array index: the canonical decimal string of an integer
    between 0 and 2^32 - 2. *)
Definition array_index (k : string) : option N :=
  match NilEmpty.uint_of_string k with
  | Some d =>
      let n := N.of_uint d in
      if (String.eqb (NilZero.string_of_uint (N.to_uint n)) k
          && (n <=? 4294967294)%N)%bool
      then Some n else None
  | None => None
  end.

Fixpoint insert_index (x : N * string) (l : list (N * string)) :=
  match l with
  | [] => [x]
  | y :: l' => if (fst x <=? fst y)%N then x :: l else y :: insert_index x l'
  end.

Definition own_keys (o : t) : list string := map fst o.

(** [Object.keys(o)]: the array indices in ascending order, then the
    other keys in the order of their creation. *)
Definition keys (o : t) : list string :=
  let ks := own_keys o in
  let indices :=
    omap (fun k => option_map (fun n => (n, k)) (array_index k)) ks in
  map snd (fold_right insert_index [] indices)
  ++ List.filter (fun k => negb (bool_decide (is_Some (array_index k)))) ks.
End Obj.
Arguments t V : clear implicits.
End JsObject.

(** [Array.prototype.sort(comparefn)].  The sort is stable, and for a
    comparator that is consistent on the array its result is the one
    list that is ordered and keeps equal elements in their order: the
    list obtained by inserting the elements one by one from the right,
    each before the first element it does not have to follow.  A
    comparator result that is NaN counts as 0. *)
Section ArraySort.
Context {N : Number} {A : Type}.
Variable comparefn : A -> A -> num.

(** [comparefn(x, y) > 0]: [x] goes after [y]. *)
Definition goes_after (x y : A) : bool :=
  (comparefn x y >? num_of_Z 0)%js.

Fixpoint sort_insert (x : A) (l : list A) : list A :=
  match l with
  | [] => [x]
  | y :: l' => if goes_after x y then y :: sort_insert x l' else x :: l
  end.

Definition Array_sort (l : list A) : list A := fold_right sort_insert [] l.
End ArraySort.

(** ** 4. posterService.js *)

Section PosterService.
Context {N : Number}.
Local Open Scope js_scope.

(** A sale transaction of [dash.getTransactions]. *)
Record Transaction := {
  transaction_user_id : IdVal;
  transaction_staff_id : IdVal;
  transaction_date_close : JsVal N;
  transaction_date : JsVal N;
  transaction_total : JsVal N
}.

(** An employee of [access.getEmployees]; an absent or null name is [None]. *)
Record Employee := {
  employee_user_id : IdVal;
  employee_id : IdVal;
  employee_name : option string;
  employee_user_name : option string
}.

(** A revision of [storage.getInventoryRevisions]. *)
Record Revision := {
  revision_difference : JsVal N
}.

(** What [makeRequest] does for one endpoint: it throws, or it returns
    the body, whose [response] property may be absent. *)
Inductive ApiResponse (A : Type) :=
| RequestFailed
| ResponseData (response : option (list A)).
Arguments RequestFailed {A}.
Arguments ResponseData {A} response.

(** The Poster API as the three requests of one calculation see it.  The
    account, the token and the date range select the records; they are
    part of the request, not of what is computed from the answer. *)
Record PosterApi := {
  access_getEmployees : ApiResponse Employee;
  dash_getTransactions : ApiResponse Transaction;
  storage_getInventoryRevisions : ApiResponse Revision
}.

Definition makeRequest {A} (endpoint : string) (r : ApiResponse A)
  : Outcome (option (list A)) :=
  match r with
  | RequestFailed => Throws (RequestError endpoint)
  | ResponseData response => Returns response
  end.

(** [data.response || []] *)
Definition response_or_empty {A} (response : option (list A)) : list A :=
  match response with Some l => l | None => [] end.

Definition getEmployees (api : PosterApi) : Outcome (list Employee) :=
  response ← makeRequest "access.getEmployees" (access_getEmployees api);
  Returns (response_or_empty response).

Definition getTransactions (api : PosterApi) : Outcome (list Transaction) :=
  response ← makeRequest "dash.getTransactions" (dash_getTransactions api);
  Returns (response_or_empty response).

(** [transactionDate.split(' ')[0]]: only a string has [split]. *)
Definition dateOnly (transactionDate : JsVal N) : Outcome string :=
  match transactionDate with
  | JStr s => Returns (before_space s)
  | _ => Throws TypeError
  end.

(** [!revenueByEmployee[employeeId]] *)
Definition no_revenue (o : option num) : bool :=
  match o with
  | Some r => negb (num_truthy r)
  | None => true
  end.

(** [revenueByEmployee[employeeId]] read as a Number *)
Definition revenue_of (o : option num) : num :=
  match o with Some r => r | None => NaN end.

(** The callback of [transactions.forEach] in [getEmployeeRevenue], on
    the two objects it updates. *)
Definition aggregate
    (st : JsObject.t num * JsObject.t (gset string)) (transaction : Transaction)
  : Outcome (JsObject.t num * JsObject.t (gset string)) :=
  let '(revenueByEmployee, shiftsByEmployee) := st in
  let employeeId :=
    id_or (transaction_user_id transaction) (transaction_staff_id transaction) in
  let transactionDate :=
    js_or (transaction_date_close transaction) (transaction_date transaction) in
  if negb (id_truthy employeeId) then Returns st
  else
    let k := id_key employeeId in
    let revenueByEmployee :=
      if no_revenue (JsObject.get k revenueByEmployee)
      then JsObject.set k (num_of_Z 0) revenueByEmployee
      else revenueByEmployee in
    let revenueByEmployee :=
      JsObject.set k
        (revenue_of (JsObject.get k revenueByEmployee)
         + parseFloat (js_or (transaction_total transaction) (JNum (num_of_Z 0))))
        revenueByEmployee in
    let shiftsByEmployee :=
      match JsObject.get k shiftsByEmployee with
      | Some _ => shiftsByEmployee
      | None => JsObject.set k ∅ shiftsByEmployee
      end in
    d ← dateOnly transactionDate;
    match JsObject.get k shiftsByEmployee with
    | Some dates => Returns (revenueByEmployee, JsObject.set k (dates ∪ {[ d ]}) shiftsByEmployee)
    | None => Throws TypeError
    end.

(** One element of [revenueData]. *)
Record RevenueData := {
  data_employeeId : option Z;     (* [parseInt(employeeId)], [None] for NaN *)
  data_revenue : num;
  data_shiftsCount : nat
}.

(** The callback of [Object.keys(revenueByEmployee).map]. *)
Definition revenue_entry
    (revenueByEmployee : JsObject.t num) (shiftsByEmployee : JsObject.t (gset string))
    (employeeId : string) : Outcome RevenueData :=
  match JsObject.get employeeId shiftsByEmployee with
  | Some dates =>
      Returns {| data_employeeId := parseInt employeeId;
                 data_revenue := revenue_of (JsObject.get employeeId revenueByEmployee);
                 data_shiftsCount := size dates |}
  | None => Throws TypeError
  end.

(** [getEmployeeRevenue] on the transactions the API returned. *)
Definition employeeRevenue (transactions : list Transaction)
  : Outcome (list RevenueData) :=
  '(revenueByEmployee, shiftsByEmployee) ←
    forEach aggregate transactions (JsObject.empty, JsObject.empty);
  mapM (revenue_entry revenueByEmployee shiftsByEmployee)
       (JsObject.keys revenueByEmployee).

Definition getEmployeeRevenue (api : PosterApi) : Outcome (list RevenueData) :=
  transactions ← getTransactions api;
  employeeRevenue transactions.

Record InventoryResults := {
  results_month : option num;
  results_year : option num;
  results_totalLoss : num;
  results_revisionsCount : nat;
  results_revisions : list Revision
}.

(** The total of the differences, as the [forEach] of
    [getInventoryResults] accumulates it. *)
Definition sum_differences (revisions : list Revision) : num :=
  fold_left
    (fun totalLoss revision =>
       totalLoss + parseFloat (js_or (revision_difference revision) (JNum (num_of_Z 0))))
    revisions (num_of_Z 0).

(** [getInventoryResults]: the [catch] turns a failed request into the
    result of no loss and no revision. *)
Definition getInventoryResults (api : PosterApi) (month year : option num)
  : InventoryResults :=
  match makeRequest "storage.getInventoryRevisions" (storage_getInventoryRevisions api) with
  | Returns response =>
      let revisions := response_or_empty response in
      {| results_month := month;
         results_year := year;
         results_totalLoss := sum_differences revisions;
         results_revisionsCount := length revisions;
         results_revisions := revisions |}
  | Throws _ =>
      {| results_month := month;
         results_year := year;
         results_totalLoss := num_of_Z 0;
         results_revisionsCount := 0;
         results_revisions := [] |}
  end.

End PosterService.

Arguments Transaction N : clear implicits.
Arguments Employee : clear implicits.
Arguments Revision N : clear implicits.
Arguments RevenueData N : clear implicits.
Arguments InventoryResults N : clear implicits.
Arguments PosterApi N : clear implicits.
Arguments RequestFailed {A}.
Arguments ResponseData {A} response.

(** ** 5. salaryService.js *)

Section SalaryService.
Context {N : Number}.
Local Open Scope js_scope.

(** The parameters of a calculation; [None] is an absent property. *)
Record Params := {
  params_account : option string;
  params_accessToken : option string;
  params_month : option num;
  params_year : option num;
  params_inventoryMonth : option num;
  params_inventoryYear : option num;
  params_shiftRate : option num;
  params_revenuePercent : option num
}.

(** One element of [salaryResults]. *)
Record SalaryLine := {
  emp_employeeId : IdVal;
  emp_employeeName : string;
  emp_shiftsCount : nat;
  emp_revenue : num;
  emp_baseSalary : num;
  emp_revenueBonus : num;
  emp_inventoryDeduction : num;
  emp_totalSalary : num
}.

Record Period := {
  period_month : option num;
  period_year : option num;
  period_monthName : string
}.

Record Parameters := {
  parameters_shiftRate : option num;
  parameters_revenuePercent : option num
}.

Record Inventory := {
  inventory_month : option num;
  inventory_year : option num;
  inventory_totalLoss : num;
  inventory_revisionsCount : nat
}.

Record Summary := {
  summary_employeesCount : nat;
  summary_totalRevenue : num;
  summary_totalBaseSalary : num;
  summary_totalRevenueBonus : num;
  summary_totalInventoryDeduction : num;
  summary_totalSalary : num
}.

Record Report := {
  report_success : bool;
  report_period : Period;
  report_parameters : Parameters;
  report_inventory : Inventory;
  report_summary : Summary;
  report_employees : list SalaryLine
}.

Definition months : list string :=
  [ "Січень"; "Лютий"; "Березень"; "Квітень"; "Травень"; "Червень";
    "Липень"; "Серпень"; "Вересень"; "Жовтень"; "Листопад"; "Грудень" ].

(** [months[i]] for a Number [i]: the element whose index it equals. *)
Fixpoint array_at (l : list string) (index : Z) (i : num) : option string :=
  match l with
  | [] => None
  | x :: l' => if i =? num_of_Z index then Some x else array_at l' (index + 1)%Z i
  end.

(** [months[month - 1] || 'Невідомий місяць'] *)
Definition getMonthName (month : option num) : string :=
  match array_at months 0 (ToNumber month - num_of_Z 1) with
  | Some name => name
  | None => "Невідомий місяць"
  end.

(** [Math.round(x * 100) / 100], as every monetary field is built. *)
Definition round2 (x : num) : num := Math_round (x * num_of_Z 100) / num_of_Z 100.

(** [a || b] on names; the empty string is falsy. *)
Definition name_or (a : option string) (b : string) : string :=
  match a with
  | Some s => if String.eqb s "" then b else s
  | None => b
  end.

Section Calculation.
Variable params : Params.
Variable employees : list Employee.
Variable revenueData : list (RevenueData N).
Variable inventoryResults : InventoryResults N.

Definition shiftRate : num := ToNumber (params_shiftRate params).
Definition revenuePercent : num := ToNumber (params_revenuePercent params).

(** Step 3: the two maps, filled by [revenueData.forEach]. *)
Definition revenueMap : gmap string num :=
  fold_left (fun m data => <[parsed_key (data_employeeId data) := data_revenue data]> m)
            revenueData ∅.

Definition shiftsMap : gmap string nat :=
  fold_left (fun m data => <[parsed_key (data_employeeId data) := data_shiftsCount data]> m)
            revenueData ∅.

(** Step 4 *)
Definition totalRevenue : num :=
  fold_left (fun sum data => sum + data_revenue data) revenueData (num_of_Z 0).

(** Step 5: the locals of the callback of [employees.map]. *)
Definition employeeId (employee : Employee) : IdVal :=
  id_or (employee_user_id employee) (employee_id employee).

Definition employeeName (employee : Employee) : string :=
  name_or (employee_name employee)
    (name_or (employee_user_name employee) "Невідомий").

(** [shiftsMap[employeeId] || 0] *)
Definition shiftsCount (employee : Employee) : nat :=
  match shiftsMap !! id_key (employeeId employee) with
  | Some n => n
  | None => 0%nat
  end.

(** [revenueMap[employeeId] || 0] *)
Definition revenue (employee : Employee) : num :=
  match revenueMap !! id_key (employeeId employee) with
  | Some r => if num_truthy r then r else num_of_Z 0
  | None => num_of_Z 0
  end.

Definition baseSalary (employee : Employee) : num :=
  num_of_Z (Z.of_nat (shiftsCount employee)) * shiftRate.

Definition revenueBonus (employee : Employee) : num :=
  revenue employee * (revenuePercent / num_of_Z 100).

Definition inventoryDeduction (employee : Employee) : num :=
  if (results_totalLoss inventoryResults <? num_of_Z 0) && (totalRevenue >? num_of_Z 0)
  then
    let employeeShare := revenue employee / totalRevenue in
    Math_abs (results_totalLoss inventoryResults) * employeeShare
  else num_of_Z 0.

Definition totalSalary (employee : Employee) : num :=
  baseSalary employee + revenueBonus employee - inventoryDeduction employee.

Definition salaryLine (employee : Employee) : SalaryLine :=
  {| emp_employeeId := employeeId employee;
     emp_employeeName := employeeName employee;
     emp_shiftsCount := shiftsCount employee;
     emp_revenue := round2 (revenue employee);
     emp_baseSalary := round2 (baseSalary employee);
     emp_revenueBonus := round2 (revenueBonus employee);
     emp_inventoryDeduction := round2 (inventoryDeduction employee);
     emp_totalSalary := round2 (totalSalary employee) |}.

Definition salaryResults : list SalaryLine := map salaryLine employees.

(** Step 6 *)
Definition workingEmployees : list SalaryLine :=
  List.filter (fun emp => (0 <? emp_shiftsCount emp)%nat) salaryResults.

(** [workingEmployees.reduce((sum, e) => sum + e.field, 0)] *)
Definition sum_of (field : SalaryLine -> num) : num :=
  fold_left (fun sum e => sum + field e) workingEmployees (num_of_Z 0).

(** The comparator of the final sort. *)
Definition by_totalSalary (a b : SalaryLine) : num :=
  emp_totalSalary b - emp_totalSalary a.

(** Step 7.  The summary is computed before the sort reorders the
    array. *)
Definition report : Report :=
  {| report_success := true;
     report_period :=
       {| period_month := params_month params;
          period_year := params_year params;
          period_monthName := getMonthName (params_month params) |};
     report_parameters :=
       {| parameters_shiftRate := params_shiftRate params;
          parameters_revenuePercent := params_revenuePercent params |};
     report_inventory :=
       {| inventory_month := params_inventoryMonth params;
          inventory_year := params_inventoryYear params;
          inventory_totalLoss := round2 (results_totalLoss inventoryResults);
          inventory_revisionsCount := results_revisionsCount inventoryResults |};
     report_summary :=
       {| summary_employeesCount := length workingEmployees;
          summary_totalRevenue := round2 totalRevenue;
          summary_totalBaseSalary := round2 (sum_of emp_baseSalary);
          summary_totalRevenueBonus := round2 (sum_of emp_revenueBonus);
          summary_totalInventoryDeduction := round2 (sum_of emp_inventoryDeduction);
          summary_totalSalary := round2 (sum_of emp_totalSalary) |};
     report_employees := Array_sort by_totalSalary workingEmployees |}.
End Calculation.

(** [catch (error) { throw new Error('Failed to calculate salaries: ' + ...) }] *)
Definition rethrow {A} (m : Outcome A) : Outcome A :=
  match m with
  | Returns a => Returns a
  | Throws e => Throws (CalculationError e)
  end.

(** [calculateSalaries(params)] against the API.  Of several failed
    requests the first in the order of the array is reported. *)
Definition calculateSalaries (api : PosterApi N) (params : Params) : Outcome Report :=
  rethrow (
    employees ← getEmployees api;
    revenueData ← getEmployeeRevenue api;
    let inventoryResults :=
      getInventoryResults api (params_inventoryMonth params) (params_inventoryYear params) in
    Returns (report params employees revenueData inventoryResults)).

Record Validation := {
  isValid : bool;
  errors : list string
}.

(** [!v] for an optional string *)
Definition no_string (v : option string) : bool :=
  match v with
  | Some s => String.eqb s ""
  | None => true
  end.

(** [!v] for an optional Number *)
Definition no_number (v : option num) : bool :=
  match v with
  | Some n => negb (num_truthy n)
  | None => true
  end.

(** [v === undefined] *)
Definition is_undefined (v : option num) : bool :=
  match v with Some _ => false | None => true end.

(** [if (violated) errors.push(message)] *)
Definition push_if (violated : bool) (message : string) (errors : list string) : list string :=
  if violated then errors ++ [message] else errors.

Definition validateCalculationParams (params : Params) : Validation :=
  let month := ToNumber (params_month params) in
  let year := ToNumber (params_year params) in
  let shiftRate := ToNumber (params_shiftRate params) in
  let revenuePercent := ToNumber (params_revenuePercent params) in
  let errors := [] in
  let errors := push_if (no_string (params_account params)) "Account is required" errors in
  let errors := push_if (no_string (params_accessToken params)) "Access token is required" errors in
  let errors :=
    push_if (no_number (params_month params) || (month <? num_of_Z 1) || (month >? num_of_Z 12))
            "Invalid month (must be 1-12)" errors in
  let errors :=
    push_if (no_number (params_year params) || (year <? num_of_Z 2000))
            "Invalid year" errors in
  let errors :=
    push_if (is_undefined (params_shiftRate params) || (shiftRate <? num_of_Z 0))
            "Invalid shift rate" errors in
  let errors :=
    push_if (is_undefined (params_revenuePercent params)
             || (revenuePercent <? num_of_Z 0) || (revenuePercent >? num_of_Z 100))
            "Invalid revenue percent (must be 0-100)" errors in
  {| isValid := (length errors =? 0)%nat; errors := errors |}.

End SalaryService.

Arguments Params N : clear implicits.
Arguments SalaryLine N : clear implicits.
Arguments Report N : clear implicits.
Arguments Period N : clear implicits.
Arguments Parameters N : clear implicits.
Arguments Inventory N : clear implicits.
Arguments Summary N : clear implicits.

(** ** 6. Laws of the numbers, and the inputs of the examples *)

(** Comparisons with zero exclude each other, and zero rounds to zero. *)
Class NumberLaws (N : Number) : Prop := {
  lt_zero_ge : forall x : num, (x >=? num_of_Z 0)%js = true -> (x <? num_of_Z 0)%js = false;
  gt_zero_eq : forall x : num, (x =? num_of_Z 0)%js = true -> (x >? num_of_Z 0)%js = false;
  zero_lt_zero : (num_of_Z 0 <? num_of_Z 0)%js = false;
  round2_zero : round2 (num_of_Z 0) = num_of_Z 0
}.

(** Literals of the two instances. *)
Definition f64 (x : float) : @num Float64.number := x.
Definition fin (q : Qc) : @num Ideal.number := Ideal.IFin q.
Definition exact (q : Q) : @num Ideal.number := fin (Q2Qc q).

(** A sale closed by the employee [user_id] at [date_close]; the total is
    a string, as the API sends it. *)
Definition sale {N : Number} (user_id : IdVal) (date_close : string) (total : string)
  : Transaction N :=
  {| transaction_user_id := user_id;
     transaction_staff_id := IdMissing;
     transaction_date_close := JStr date_close;
     transaction_date := JUndefined;
     transaction_total := JStr total |}.

Definition staff (user_id : Z) (name : string) : Employee :=
  {| employee_user_id := IdInt user_id;
     employee_id := IdMissing;
     employee_name := Some name;
     employee_user_name := None |}.

Definition revision_of {N : Number} (difference : string) : Revision N :=
  {| revision_difference := JStr difference |}.

(** The API with another answer to the inventory request. *)
Definition with_inventory {N : Number} (api : PosterApi N) (r : ApiResponse (Revision N))
  : PosterApi N :=
  {| access_getEmployees := access_getEmployees api;
     dash_getTransactions := dash_getTransactions api;
     storage_getInventoryRevisions := r |}.

(** February 2023 at [shiftRate] a shift and [revenuePercent] percent of
    the revenue. *)
Definition february {N : Number} (shiftRate revenuePercent : Z) : Params N :=
  {| params_account := Some "cafe";
     params_accessToken := Some "token";
     params_month := Some (num_of_Z 2);
     params_year := Some (num_of_Z 2023);
     params_inventoryMonth := Some (num_of_Z 2);
     params_inventoryYear := Some (num_of_Z 2023);
     params_shiftRate := Some (num_of_Z shiftRate);
     params_revenuePercent := Some (num_of_Z revenuePercent) |}.

(** The parameters that break four rules at once. *)
Definition four_violations {N : Number} : Params N :=
  {| params_account := Some "cafe";
     params_accessToken := Some "token";
     params_month := Some (num_of_Z 13);
     params_year := Some (num_of_Z 1999);
     params_inventoryMonth := None;
     params_inventoryYear := None;
     params_shiftRate := Some (num_of_Z (-1));
     params_revenuePercent := Some (num_of_Z 150) |}.

(** The rules of [validateCalculationParams], each with its message, in
    the order they are tested. *)
Definition rules {N : Number} (params : Params N) : list (bool * string) :=
  let month := ToNumber (params_month params) in
  let year := ToNumber (params_year params) in
  let shiftRate := ToNumber (params_shiftRate params) in
  let revenuePercent := ToNumber (params_revenuePercent params) in
  [ (no_string (params_account params), "Account is required");
    (no_string (params_accessToken params), "Access token is required");
    (no_number (params_month params) || (month <? num_of_Z 1)%js || (month >? num_of_Z 12)%js,
     "Invalid month (must be 1-12)");
    (no_number (params_year params) || (year <? num_of_Z 2000)%js, "Invalid year");
    (is_undefined (params_shiftRate params) || (shiftRate <? num_of_Z 0)%js,
     "Invalid shift rate");
    (is_undefined (params_revenuePercent params)
     || (revenuePercent <? num_of_Z 0)%js || (revenuePercent >? num_of_Z 100)%js,
     "Invalid revenue percent (must be 0-100)") ].

(** The messages of the rules that are violated. *)
Definition violations (rs : list (bool * string)) : list string :=
  flat_map (fun rule : bool * string => if fst rule then [snd rule] else []) rs.

Definition no_violation (rs : list (bool * string)) : bool :=
  forallb (fun rule : bool * string => negb (fst rule)) rs.

(** Two employees; the first sold on two days, the second not at all;
    the inventory request fails. *)
Definition api_without_inventory {N : Number} : PosterApi N :=
  {| access_getEmployees := ResponseData (Some [staff 1 "A"; staff 2 "B"]);
     dash_getTransactions := ResponseData (Some
       [ sale (IdInt 1) "2023-02-01 10:15:00" "1200";
         sale (IdInt 1) "2023-02-01 18:40:00" "800.50";
         sale (IdInt 1) "2023-02-02 09:05:00" "999.5" ]);
     storage_getInventoryRevisions := RequestFailed |}.

(** Two employees with a third and two thirds of the revenue, and a
    shortage of 100. *)
Definition api_thirds {N : Number} : PosterApi N :=
  {| access_getEmployees := ResponseData (Some [staff 1 "A"; staff 2 "B"]);
     dash_getTransactions := ResponseData (Some
       [ sale (IdInt 1) "2023-02-01 10:15:00" "1000";
         sale (IdInt 2) "2023-02-01 11:30:00" "2000" ]);
     storage_getInventoryRevisions := ResponseData (Some [revision_of "-100"]) |}.

(** One employee, one sale of 100.4, and a shortage of 0.006. *)
Definition api_cents {N : Number} : PosterApi N :=
  {| access_getEmployees := ResponseData (Some [staff 1 "A"]);
     dash_getTransactions := ResponseData (Some
       [ sale (IdInt 1) "2023-02-01 10:15:00" "100.4" ]);
     storage_getInventoryRevisions := ResponseData (Some [revision_of "-0.006"]) |}.

(** One employee, and a shortage of an eighth: twelve cents and a half. *)
Definition api_eighth {N : Number} : PosterApi N :=
  {| access_getEmployees := ResponseData (Some [staff 1 "A"]);
     dash_getTransactions := ResponseData (Some
       [ sale (IdInt 1) "2023-02-01 10:15:00" "1000" ]);
     storage_getInventoryRevisions := ResponseData (Some [revision_of "-0.125"]) |}.

(** Rounding to two decimals with ties away from zero, in the words of the
    specification: the magnitude is rounded, ties up, and the sign is put
    back. *)
Definition round_half_away_from_zero2 {N : Number} (x : num) : num :=
  let r := (Math_round (Math_abs x * num_of_Z 100) / num_of_Z 100)%js in
  if (x <? num_of_Z 0)%js then num_neg r else r.

(** The sum of the deductions of all the employees, before any rounding
    and before the filter, as the program's addition computes it. *)
Definition sum_inventoryDeduction {N : Number}
    (employees : list Employee) (revenueData : list (RevenueData N))
    (inventoryResults : InventoryResults N) : num :=
  fold_left (fun sum employee =>
               (sum + inventoryDeduction revenueData inventoryResults employee)%js)
            employees (num_of_Z 0).

(** The exact sum of the deductions of all the employees. *)
Definition exact_sum_inventoryDeduction
    (employees : list Employee) (revenueData : list (RevenueData Float64.number))
    (inventoryResults : InventoryResults Float64.number) : Q :=
  fold_right Qplus 0%Q
    (map (fun employee =>
            Float64.to_Q (inventoryDeduction revenueData inventoryResults employee))
         employees).

(** The whole number of cents that [Math.round(q * 100)] is in exact
    arithmetic: [floor (100 q + 1/2)]. *)
Definition cents (q : Qc) : Z := Qfloor (q * 100 + (1 # 2))%Q.

(** The exact sum of a list of rationals. *)
Definition Qc_sum (l : list Qc) : Qc := fold_right Qcplus 0%Qc l.

(** The rational an exact number is (0 for NaN and the infinities). *)
Definition to_Qc (x : @num Ideal.number) : Qc :=
  match x with Ideal.IFin q => q | _ => 0%Qc end.

(** The map that a [forEach] fills by the assignments [m[key d] = val d]. *)
Definition filled {D V : Type} (key : D -> string) (val : D -> V)
    (l : list D) (m : gmap string V) : gmap string V :=
  fold_left (fun m d => <[key d := val d]> m) l m.

(** The revenue recorded under a property key, 0 when there is none. *)
Definition recorded (revenueData : list (RevenueData Ideal.number)) (k : string) : Qc :=
  match revenueMap revenueData !! k with
  | Some r => to_Qc r
  | None => 0%Qc
  end.

(** *** What [getEmployeeRevenue] is to compute

    The aggregate of an employee in the words of the specification: the
    transactions that carry the employee's identifier, their totals added
    up in order, and the number of distinct calendar days among them. *)

Definition transaction_employeeId {N : Number} (t : Transaction N) : IdVal :=
  id_or (transaction_user_id t) (transaction_staff_id t).

Definition has_employee {N : Number} (t : Transaction N) : bool :=
  id_truthy (transaction_employeeId t).

Definition transaction_key {N : Number} (t : Transaction N) : string :=
  id_key (transaction_employeeId t).

(** The timestamp is a string. *)
Definition has_timestamp {N : Number} (t : Transaction N) : bool :=
  match js_or (transaction_date_close t) (transaction_date t) with
  | JStr _ => true
  | _ => false
  end.

(** The calendar day: the timestamp up to its first space. *)
Definition transaction_day {N : Number} (t : Transaction N) : string :=
  match js_or (transaction_date_close t) (transaction_date t) with
  | JStr s => before_space s
  | _ => ""
  end.

(** [parseFloat(transaction.total || 0)] *)
Definition coerced_total {N : Number} (t : Transaction N) : num :=
  parseFloat (js_or (transaction_total t) (JNum (num_of_Z 0))).

(** The transactions of the employee whose property key is [k]. *)
Definition transactions_of {N : Number} (k : string) (txs : list (Transaction N))
  : list (Transaction N) :=
  List.filter (fun t => has_employee t && String.eqb (transaction_key t) k) txs.

(** The totals added up from left to right; a running total that is 0 or
    NaN is taken as 0, as the guard [if (!revenueByEmployee[employeeId])]
    does. *)
Definition running_total {N : Number} (ts : list (Transaction N)) : num :=
  fold_left (fun acc t =>
               ((if num_truthy acc then acc else num_of_Z 0) + coerced_total t)%js)
            ts (num_of_Z 0).

(** The plain sum of the totals from left to right. *)
Definition sum_totals {N : Number} (ts : list (Transaction N)) : num :=
  fold_left (fun acc t => (acc + coerced_total t)%js) ts (num_of_Z 0).

Definition days_of {N : Number} (ts : list (Transaction N)) : gset string :=
  list_to_set (map transaction_day ts).

Definition entry_of {N : Number} (txs : list (Transaction N)) (k : string) : RevenueData N :=
  {| data_employeeId := parseInt k;
     data_revenue := running_total (transactions_of k txs);
     data_shiftsCount := size (days_of (transactions_of k txs)) |}.

(** The two objects of [getEmployeeRevenue] after the transactions [done]:
    they have the same keys, one for each employee seen, and hold the
    running total and the days of that employee's transactions. *)
Definition aggregated {N : Number} (done : list (Transaction N))
    (st : JsObject.t num * JsObject.t (gset string)) : Prop :=
  JsObject.own_keys (snd st) = JsObject.own_keys (fst st) /\
  NoDup (JsObject.own_keys (fst st)) /\
  (forall k, In k (JsObject.own_keys (fst st)) <->
             exists t, In t done /\ has_employee t = true /\ transaction_key t = k) /\
  (forall k, In k (JsObject.own_keys (fst st)) ->
             JsObject.get k (fst st) = Some (running_total (transactions_of k done)) /\
             JsObject.get k (snd st) = Some (days_of (transactions_of k done))).

(** The string has a space in it. *)
Fixpoint has_space (s : string) : bool :=
  match s with
  | String c s' => Ascii.eqb c " " || has_space s'
  | EmptyString => false
  end.

(** Three sales of one employee on two days; the total of the second is
    not a number. *)
Definition sales_with_text {N : Number} : list (Transaction N) :=
  [ sale (IdInt 1) "2023-02-01 10:15:00" "10";
    sale (IdInt 1) "2023-02-01 12:30:00" "abc";
    sale (IdInt 1) "2023-02-02 09:00:00" "5" ].

(** *** The order of the salaries *)

(** On the numbers that are not NaN, [<] is a strict order that [<=] and
    [===] go with, and a difference is positive exactly when its first
    operand is the greater. *)
Class OrderLaws (N : Number) : Prop := {
  sub_pos : forall a b : num,
    isNaN a = false -> isNaN b = false -> (b - a >? num_of_Z 0)%js = (a <? b)%js;
  le_of_not_lt : forall a b : num,
    isNaN a = false -> isNaN b = false -> (a <? b)%js = false -> (b <=? a)%js = true;
  le_of_lt : forall a b : num, (a <? b)%js = true -> (a <=? b)%js = true;
  le_trans : forall a b c : num,
    (a <=? b)%js = true -> (b <=? c)%js = true -> (a <=? c)%js = true;
  ne_of_lt : forall a b v : num,
    (a =? v)%js = true -> (a <? b)%js = true -> (b =? v)%js = false
}.

(** [a] may stand before [b] in a list in descending order of [key]. *)
Definition descending {N : Number} {A : Type} (key : A -> num) (a b : A) : Prop :=
  (key b <=? key a)%js = true.

(** The elements whose [key] is [v]. *)
Definition has_key {N : Number} {A : Type} (key : A -> num) (v : num) (a : A) : bool :=
  (key a =? v)%js.

(** The place of a number that is not NaN in the order of the binary64
    values: the sign first, then the exponent, then the mantissa. *)
Definition rank (x : spec_float) : Z * Z * Z :=
  match x with
  | S754_infinity true => (-2, 0, 0)
  | S754_finite true m e => (-1, - e, - Zpos m)
  | S754_zero _ | S754_nan => (0, 0, 0)
  | S754_finite false m e => (1, e, Zpos m)
  | S754_infinity false => (2, 0, 0)
  end.

(** The lexicographic order of the places. *)
Definition rank_lt (a b : Z * Z * Z) : Prop :=
  let '(a1, a2, a3) := a in
  let '(b1, b2, b3) := b in
  a1 < b1 \/ (a1 = b1 /\ (a2 < b2 \/ (a2 = b2 /\ a3 < b3))).

(** Four employees in the order A, B, C, D: A and C sold as much as each
    other, B sold more, D sold nothing. *)
Definition api_ties {N : Number} : PosterApi N :=
  {| access_getEmployees :=
       ResponseData (Some [staff 1 "A"; staff 2 "B"; staff 3 "C"; staff 4 "D"]);
     dash_getTransactions := ResponseData (Some
       [ sale (IdInt 1) "2023-02-01 10:15:00" "1000";
         sale (IdInt 2) "2023-02-01 11:30:00" "3000";
         sale (IdInt 3) "2023-02-02 09:05:00" "1000" ]);
     storage_getInventoryRevisions := ResponseData (Some []) |}.

(** *** NaN, and more inputs *)

(** NaN is absorbed by the addition and is in no order relation. *)
Class NaNLaws (N : Number) : Prop := {
  isNaN_NaN : isNaN NaN = true;
  NaN_add_l : forall x : num, (NaN + x)%js = NaN;
  NaN_add_r : forall x : num, (x + NaN)%js = NaN;
  NaN_lt_l : forall x : num, (NaN <? x)%js = false;
  NaN_lt_r : forall x : num, (x <? NaN)%js = false
}.

(** [parseFloat(revision.difference || 0)] *)
Definition coerced_difference {N : Number} (revision : Revision N) : num :=
  parseFloat (js_or (revision_difference revision) (JNum (num_of_Z 0))).

(** Two employees, and an answer to the request for the transactions
    that has no [response]. *)
Definition api_without_sales {N : Number} : PosterApi N :=
  {| access_getEmployees := ResponseData (Some [staff 1 "A"; staff 2 "B"]);
     dash_getTransactions := ResponseData None;
     storage_getInventoryRevisions := ResponseData (Some [revision_of "-100"]) |}.

(** A shortage of 100, and a revision whose difference is not a number. *)
Definition api_text_difference {N : Number} : PosterApi N :=
  {| access_getEmployees := ResponseData (Some [staff 1 "A"]);
     dash_getTransactions := ResponseData (Some
       [ sale (IdInt 1) "2023-02-01 10:15:00" "1000" ]);
     storage_getInventoryRevisions :=
       ResponseData (Some [revision_of "-100"; revision_of "n/a"]) |}.

(** February 2023 with a shift rate and a revenue percent that
    [parseFloat] could not read. *)
Definition february_without_rates {N : Number} : Params N :=
  {| params_account := Some "cafe";
     params_accessToken := Some "token";
     params_month := Some (num_of_Z 2);
     params_year := Some (num_of_Z 2023);
     params_inventoryMonth := Some (num_of_Z 2);
     params_inventoryYear := Some (num_of_Z 2023);
     params_shiftRate := Some NaN;
     params_revenuePercent := Some NaN |}.

(** *** The table of the months *)

(** The name of the month [z] in the table, for [z] from 1 to 12. *)
Definition month_name (z : Z) : string := nth (Z.to_nat (z - 1)) months "".

(** *** The calculation for one employee *)

(** [a === b] on identifiers: the same type and the same value. *)
Definition id_same (a b : IdVal) : bool :=
  match a, b with
  | IdMissing, IdMissing => true
  | IdInt x, IdInt y => (x =? y)%Z
  | IdStr s, IdStr s' => String.eqb s s'
  | _, _ => false
  end.

Section EmployeeStats.
Context {N : Number}.
Local Open Scope js_scope.

(** What [getEmployeeStats] returns. *)
Record EmployeeStats := {
  stats_employeeId : IdVal;
  stats_revenue : num;
  stats_shiftsCount : nat;
  stats_transactionsCount : nat
}.

(** [t.user_id === employeeId || t.staff_id === employeeId] *)
Definition is_of (employeeId : IdVal) (t : Transaction N) : bool :=
  id_same (transaction_user_id t) employeeId || id_same (transaction_staff_id t) employeeId.

(** [(t.date_close || t.date).split(' ')[0]] *)
Definition transaction_dateOnly (t : Transaction N) : Outcome string :=
  dateOnly (js_or (transaction_date_close t) (transaction_date t)).

(** [getEmployeeStats] on the transactions the API returned. *)
Definition employeeStats (employeeId : IdVal) (transactions : list (Transaction N))
  : Outcome EmployeeStats :=
  let employeeTransactions := List.filter (is_of employeeId) transactions in
  let revenue :=
    fold_left
      (fun sum t => sum + parseFloat (js_or (transaction_total t) (JNum (num_of_Z 0))))
      employeeTransactions (num_of_Z 0) in
  dates ← mapM transaction_dateOnly employeeTransactions;
  let uniqueDates : gset string := list_to_set dates in
  Returns {| stats_employeeId := employeeId;
             stats_revenue := revenue;
             stats_shiftsCount := size uniqueDates;
             stats_transactionsCount := length employeeTransactions |}.

Definition getEmployeeStats (api : PosterApi N) (employeeId : IdVal)
  : Outcome EmployeeStats :=
  transactions ← getTransactions api;
  employeeStats employeeId transactions.

(** What [calculateEmployeeSalary] returns. *)
Record EmployeeSalary := {
  salary_employeeId : IdVal;
  salary_shiftsCount : nat;
  salary_revenue : num;
  salary_baseSalary : num;
  salary_revenueBonus : num;
  salary_totalSalary : num
}.

(** [calculateEmployeeSalary(params)] for the employee [params.employeeId]:
    no deduction, no rounding, and the errors are not wrapped. *)
Definition calculateEmployeeSalary (api : PosterApi N) (employeeId : IdVal)
    (params : Params N) : Outcome EmployeeSalary :=
  stats ← getEmployeeStats api employeeId;
  let baseSalary := num_of_Z (Z.of_nat (stats_shiftsCount stats)) * shiftRate params in
  let revenueBonus := stats_revenue stats * (revenuePercent params / num_of_Z 100) in
  let totalSalary := baseSalary + revenueBonus in
  Returns {| salary_employeeId := employeeId;
             salary_shiftsCount := stats_shiftsCount stats;
             salary_revenue := stats_revenue stats;
             salary_baseSalary := baseSalary;
             salary_revenueBonus := revenueBonus;
             salary_totalSalary := totalSalary |}.

End EmployeeStats.

Arguments EmployeeStats N : clear implicits.
Arguments EmployeeSalary N : clear implicits.

(** Every transaction names its employee by a numeric [user_id] and has
    no [staff_id]. *)
Definition by_user_id {N : Number} (t : Transaction N) : bool :=
  match transaction_user_id t, transaction_staff_id t with
  | (IdMissing | IdInt _), IdMissing => true
  | _, _ => false
  end.

(** *** salaryController.js: saving a report *)

Section SaveReport.
Context {N : Number}.

(** The statements [saveSalaryReport] sends to the database, each with
    the parameters it binds. *)
Inductive Statement :=
| BEGIN
| InsertInventoryResult (location_id : IdVal) (month year : option num) (loss_amount : num)
| SelectEmployee (poster_id location_id : IdVal)
| InsertEmployee (poster_id location_id : IdVal) (name : string)
| InsertSalaryReport (location_id : IdVal) (employee_id : Z)
    (period_month period_year : option num) (shifts_count : nat) (shift_rate : option num)
    (revenue : num) (revenue_percent : option num) (inventory_loss total_salary : num)
| COMMIT
| ROLLBACK.

(** What is done with the client of the pool, in order. *)
Inductive Event :=
| Query (statement : Statement)
| Release.

(** The answer to a query: it is rejected, or it returns rows, of which
    the [id] column is read. *)
Inductive Answer :=
| Rejected
| Rows (ids : list Z).

(** The database: whether the pool hands out a client, and the answer to
    a statement after the events so far. *)
Record Database := {
  connects : bool;
  answer : list Event -> Statement -> Answer
}.

Inductive SaveError :=
| ConnectError                      (* [db.pool.connect()] threw *)
| QueryError (statement : Statement) (* [client.query] threw *)
| NoRowError.                       (* [rows[0].id] of no row: a TypeError *)

Inductive Attempt (A : Type) :=
| Done (a : A)
| Failed (e : SaveError).
Arguments Done {A} a.
Arguments Failed {A} e.

(** A computation on the client: it extends the events and returns or
    throws. *)
Definition Client (A : Type) : Type := list Event -> list Event * Attempt A.

#[global] Instance Client_ret : MRet Client := fun A a events => (events, Done a).
#[global] Instance Client_bind : MBind Client := fun A B k m events =>
  match m events with
  | (events', Done a) => k a events'
  | (events', Failed e) => (events', Failed e)
  end.

Variable db : Database.

(** [await client.query(statement, parameters)] *)
Definition client_query (statement : Statement) : Client (list Z) := fun events =>
  (events ++ [Query statement],
   match answer db events statement with
   | Rejected => Failed (QueryError statement)
   | Rows ids => Done ids
   end)%list.

(** [rows[0].id] *)
Definition first_id (rows : list Z) : Client Z := fun events =>
  match rows with
  | id :: _ => (events, Done id)
  | [] => (events, Failed NoRowError)
  end.

Variable locationId : IdVal.
Variable salaryData : Report N.

(** The body of [for (const emp of salaryData.employees)]. *)
Definition save_employee (emp : SalaryLine N) : Client unit :=
  employeeResult ← client_query (SelectEmployee (emp_employeeId emp) locationId);
  dbEmployeeId ←
    match employeeResult with
    | [] =>
        newEmp ← client_query
                   (InsertEmployee (emp_employeeId emp) locationId (emp_employeeName emp));
        first_id newEmp
    | _ :: _ => first_id employeeResult
    end;
  _ ← client_query
        (InsertSalaryReport locationId dbEmployeeId
           (period_month (report_period salaryData))
           (period_year (report_period salaryData))
           (emp_shiftsCount emp)
           (parameters_shiftRate (report_parameters salaryData))
           (emp_revenue emp)
           (parameters_revenuePercent (report_parameters salaryData))
           (emp_inventoryDeduction emp)
           (emp_totalSalary emp));
  mret tt.

Fixpoint save_employees (employees : list (SalaryLine N)) : Client unit :=
  match employees with
  | [] => mret tt
  | emp :: rest => _ ← save_employee emp; save_employees rest
  end.

(** The [try] block. *)
Definition save_transaction : Client unit :=
  _ ← client_query BEGIN;
  _ ← client_query
        (InsertInventoryResult locationId
           (inventory_month (report_inventory salaryData))
           (inventory_year (report_inventory salaryData))
           (inventory_totalLoss (report_inventory salaryData)));
  _ ← save_employees (report_employees salaryData);
  _ ← client_query COMMIT;
  mret tt.

(** [saveSalaryReport(locationId, salaryData)]: the events on the client
    and the outcome.  [catch] rolls back and throws the error again (the
    error of the rollback, should that throw); [finally] releases the
    client. *)
Definition saveSalaryReport : list Event * Attempt unit :=
  if connects db then
    match save_transaction [] with
    | (events, Done _) => (events ++ [Release], Done tt)
    | (events, Failed error) =>
        match client_query ROLLBACK events with
        | (events', Done _) => (events' ++ [Release], Failed error)
        | (events', Failed error') => (events' ++ [Release], Failed error')
        end
    end%list
  else ([], Failed ConnectError).

End SaveReport.

Arguments Statement N : clear implicits.
Arguments Event N : clear implicits.
Arguments Database N : clear implicits.
Arguments SaveError N : clear implicits.
Arguments Attempt N A : clear implicits.
Arguments Done {N A} a.
Arguments Failed {N A} e.

(** The statements among the events. *)
Definition statements {N : Number} (events : list (Event N)) : list (Statement N) :=
  omap (fun event => match event with Query s => Some s | Release => None end) events.

(** The lines written to [salary_reports]: shifts, revenue, deduction and
    total of each. *)
Definition saved_lines {N : Number} (events : list (Event N)) : list (nat * num * num * num) :=
  omap (fun s => match s with
                 | InsertSalaryReport _ _ _ _ shifts _ revenue _ loss total =>
                     Some (shifts, revenue, loss, total)
                 | _ => None
                 end) (statements events).

(** The statements of the loop over the employees. *)
Definition is_employee_statement {N : Number} (s : Statement N) : bool :=
  match s with
  | SelectEmployee _ _ | InsertEmployee _ _ _
  | InsertSalaryReport _ _ _ _ _ _ _ _ _ _ => true
  | _ => false
  end.

(** The fields of a line that [saved_lines] shows. *)
Definition line_fields {N : Number} (emp : SalaryLine N) : nat * num * num * num :=
  (emp_shiftsCount emp, emp_revenue emp, emp_inventoryDeduction emp, emp_totalSalary emp).

Definition lines_of {N : Number} (qs : list (Statement N)) : list (nat * num * num * num) :=
  saved_lines (map Query qs).

(** What a computation on the client does to the events: it appends the
    statements [qs]. *)
Definition appends {N : Number} {A} (m : Client A) (events : list (Event N))
    (qs : list (Statement N)) (r : Attempt N A) : Prop :=
  m events = ((events ++ map Query qs)%list, r).

(** A database that accepts every statement and knows no employee. *)
Definition empty_database {N : Number} : Database N :=
  {| connects := true;
     answer := fun events statement =>
       match statement with
       | InsertEmployee _ _ _ => Rows [Z.of_nat (length events)]
       | _ => Rows []
       end |}.

(** A database that rejects the statements to [salary_reports]. *)
Definition failing_database {N : Number} : Database N :=
  {| connects := true;
     answer := fun events statement =>
       match statement with
       | InsertEmployee _ _ _ => Rows [Z.of_nat (length events)]
       | InsertSalaryReport _ _ _ _ _ _ _ _ _ _ => Rejected
       | _ => Rows []
       end |}.

(** *** Whole cents *)

(** A whole number of cents. *)
Definition whole_cents (q : Qc) : Prop := exists k : Z, q = Q2Qc (k # 100).

(** The four salary fields of a line are finite numbers. *)
Definition finite_line (line : SalaryLine Ideal.number) : Prop :=
  (exists q, emp_baseSalary line = fin q) /\
  (exists q, emp_revenueBonus line = fin q) /\
  (exists q, emp_inventoryDeduction line = fin q) /\
  (exists q, emp_totalSalary line = fin q).

(** [lines.reduce((sum, e) => sum + e.field, 0)] *)
Definition reduce_sum {N : Number} (field : SalaryLine N -> num) (lines : list (SalaryLine N))
  : num :=
  fold_left (fun sum e => (sum + field e)%js) lines (num_of_Z 0).

(** *** The CSV export *)

(** The line feed. *)
Definition line_feed : ascii := "010"%char.

(** A string of [n] zeros. *)
Fixpoint zeros (n : nat) : string :=
  match n with
  | O => ""
  | S n' => String "0" (zeros n')
  end.

(** The digits of [n / 100] with two decimals, as [toFixed(2)] writes
    them: the decimal digits of [n], filled with zeros on the left to
    three digits, with a point before the last two. *)
Definition fixed2 (n : N) : string :=
  let m := Z_toString (Z.of_N n) in
  let k := String.length m in
  let m := if (k <=? 2)%nat then zeros (3 - k)%nat ++ m else m in
  let k := String.length m in
  substring 0 (k - 2)%nat m ++ "." ++ substring (k - 2)%nat 2 m.

(** The exponential notation of [Number::toString] for the digits [s] and
    the exponent [n]. *)
Definition exponential (s : N) (n : Z) : string :=
  let d := Z_toString (Z.of_N s) in
  let e := n - 1 in
  let exponent := (if (e <? 0)%Z then "e-" else "e+") ++ Z_toString (Z.abs e) in
  if (String.length d =? 1)%nat then d ++ exponent
  else substring 0 1 d ++ "." ++ substring 1 (String.length d - 1)%nat d ++ exponent.

Section GenerateCSV.

(** The digits [s] and the exponent [n] that [Number::toString] chooses
    for a number from 10^21 on: the shortest digits that read back as the
    number, of which the last is left to the engine. *)
Variable shortest_digits : float -> N * Z.

(** [x.toFixed(2)] on binary64. *)
Definition toFixed2 (x : float) : string :=
  match Prim2SF x with
  | S754_nan => "NaN"
  | S754_infinity s => if s then "-Infinity" else "Infinity"
  | S754_zero _ => fixed2 0
  | S754_finite s m e =>
      let sign := if s then "-" else "" in
      if ((0 <=? e) && (10 ^ 21 <=? Zpos m * 2 ^ e))%Z then
        let '(digits, n) := shortest_digits (PrimFloat.abs x) in
        sign ++ exponential digits n
      else
        let n := (if 0 <=? e then Zpos m * 2 ^ e * 100
                  else (Zpos m * 200 + 2 ^ (- e)) / 2 ^ (- e + 1))%Z in
        sign ++ fixed2 (Z.to_N n)
  end.

Definition headers : list string :=
  [ "Співробітник";
    "Кількість змін";
    "Виручка (грн)";
    "Базова ЗП (грн)";
    "Відсоток від виручки (грн)";
    "Вирахування за інвентаризацію (грн)";
    "ВСЬОГО (грн)" ].

(** The callback of [salaryData.employees.map]. *)
Definition csv_row (emp : SalaryLine Float64.number) : list string :=
  [ emp_employeeName emp;
    Z_toString (Z.of_nat (emp_shiftsCount emp));
    toFixed2 (emp_revenue emp);
    toFixed2 (emp_baseSalary emp);
    toFixed2 (emp_revenueBonus emp);
    toFixed2 (emp_inventoryDeduction emp);
    toFixed2 (emp_totalSalary emp) ].

(** [generateCSV(salaryData)] *)
Definition generateCSV (salaryData : Report Float64.number) : string :=
  String.concat (String line_feed "")
    (String.concat "," headers
     :: map (fun row => String.concat "," row) (map csv_row (report_employees salaryData))).

End GenerateCSV.

(** How often the character [c] occurs in [s]. *)
Fixpoint count_char (c : ascii) (s : string) : nat :=
  match s with
  | EmptyString => 0
  | String c' s' => (if Ascii.eqb c c' then 1 else 0) + count_char c s'
  end.

(** The string has no comma and no line feed. *)
Definition plain (s : string) : Prop :=
  count_char "," s = 0%nat /\ count_char line_feed s = 0%nat.

(** *** Answers without a response *)

(** An answer without [response] read as the answer with no record. *)
Definition with_response {A} (r : ApiResponse A) : ApiResponse A :=
  match r with
  | RequestFailed => RequestFailed
  | ResponseData None => ResponseData (Some [])
  | ResponseData (Some l) => ResponseData (Some l)
  end.

Definition with_responses {N : Number} (api : PosterApi N) : PosterApi N :=
  {| access_getEmployees := with_response (access_getEmployees api);
     dash_getTransactions := with_response (dash_getTransactions api);
     storage_getInventoryRevisions := with_response (storage_getInventoryRevisions api) |}.

(** *** salaryController.js: the calculation request *)

Section Controller.
Context {N : Number}.
Local Open Scope js_scope.

(** A property of the request body: absent, or a JSON value.  An array or
    an object is given by the string it converts to. *)
Inductive BodyVal :=
| BodyMissing
| BodyNull
| BodyBool (b : bool)
| BodyNum (n : num)
| BodyStr (s : string)
| BodyObject (toString : string).

(** The string of a Number, [Number::toString], whose digits the engine
    chooses. *)
Variable Number_toString : num -> string.

Definition body_truthy (v : BodyVal) : bool :=
  match v with
  | BodyMissing | BodyNull => false
  | BodyBool b => b
  | BodyNum n => num_truthy n
  | BodyStr s => negb (String.eqb s "")
  | BodyObject _ => true
  end.

Definition body_or (a b : BodyVal) : BodyVal := if body_truthy a then a else b.

Definition body_toString (v : BodyVal) : string :=
  match v with
  | BodyMissing => "undefined"
  | BodyNull => "null"
  | BodyBool b => if b then "true" else "false"
  | BodyNum n => Number_toString n
  | BodyStr s => s
  | BodyObject s => s
  end.

(** [parseInt(v)] as a Number *)
Definition body_parseInt (v : BodyVal) : num :=
  match parseInt (body_toString v) with
  | Some z => num_of_Z z
  | None => NaN
  end.

(** [parseFloat(v)] *)
Definition body_parseFloat (v : BodyVal) : num := parseFloat_string (body_toString v).

(** [req.body] of [POST /api/salary/calculate]. *)
Record Body := {
  body_locationId : IdVal;
  body_month : BodyVal;
  body_year : BodyVal;
  body_inventoryMonth : BodyVal;
  body_inventoryYear : BodyVal;
  body_shiftRate : BodyVal;
  body_revenuePercent : BodyVal
}.

(** The answer to the query for the location: it is rejected, or it
    returns rows with the account and the token. *)
Inductive Locations :=
| LocationsRejected
| LocationRows (rows : list (option string * option string)).

(** What the handler has to work with: the rows of the location, the
    Poster API of its account with the answer to
    [settings.getAllSettings], and the database of [saveSalaryReport]. *)
Record Backend := {
  backend_locations : Locations;
  backend_settings : ApiResponse unit;
  backend_api : PosterApi N;
  backend_database : Database N
}.

(** Why the handler answers 500. *)
Inductive Failure :=
| LocationsFailure
| CalculationFailure (error : JsError)
| SaveFailure (error : SaveError N).

(** The answers of the handler: the status and what decides the body. *)
Inductive Response :=
| MissingParameters                    (* 400 *)
| LocationNotFound                     (* 404 *)
| InvalidToken                         (* 401 *)
| InvalidParameters (errors : list string)  (* 400 *)
| InternalError (cause : Failure)      (* 500 *)
| Result (result : Report N).          (* 200 *)

(** [posterService.validateToken]: whether the request succeeds. *)
Definition validateToken (settings : ApiResponse unit) : bool :=
  match makeRequest "settings.getAllSettings" settings with
  | Returns _ => true
  | Throws _ => false
  end.

Definition calculationParams (body : Body) (poster_account poster_access_token : option string)
  : Params N :=
  {| params_account := poster_account;
     params_accessToken := poster_access_token;
     params_month := Some (body_parseInt (body_month body));
     params_year := Some (body_parseInt (body_year body));
     params_inventoryMonth :=
       Some (body_parseInt (body_or (body_inventoryMonth body) (body_month body)));
     params_inventoryYear :=
       Some (body_parseInt (body_or (body_inventoryYear body) (body_year body)));
     params_shiftRate := Some (body_parseFloat (body_shiftRate body));
     params_revenuePercent := Some (body_parseFloat (body_revenuePercent body)) |}.

(** [calculateSalary(req, res)]: the answer, and the events on the client
    of the database. *)
Definition calculateSalary (backend : Backend) (body : Body)
  : Response * list (Event N) :=
  if negb (id_truthy (body_locationId body))
     || negb (body_truthy (body_month body))
     || negb (body_truthy (body_year body))
     || match body_shiftRate body with BodyMissing => true | _ => false end
     || match body_revenuePercent body with BodyMissing => true | _ => false end
  then (MissingParameters, [])
  else
    match backend_locations backend with
    | LocationsRejected => (InternalError LocationsFailure, [])
    | LocationRows [] => (LocationNotFound, [])
    | LocationRows ((poster_account, poster_access_token) :: _) =>
        if negb (validateToken (backend_settings backend)) then (InvalidToken, [])
        else
          let params := calculationParams body poster_account poster_access_token in
          let validation := validateCalculationParams params in
          if negb (isValid validation) then (InvalidParameters (errors validation), [])
          else
            match calculateSalaries (backend_api backend) params with
            | Throws error => (InternalError (CalculationFailure error), [])
            | Returns result =>
                match saveSalaryReport (backend_database backend)
                                       (body_locationId body) result with
                | (events, Failed error) => (InternalError (SaveFailure error), events)
                | (events, Done _) => (Result result, events)
                end
            end
    end.

End Controller.

Arguments BodyVal N : clear implicits.
Arguments Body N : clear implicits.
Arguments Backend N : clear implicits.
Arguments Failure N : clear implicits.
Arguments Response N : clear implicits.

(** The request for February 2023 of location 1, sent as strings. *)
Definition february_request {N : Number} : Body N :=
  {| body_locationId := IdInt 1;
     body_month := BodyStr "2";
     body_year := BodyStr "2023";
     body_inventoryMonth := BodyMissing;
     body_inventoryYear := BodyMissing;
     body_shiftRate := BodyStr "500";
     body_revenuePercent := BodyStr "5" |}.

(** The location is found, the token is accepted. *)
Definition backend_of {N : Number} (api : PosterApi N) (db : Database N) : Backend N :=
  {| backend_locations := LocationRows [(Some "cafe", Some "token")];
     backend_settings := ResponseData None;
     backend_api := api;
     backend_database := db |}.

(** ** 7. The two number instances obey the laws *)

(** The value a call returns, by evaluation. *)
Ltac returned m :=
  let t := eval vm_compute in m in
  match t with Returns ?r => exact r end.

(** The first element of the list a call returns, by evaluation. *)
Ltac first_returned m :=
  let t := eval vm_compute in m in
  match t with Returns (?x :: _) => exact x end.

(** The rational a finite exact number is, by evaluation. *)
Ltac rational x :=
  let t := eval vm_compute in x in
  match t with Ideal.IFin ?q => exact q end.


Lemma Float64_zero : Float64.of_Z 0 = 0%float.
Proof. reflexivity. Qed.

#[global] Instance Float64_laws : NumberLaws Float64.number.
Proof.
  split; cbn; rewrite ?Float64_zero.
  - intros x H. rewrite leb_spec in H. rewrite ltb_spec.
    change (Prim2SF zero) with (S754_zero false) in *.
    destruct (Prim2SF x) as [s|s| |s m e]; cbn in *; try discriminate; try reflexivity;
      destruct s; cbn in *; congruence.
  - intros x H. rewrite FloatAxioms.eqb_spec in H. rewrite ltb_spec.
    change (Prim2SF zero) with (S754_zero false) in *.
    destruct (Prim2SF x) as [s|s| |s m e]; cbn in *; try discriminate; try reflexivity;
      destruct s; cbn in *; congruence.
  - reflexivity.
  - reflexivity.
Qed.

Lemma Qc_ltb_lt (p q : Qc) : Ideal.Qc_ltb p q = true <-> (p < q)%Qc.
Proof.
  unfold Ideal.Qc_ltb. rewrite negb_true_iff, <- not_true_iff_false, Qle_bool_iff.
  split; [apply Qnot_le_lt | apply Qlt_not_le].
Qed.

Lemma Qc_leb_le (p q : Qc) : Ideal.Qc_leb p q = true <-> (p <= q)%Qc.
Proof. unfold Ideal.Qc_leb. apply Qle_bool_iff. Qed.

Lemma Qc_eqb_eq (p q : Qc) : Ideal.Qc_eqb p q = true <-> p = q.
Proof.
  unfold Ideal.Qc_eqb. rewrite Qeq_bool_iff. split.
  - apply Qc_is_canon.
  - intros ->. reflexivity.
Qed.

Lemma Ideal_zero : Ideal.of_Z 0 = Ideal.IFin 0%Qc.
Proof. reflexivity. Qed.

#[global] Instance Ideal_laws : NumberLaws Ideal.number.
Proof.
  split; cbn.
  - intros [|s|q]; cbn; try discriminate.
    + destruct s; cbn; congruence.
    + intros H. apply Qc_leb_le in H. apply not_true_iff_false.
      rewrite Qc_ltb_lt. intros H'. exact (Qclt_not_le _ _ H' H).
  - intros [|s|q]; cbn; try discriminate.
    intros H. apply Qc_eqb_eq in H. subst q. reflexivity.
  - reflexivity.
  - apply (f_equal Ideal.IFin). apply Qc_is_canon. reflexivity.
Qed.

(** ** 8. The sort and the report *)

Section SortFacts.
Context {N : Number} {A : Type}.
Variable comparefn : A -> A -> num.

Lemma sort_insert_Permutation (x : A) (l : list A) :
  Permutation (sort_insert comparefn x l) (x :: l).
Proof.
  induction l as [|y l IH]; simpl; [reflexivity|].
  destruct (goes_after comparefn x y); [|reflexivity].
  rewrite IH. apply perm_swap.
Qed.

Lemma Array_sort_Permutation (l : list A) :
  Permutation (Array_sort comparefn l) l.
Proof.
  induction l as [|x l IH]; simpl; [reflexivity|].
  rewrite sort_insert_Permutation. now apply perm_skip.
Qed.

Lemma Array_sort_In (x : A) (l : list A) :
  In x (Array_sort comparefn l) <-> In x l.
Proof.
  split; apply Permutation_in;
    [apply Array_sort_Permutation | symmetry; apply Array_sort_Permutation].
Qed.

End SortFacts.

Section ReportFacts.
Context {N : Number}.

Lemma calculateSalaries_Returns (api : PosterApi N) (params : Params N) (r : Report N) :
  calculateSalaries api params = Returns r <->
  exists employees revenueData,
    getEmployees api = Returns employees /\
    getEmployeeRevenue api = Returns revenueData /\
    r = report params employees revenueData
          (getInventoryResults api (params_inventoryMonth params)
                                   (params_inventoryYear params)).
Proof.
  unfold calculateSalaries, rethrow.
  destruct (getEmployees api) as [employees|e]; cbn.
  - destruct (getEmployeeRevenue api) as [revenueData|e]; cbn.
    + split.
      * intros [= <-]. eauto.
      * intros (? & ? & [= <-] & [= <-] & ->). reflexivity.
    + split; [discriminate|]. intros (? & ? & _ & [=] & _).
  - split; [discriminate|]. intros (? & ? & [=] & _).
Qed.

Lemma workingEmployees_In params employees revenueData inventoryResults
    (line : SalaryLine N) :
  In line (workingEmployees params employees revenueData inventoryResults) <->
  exists employee,
    In employee employees /\
    line = salaryLine params revenueData inventoryResults employee /\
    (0 < shiftsCount revenueData employee)%nat.
Proof.
  unfold workingEmployees, salaryResults.
  rewrite filter_In, in_map_iff. split.
  - intros [(employee & <- & Hin) Hpos]. exists employee.
    repeat split; trivial. now apply Nat.ltb_lt in Hpos.
  - intros (employee & Hin & -> & Hpos). split; [eauto|].
    now apply Nat.ltb_lt.
Qed.

Lemma report_employees_In params employees revenueData inventoryResults
    (line : SalaryLine N) :
  In line (report_employees (report params employees revenueData inventoryResults)) <->
  exists employee,
    In employee employees /\
    line = salaryLine params revenueData inventoryResults employee /\
    (0 < shiftsCount revenueData employee)%nat.
Proof. cbn. rewrite Array_sort_In. apply workingEmployees_In. Qed.

(** Two identifiers that are equal are the same property key. *)
Lemma shiftsCount_employeeId revenueData (e e' : Employee) :
  employeeId e = employeeId e' ->
  shiftsCount revenueData e = shiftsCount revenueData e'.
Proof. unfold shiftsCount. now intros ->. Qed.

(** C5: every line of the report that [calculateSalaries] returns has
    [shiftsCount > 0], and an employee whose [shiftsCount] is 0 has no line
    in it, whatever the revenue recorded for that employee. *)
Theorem calculateSalaries_only_working_employees
    (api : PosterApi N) (params : Params N) (r : Report N) :
  calculateSalaries api params = Returns r ->
  (forall line, In line (report_employees r) -> (0 < emp_shiftsCount line)%nat) /\
  (forall employees revenueData employee,
     getEmployees api = Returns employees ->
     getEmployeeRevenue api = Returns revenueData ->
     In employee employees ->
     shiftsCount revenueData employee = 0%nat ->
     forall line, In line (report_employees r) ->
                  emp_employeeId line <> employeeId employee).
Proof.
  intros Hr. apply calculateSalaries_Returns in Hr.
  destruct Hr as (employees & revenueData & Hemp & Hrev & ->). split.
  - intros line Hline. apply report_employees_In in Hline.
    destruct Hline as (e & _ & -> & Hpos). exact Hpos.
  - intros employees' revenueData' employee Hemp' Hrev' _ Hzero line Hline Heq.
    rewrite Hemp in Hemp'. rewrite Hrev in Hrev'.
    injection Hemp' as <-. injection Hrev' as <-.
    apply report_employees_In in Hline. destruct Hline as (e & _ & -> & Hpos).
    cbn in Heq. rewrite (shiftsCount_employeeId _ _ _ Heq), Hzero in Hpos. lia.
Qed.


Lemma validateCalculationParams_errors (params : Params N) :
  errors (validateCalculationParams params)
  = violations (rules params).
Proof.
  unfold validateCalculationParams, rules, push_if. unfold violations; cbn [flat_map fst snd errors].
  repeat match goal with |- context [if ?c then _ else _] => destruct c end;
    reflexivity.
Qed.

Lemma validateCalculationParams_isValid (params : Params N) :
  isValid (validateCalculationParams params)
  = no_violation (rules params).
Proof.
  unfold validateCalculationParams, rules, push_if. unfold no_violation; cbn [forallb fst snd isValid].
  repeat match goal with |- context [if ?c then _ else _] => destruct c end;
    reflexivity.
Qed.

End ReportFacts.

(** C7: [validateCalculationParams] reports every violated rule: the
    errors are the messages of all the rules that fail, in the order of the
    rules, and the parameters are valid exactly when none fails.  With the
    account and the token present, month 13, year 1999, shift rate -1 and
    revenue percent 150 give four different messages. *)
Theorem validateCalculationParams_collects_every_violation :
  (forall (N : Number) (params : Params N),
     let v := validateCalculationParams params in
     errors v = violations (rules params) /\
     (forall violated message,
        In (violated, message) (rules params) ->
        (In message (errors v) <-> violated = true)) /\
     isValid v = no_violation (rules params)) /\
  validateCalculationParams (N := Float64.number) four_violations
  = {| isValid := false;
       errors := [ "Invalid month (must be 1-12)"; "Invalid year";
                   "Invalid shift rate"; "Invalid revenue percent (must be 0-100)" ] |} /\
  NoDup (errors (validateCalculationParams (N := Float64.number) four_violations)).
Proof.
  split; [|split].
  - intros N params v. subst v. split; [|split].
    + apply validateCalculationParams_errors.
    + intros violated message Hrule.
      rewrite validateCalculationParams_errors.
      unfold rules, violations in *. cbn [flat_map fst snd] in *.
      repeat match goal with
             | H : In _ (_ :: _) |- _ => destruct H as [H|H]; [injection H as <- <-|]
             | H : In _ [] |- _ => destruct H
             end;
        repeat match goal with |- context [if ?c then _ else _] => destruct c end;
        cbn; split; intros; try reflexivity; try discriminate;
        repeat match goal with
               | H : _ \/ _ |- _ => destruct H
               | H : _ = _ :> string |- _ => discriminate H
               | H : False |- _ => destruct H
               end; auto 10.
    + apply validateCalculationParams_isValid.
  - reflexivity.
  - apply (bool_decide_unpack _). vm_compute. exact I.
Qed.

(** ** 9. The inventory fallback *)

Section InventoryFallback.
Context {N : Number} {L : NumberLaws N}.

Lemma getInventoryResults_failed (api : PosterApi N) (month year : option num) :
  storage_getInventoryRevisions api = RequestFailed ->
  getInventoryResults api month year
  = getInventoryResults (with_inventory api (ResponseData (Some []))) month year.
Proof. unfold getInventoryResults. cbn. now intros ->. Qed.

Lemma inventoryDeduction_zero_loss revenueData (inventoryResults : InventoryResults N) employee :
  results_totalLoss inventoryResults = num_of_Z 0 ->
  inventoryDeduction revenueData inventoryResults employee = num_of_Z 0.
Proof. unfold inventoryDeduction. intros ->. now rewrite zero_lt_zero. Qed.

(** C8: a failed inventory request is not propagated.  [getInventoryResults]
    answers with [totalLoss = 0] and [revisionsCount = 0]; the calculation
    returns whenever the two other requests succeed, with the very report
    an inventory without revisions gives, and no line carries a deduction. *)
Theorem inventory_failure_is_zero_loss (api : PosterApi N) (params : Params N) :
  storage_getInventoryRevisions api = RequestFailed ->
  let results :=
    getInventoryResults api (params_inventoryMonth params) (params_inventoryYear params) in
  (results_totalLoss results = num_of_Z 0 /\ results_revisionsCount results = 0%nat) /\
  calculateSalaries api params
  = calculateSalaries (with_inventory api (ResponseData (Some []))) params /\
  (forall employees revenueData,
     getEmployees api = Returns employees ->
     getEmployeeRevenue api = Returns revenueData ->
     exists r,
       calculateSalaries api params = Returns r /\
       inventory_totalLoss (report_inventory r) = num_of_Z 0 /\
       inventory_revisionsCount (report_inventory r) = 0%nat /\
       forall line, In line (report_employees r) ->
                    emp_inventoryDeduction line = num_of_Z 0).
Proof.
  intros Hfail results. split; [|split].
  - subst results. unfold getInventoryResults. rewrite Hfail. now cbn.
  - unfold calculateSalaries.
    now rewrite (getInventoryResults_failed api _ _ Hfail).
  - intros employees revenueData Hemp Hrev.
    exists (report params employees revenueData results). split; [|split; [|split]].
    + apply calculateSalaries_Returns. eauto.
    + subst results. unfold getInventoryResults. rewrite Hfail. cbn.
      apply round2_zero.
    + subst results. unfold getInventoryResults. rewrite Hfail. reflexivity.
    + intros line Hline. apply report_employees_In in Hline.
      destruct Hline as (e & _ & -> & _). cbn.
      rewrite inventoryDeduction_zero_loss; [apply round2_zero|].
      subst results. unfold getInventoryResults. now rewrite Hfail.
Qed.

End InventoryFallback.

(** The fallback on the two employees of [api_without_inventory]. *)
Lemma inventory_failure_is_zero_loss_witness :
  storage_getInventoryRevisions (N := Float64.number) api_without_inventory = RequestFailed /\
  calculateSalaries (N := Float64.number) api_without_inventory (february 500 5)
  = calculateSalaries (N := Float64.number) (with_inventory api_without_inventory (ResponseData (Some [])))
                      (february 500 5).
Proof.
  split; [reflexivity|].
  exact (proj1 (proj2 (inventory_failure_is_zero_loss (N := Float64.number)
                         api_without_inventory (february 500 5) eq_refl))).
Defined.

(** Only the employee who worked is in the report of [api_without_inventory]. *)
Lemma calculateSalaries_only_working_employees_witness :
  exists r,
    calculateSalaries (N := Float64.number) api_without_inventory (february 500 5) = Returns r /\
    forall line, In line (report_employees r) -> (0 < emp_shiftsCount line)%nat.
Proof.
  exists ltac:(returned (calculateSalaries (N := Float64.number) api_without_inventory (february 500 5))).
  split; [reflexivity|].
  apply (calculateSalaries_only_working_employees (N := Float64.number)
           api_without_inventory (february 500 5)).
  reflexivity.
Defined.

(** ** 10. The deduction and the rounding *)

Section Deduction.
Context {N : Number} {L : NumberLaws N}.
Local Open Scope js_scope.

Lemma inventoryDeduction_none revenueData (inventoryResults : InventoryResults N) employee :
  (results_totalLoss inventoryResults >=? num_of_Z 0) = true \/
  (totalRevenue revenueData =? num_of_Z 0) = true ->
  inventoryDeduction revenueData inventoryResults employee = num_of_Z 0.
Proof.
  unfold inventoryDeduction. intros [H|H].
  - now rewrite (lt_zero_ge _ H).
  - now rewrite (gt_zero_eq _ H), andb_false_r.
Qed.

Lemma inventoryDeduction_share revenueData (inventoryResults : InventoryResults N) employee :
  (results_totalLoss inventoryResults <? num_of_Z 0) = true ->
  (totalRevenue revenueData >? num_of_Z 0) = true ->
  inventoryDeduction revenueData inventoryResults employee
  = Math_abs (results_totalLoss inventoryResults)
    * (revenue revenueData employee / totalRevenue revenueData).
Proof. unfold inventoryDeduction. now intros -> ->. Qed.

End Deduction.


(** C2, as stated, fails: one shift at 100, a sale of 100.4 at 1 percent
    and a shortage of 0.006 give the line 100 + 1 - 0.01 with the total
    101, and 100 + 1 - 0.01 is 100.99. *)
Lemma totalSalary_is_not_the_sum_of_the_rounded_parts :
  exists r line,
    calculateSalaries (N := Float64.number) api_cents (february 100 1) = Returns r /\
    In line (report_employees r) /\
    (emp_totalSalary line
     =? emp_baseSalary line + emp_revenueBonus line - emp_inventoryDeduction line)%js
    = false.
Proof.
  exists ltac:(returned (calculateSalaries (N := Float64.number) api_cents (february 100 1))).
  eexists. split; [reflexivity|].
  split; [left; reflexivity|]. vm_compute. reflexivity.
Qed.


(** *** Rounding in exact arithmetic *)

Lemma Q2Qc_this (q : Q) : (Q2Qc q == q)%Q.
Proof. apply Qred_correct. Qed.

Lemma exact_eq (p q : Q) : (p == q)%Q -> exact p = exact q.
Proof.
  intros H. unfold exact. f_equal. apply Qc_is_canon.
  now rewrite !Q2Qc_this.
Qed.

Lemma Ideal_round2 (q : Qc) :
  round2 (fin q) = exact (cents q # 100).
Proof.
  unfold round2, exact, fin.
  change (Ideal.IFin (Q2Qc (inject_Z (Qfloor (q * Q2Qc 100 + Q2Qc (1 # 2))%Qc)) / Q2Qc 100)%Qc = Ideal.IFin (Q2Qc (cents q # 100))).
  f_equal. apply Qc_is_canon.
  unfold Qcdiv, Qcmult, Qcinv, Qcplus, Q2Qc; cbn [this].
  change (Qred 100) with (100 : Q). change (Qred (1 # 2)) with (1 # 2)%Q.
  change (Qred (/ 100)) with (1 # 100)%Q.
  rewrite !Qred_correct. fold (cents q).
  unfold Qeq, Qmult, inject_Z. cbn [Qnum Qden]. lia.
Qed.

Lemma cents_nearest (q : Qc) :
  (q - (1 # 200) < cents q # 100 /\ cents q # 100 <= q + (1 # 200))%Q.
Proof.
  unfold cents.
  pose proof (Qfloor_le (q * 100 + (1 # 2))) as Hle.
  pose proof (Qlt_floor (q * 100 + (1 # 2))) as Hlt.
  set (c := Qfloor (q * 100 + (1 # 2))) in *.
  rewrite inject_Z_plus in Hlt. rewrite (Qmake_Qdiv c 100).
  change (inject_Z (Z.pos 100)) with (100 : Q). change (inject_Z 1) with (1 : Q) in Hlt.
  generalize dependent (inject_Z c). generalize (this q). intros x z Hle Hlt.
  split.
  - apply Qlt_shift_div_l; [reflexivity|]. lra.
  - apply Qle_shift_div_r; [reflexivity|]. lra.
Qed.

Lemma cents_tie (k : Z) : cents (Q2Qc ((2 * k + 1) # 200)) = k + 1.
Proof.
  unfold cents.
  assert (E : (Q2Qc ((2 * k + 1) # 200) * 100 + (1 # 2) == inject_Z (k + 1))%Q).
  { rewrite Q2Qc_this. unfold Qeq, Qmult, Qplus, inject_Z. cbn [Qnum Qden]. lia. }
  rewrite (Qfloor_comp _ _ E). apply Qfloor_Z.
Qed.

Lemma Ideal_round2_tie (k : Z) :
  round2 (exact ((2 * k + 1) # 200)) = exact ((k + 1) # 100).
Proof. unfold exact at 1. now rewrite Ideal_round2, cents_tie. Qed.

Lemma Ideal_away (q : Qc) :
  round_half_away_from_zero2 (fin q)
  = if Ideal.Qc_neg q then num_neg (round2 (fin (- q)))
    else round2 (fin q).
Proof.
  unfold round_half_away_from_zero2, round2.
  change (num_lt (fin q) (num_of_Z 0)) with (Ideal.Qc_neg q).
  change (Math_abs (fin q)) with (fin (if Ideal.Qc_neg q then - q else q)%Qc).
  now destruct (Ideal.Qc_neg q).
Qed.

Lemma exact_neg (q : Q) : num_neg (exact q) = exact (- q).
Proof.
  unfold exact, fin. cbn. f_equal. apply Qc_is_canon.
  unfold Qcopp, Q2Qc; cbn [this]. now rewrite !Qred_correct.
Qed.

Lemma Qc_neg_iff (q : Q) : Ideal.Qc_neg (Q2Qc q) = true <-> (q < 0)%Q.
Proof.
  unfold Ideal.Qc_neg. rewrite Qc_ltb_lt. unfold Qclt. cbn [this Q2Qc].
  change (this 0%Qc) with 0%Q. now rewrite Qred_correct.
Qed.

Lemma Ideal_away_tie_negative (k : Z) :
  k < 0 ->
  round_half_away_from_zero2 (exact ((2 * k + 1) # 200)) = exact (k # 100).
Proof.
  intros Hk. unfold exact at 1. rewrite Ideal_away.
  assert (Hneg : Ideal.Qc_neg (Q2Qc ((2 * k + 1) # 200)) = true).
  { apply Qc_neg_iff. unfold Qlt. cbn. lia. }
  rewrite Hneg.
  assert (E : (- Q2Qc ((2 * k + 1) # 200))%Qc = Q2Qc ((2 * (- k - 1) + 1) # 200)).
  { apply Qc_is_canon. unfold Qcopp, Q2Qc; cbn [this]. rewrite !Qred_correct.
    unfold Qeq, Qopp. cbn [Qnum Qden]. lia. }
  rewrite E. fold (exact ((2 * (- k - 1) + 1) # 200)).
  rewrite Ideal_round2_tie, exact_neg. apply exact_eq.
  unfold Qeq, Qopp. cbn [Qnum Qden]. lia.
Qed.

Lemma Ideal_away_tie_nonnegative (k : Z) :
  0 <= k ->
  round_half_away_from_zero2 (exact ((2 * k + 1) # 200)) = exact ((k + 1) # 100).
Proof.
  intros Hk. unfold exact at 1. rewrite Ideal_away.
  destruct (Ideal.Qc_neg (Q2Qc ((2 * k + 1) # 200))) eqn:Hneg.
  - apply Qc_neg_iff in Hneg. unfold Qlt in Hneg. cbn in Hneg. lia.
  - apply Ideal_round2_tie.
Qed.

Lemma cents_bounds (q : Qc) :
  (inject_Z (cents q) <= q * 100 + (1 # 2) /\ q * 100 + (1 # 2) < inject_Z (cents q) + 1)%Q.
Proof.
  unfold cents. split; [apply Qfloor_le|].
  pose proof (Qlt_floor (q * 100 + (1 # 2))) as H.
  now rewrite inject_Z_plus in H.
Qed.

Lemma Qc_this_sum (a b c : Qc) : ((a + b - c)%Qc == a + b - c)%Q.
Proof.
  unfold Qcminus, Qcplus, Qcopp, Q2Qc; cbn [this]. rewrite !Qred_correct.
  reflexivity.
Qed.

Lemma cents_recombined (a b c : Qc) :
  -1 <= cents (a + b - c)%Qc - (cents a + cents b - cents c) <= 1.
Proof.
  destruct (cents_bounds a) as [Ha Ha'], (cents_bounds b) as [Hb Hb'],
    (cents_bounds c) as [Hc Hc'], (cents_bounds (a + b - c)%Qc) as [Ht Ht'].
  rewrite Qc_this_sum in Ht, Ht'.
  assert (Hlo : (inject_Z (-2) < inject_Z (cents (a + b - c)%Qc - (cents a + cents b - cents c)))%Q).
  { unfold Z.sub. repeat (rewrite inject_Z_plus || rewrite inject_Z_opp).
    change (inject_Z 2) with (2 : Q). change (inject_Z (-2)) with (-2 : Q).
    generalize dependent (inject_Z (cents (a + b - c)%Qc)).
    generalize dependent (inject_Z (cents a)). generalize dependent (inject_Z (cents b)).
    generalize dependent (inject_Z (cents c)).
    generalize (this a) (this b) (this c). intros. lra. }
  assert (Hhi : (inject_Z (cents (a + b - c)%Qc - (cents a + cents b - cents c)) < inject_Z 2)%Q).
  { unfold Z.sub. repeat (rewrite inject_Z_plus || rewrite inject_Z_opp).
    change (inject_Z 2) with (2 : Q). change (inject_Z (-2)) with (-2 : Q).
    generalize dependent (inject_Z (cents (a + b - c)%Qc)).
    generalize dependent (inject_Z (cents a)). generalize dependent (inject_Z (cents b)).
    generalize dependent (inject_Z (cents c)).
    generalize (this a) (this b) (this c). intros. lra. }
  rewrite <- Zlt_Qlt in Hlo, Hhi. lia.
Qed.

Section Rounding.
Context {N : Number}.

Lemma salaryLine_fields params revenueData (inventoryResults : InventoryResults N) employee :
  let line := salaryLine params revenueData inventoryResults employee in
  emp_revenue line = round2 (revenue revenueData employee) /\
  emp_baseSalary line = round2 (baseSalary params revenueData employee) /\
  emp_revenueBonus line = round2 (revenueBonus params revenueData employee) /\
  emp_inventoryDeduction line
  = round2 (inventoryDeduction revenueData inventoryResults employee) /\
  emp_totalSalary line
  = round2 (baseSalary params revenueData employee
            + revenueBonus params revenueData employee
            - inventoryDeduction revenueData inventoryResults employee)%js.
Proof. cbn. repeat split; reflexivity. Qed.

End Rounding.


(** C2, amended: the [totalSalary] of a line is the rounding of the
    unrounded [baseSalary + revenueBonus - inventoryDeduction]; the four
    fields are rounded each on its own.  In exact arithmetic all four are
    whole numbers of cents, and the cents of the total differ from the
    cents of the base plus those of the bonus minus those of the deduction
    by at most one. *)
Theorem totalSalary_is_rounded_on_its_own :
  (forall (N : Number) params employees revenueData (inventoryResults : InventoryResults N)
          line,
     In line (report_employees (report params employees revenueData inventoryResults)) ->
     exists employee,
       In employee employees /\
       emp_totalSalary line
       = round2 (baseSalary params revenueData employee
                 + revenueBonus params revenueData employee
                 - inventoryDeduction revenueData inventoryResults employee)%js /\
       emp_baseSalary line = round2 (baseSalary params revenueData employee) /\
       emp_revenueBonus line = round2 (revenueBonus params revenueData employee) /\
       emp_inventoryDeduction line
       = round2 (inventoryDeduction revenueData inventoryResults employee)) /\
  (forall params revenueData (inventoryResults : InventoryResults Ideal.number) employee
          (a b c : Qc),
     baseSalary params revenueData employee = fin a ->
     revenueBonus params revenueData employee = fin b ->
     inventoryDeduction revenueData inventoryResults employee = fin c ->
     let line := salaryLine params revenueData inventoryResults employee in
     emp_totalSalary line = exact (cents (a + b - c)%Qc # 100) /\
     emp_baseSalary line = exact (cents a # 100) /\
     emp_revenueBonus line = exact (cents b # 100) /\
     emp_inventoryDeduction line = exact (cents c # 100) /\
     -1 <= cents (a + b - c)%Qc - (cents a + cents b - cents c) <= 1).
Proof.
  split.
  - intros N params employees revenueData inventoryResults line Hline.
    apply report_employees_In in Hline.
    destruct Hline as (employee & Hin & -> & _). exists employee.
    split; [exact Hin|].
    destruct (salaryLine_fields params revenueData inventoryResults employee)
      as (_ & Hb & Hr & Hd & Ht).
    auto.
  - intros params revenueData inventoryResults employee a b c Ha Hb Hc line.
    subst line. cbn [salaryLine emp_totalSalary emp_baseSalary emp_revenueBonus
                       emp_inventoryDeduction].
    unfold totalSalary. rewrite Ha, Hb, Hc.
    change (fin a + fin b - fin c)%js with (fin (a + b - c)%Qc).
    rewrite !Ideal_round2. repeat split; try reflexivity; apply cents_recombined.
Qed.

(** The line of [api_cents] in exact arithmetic: 10000, 100 and 1 cents,
    and a total of 10100. *)
Lemma totalSalary_is_rounded_on_its_own_witness :
  exists (employee : Employee) (revenueData : list (RevenueData Ideal.number)) (a b c : Qc),
    let params := february 100 1 in
    let inventoryResults := getInventoryResults api_cents None None in
    getEmployeeRevenue api_cents = Returns revenueData /\
    baseSalary params revenueData employee = fin a /\
    revenueBonus params revenueData employee = fin b /\
    inventoryDeduction revenueData inventoryResults employee = fin c /\
    (cents a, cents b, cents c, cents (a + b - c)%Qc) = (10000, 100, 1, 10100) /\
    -1 <= cents (a + b - c)%Qc - (cents a + cents b - cents c) <= 1.
Proof.
  pose (revenueData := ltac:(returned (getEmployeeRevenue (N := Ideal.number) api_cents))).
  pose (inventoryResults := getInventoryResults (N := Ideal.number) api_cents None None).
  pose (a := ltac:(rational (baseSalary (N := Ideal.number)
                               (february 100 1) revenueData (staff 1 "A")))).
  pose (b := ltac:(rational (revenueBonus (N := Ideal.number)
                               (february 100 1) revenueData (staff 1 "A")))).
  pose (c := ltac:(rational (inventoryDeduction (N := Ideal.number)
                               revenueData inventoryResults (staff 1 "A")))).
  exists (staff 1 "A"), revenueData, a, b, c. cbv zeta.
  split; [reflexivity|]. split; [reflexivity|]. split; [reflexivity|].
  split; [reflexivity|]. split; [vm_compute; reflexivity|].
  exact (proj2 (proj2 (proj2 (proj2
           (proj2 totalSalary_is_rounded_on_its_own
                  (february 100 1) revenueData inventoryResults (staff 1 "A") a b c
                  eq_refl eq_refl eq_refl))))).
Defined.

(** *** The deductions in exact arithmetic *)

Section ExactSum.
Local Open Scope Qc_scope.

Lemma Qc_sum_app (l k : list Qc) : Qc_sum (l ++ k) = Qc_sum l + Qc_sum k.
Proof.
  induction l as [|x l IH]; cbn [app Qc_sum fold_right].
  - now rewrite Qcplus_0_l.
  - fold (Qc_sum (l ++ k)). fold (Qc_sum l). rewrite IH. ring.
Qed.

Lemma Qc_sum_cons (x : Qc) (l : list Qc) : Qc_sum (x :: l) = x + Qc_sum l.
Proof. reflexivity. Qed.

Lemma Qc_sum_Permutation (l k : list Qc) : Permutation l k -> Qc_sum l = Qc_sum k.
Proof.
  induction 1 as [|x l k _ IH|x y l|l k m _ IH1 _ IH2]; rewrite ?Qc_sum_cons.
  - reflexivity.
  - now rewrite IH.
  - ring.
  - now rewrite IH1.
Qed.

Lemma Qc_sum_zero {A} (f : A -> Qc) (l : list A) :
  (forall x, In x l -> f x = 0) -> Qc_sum (map f l) = 0.
Proof.
  induction l as [|x l IH]; cbn [map]; intros H; [reflexivity|].
  rewrite Qc_sum_cons, (H x) by (left; reflexivity).
  rewrite IH by (intros y Hy; apply H; right; exact Hy). ring.
Qed.

Lemma Qc_sum_scale {A} (c : Qc) (f : A -> Qc) (l : list A) :
  Qc_sum (map (fun x => c * f x) l) = c * Qc_sum (map f l).
Proof.
  induction l as [|x l IH]; cbn [map]; rewrite ?Qc_sum_cons.
  - unfold Qc_sum. cbn [fold_right]. ring.
  - rewrite IH. ring.
Qed.

(** The program's running sum of finite numbers is their exact sum. *)
Lemma fold_left_add_fin {A} (f : A -> @num Ideal.number) (l : list A) (acc : Qc) :
  Forall (fun x => exists q, f x = fin q) l ->
  fold_left (fun sum x => (sum + f x)%js) l (fin acc)
  = fin (acc + Qc_sum (map (fun x => to_Qc (f x)) l)).
Proof.
  revert acc. induction l as [|x l IH]; intros acc Hfin; cbn [fold_left map].
  - f_equal. unfold Qc_sum. cbn [fold_right]. ring.
  - apply Forall_cons in Hfin. destruct Hfin as [[q Hq] Hfin].
    rewrite Hq. change (fin acc + fin q)%js with (fin (acc + q)).
    rewrite (IH _ Hfin), Qc_sum_cons. f_equal. change (to_Qc (fin q)) with q. ring.
Qed.

End ExactSum.


(** What a [forEach] of assignments leaves in a map. *)
Section FilledMap.
Context {D V : Type}.
Variables (key : D -> string) (val : D -> V).

Lemma filled_other (l : list D) (m : gmap string V) (k : string) :
  ~ In k (map key l) -> filled key val l m !! k = m !! k.
Proof.
  revert m. induction l as [|d l IH]; intros m Hk; [reflexivity|].
  cbn in Hk. unfold filled in *. cbn [fold_left]. rewrite IH by tauto.
  apply lookup_insert_ne. tauto.
Qed.

Lemma filled_recorded (l : list D) (m : gmap string V) (d : D) :
  NoDup (map key l) -> In d l -> filled key val l m !! key d = Some (val d).
Proof.
  revert m. induction l as [|d0 l IH]; intros m Hnd Hin; [destruct Hin|].
  cbn [map] in Hnd. apply NoDup_cons in Hnd. destruct Hnd as [Hd0 Hnd].
  unfold filled in *. cbn [fold_left]. destruct Hin as [->|Hin].
  - fold (filled key val l (<[key d := val d]> m)). rewrite filled_other.
    + apply lookup_insert_eq.
    + now rewrite <- list_elem_of_In.
  - now apply IH.
Qed.

Lemma filled_some (l : list D) (m : gmap string V) (k : string) (v : V) :
  filled key val l m !! k = Some v -> (exists d, In d l /\ val d = v) \/ m !! k = Some v.
Proof.
  revert m. induction l as [|d l IH]; intros m H; [now right|].
  unfold filled in *. cbn [fold_left] in H. apply IH in H.
  destruct H as [(d' & Hin & Hv)|H].
  - left. exists d'. split; [now right|exact Hv].
  - destruct (decide (key d = k)) as [<-|Hne].
    + rewrite lookup_insert_eq in H. injection H as <-. left. exists d. split; [now left|reflexivity].
    + rewrite lookup_insert_ne in H by exact Hne. now right.
Qed.

End FilledMap.

Section Shares.
Local Open Scope Qc_scope.
Variable revenueData : list (RevenueData Ideal.number).
Hypothesis finite_revenue : Forall (fun d => exists q, data_revenue d = fin q) revenueData.
Hypothesis distinct_data :
  NoDup (map (fun d => parsed_key (data_employeeId d)) revenueData).

Lemma revenueMap_filled :
  revenueMap revenueData
  = filled (fun d => parsed_key (data_employeeId d)) data_revenue revenueData ∅.
Proof. reflexivity. Qed.

Lemma revenue_recorded (employee : Employee) :
  revenue revenueData employee = fin (recorded revenueData (id_key (employeeId employee))).
Proof.
  unfold revenue, recorded.
  destruct (revenueMap revenueData !! id_key (employeeId employee)) as [r|] eqn:Hr;
    [|reflexivity].
  rewrite revenueMap_filled in Hr. apply filled_some in Hr. destruct Hr as [(d & Hin & <-)|Hr]; [|discriminate Hr].
  rewrite Forall_forall in finite_revenue.
  destruct (finite_revenue d) as [q Hq]; [now apply list_elem_of_In|].
  rewrite Hq. change (to_Qc (fin q)) with q.
  change (num_truthy (fin q)) with (negb (Ideal.Qc_eqb q 0)).
  destruct (Ideal.Qc_eqb q 0) eqn:E; cbn [negb]; [|reflexivity].
  apply Qc_eqb_eq in E. now subst q.
Qed.

Lemma recorded_data (d : RevenueData Ideal.number) :
  In d revenueData -> recorded revenueData (parsed_key (data_employeeId d)) = to_Qc (data_revenue d).
Proof.
  intros Hin. unfold recorded. rewrite revenueMap_filled.
  now rewrite (filled_recorded (fun d => parsed_key (data_employeeId d)) data_revenue
                 revenueData ∅ d distinct_data Hin).
Qed.

Lemma recorded_none (k : string) :
  ~ In k (map (fun d => parsed_key (data_employeeId d)) revenueData) -> recorded revenueData k = 0.
Proof.
  intros Hk. unfold recorded. rewrite revenueMap_filled.
  now rewrite (filled_other (fun d => parsed_key (data_employeeId d)) data_revenue
                 revenueData ∅ k Hk).
Qed.

Lemma totalRevenue_exact :
  totalRevenue revenueData = fin (Qc_sum (map (fun d => to_Qc (data_revenue d)) revenueData)).
Proof.
  unfold totalRevenue. change (num_of_Z 0) with (fin 0).
  rewrite (fold_left_add_fin data_revenue revenueData 0 finite_revenue).
  f_equal. ring.
Qed.

(** Employees with distinct keys that cover the recorded ones share out
    the whole revenue. *)
Lemma recorded_sum (employees : list Employee) :
  NoDup (map (fun e => id_key (employeeId e)) employees) ->
  (forall d, In d revenueData ->
     exists e, In e employees /\ id_key (employeeId e) = parsed_key (data_employeeId d)) ->
  Qc_sum (map (fun e => recorded revenueData (id_key (employeeId e))) employees)
  = Qc_sum (map (fun d => to_Qc (data_revenue d)) revenueData).
Proof.
  intros Hnd Hcover.
  set (ks := map (fun e => id_key (employeeId e)) employees) in *.
  set (ds := map (fun d => parsed_key (data_employeeId d)) revenueData) in *.
  assert (Hsub : ds ⊆+ ks).
  { apply NoDup_submseteq; [exact distinct_data|].
    intros k Hk. apply list_elem_of_In, in_map_iff in Hk.
    destruct Hk as (d & <- & Hd). destruct (Hcover d Hd) as (e & He & <-).
    apply list_elem_of_In, in_map_iff. eauto. }
  apply submseteq_Permutation in Hsub. destruct Hsub as [rest Hperm].
  change (map (fun e => recorded revenueData (id_key (employeeId e))) employees)
    with (map (fun e => recorded revenueData ((fun e => id_key (employeeId e)) e)) employees).
  rewrite <- (map_map (fun e => id_key (employeeId e)) (recorded revenueData)). fold ks.
  rewrite (Qc_sum_Permutation _ _ (Permutation_map (recorded revenueData) Hperm)).
  rewrite map_app, Qc_sum_app. unfold ds at 1. rewrite map_map.
  rewrite (map_ext_in _ (fun d => to_Qc (data_revenue d)) revenueData recorded_data).
  rewrite (Qc_sum_zero (recorded revenueData) rest); [ring|].
  intros k Hk. apply recorded_none. fold ds.
  rewrite Hperm in Hnd. apply NoDup_app in Hnd. destruct Hnd as (_ & Hdisj & _).
  intros Hin. apply (Hdisj k); now apply list_elem_of_In.
Qed.

End Shares.

Section ExactDeduction.
Local Open Scope Qc_scope.

Lemma inventoryDeduction_exact revenueData (inventoryResults : InventoryResults Ideal.number)
    (employee : Employee) (l T : Qc) :
  Forall (fun d => exists q, data_revenue d = fin q) revenueData ->
  results_totalLoss inventoryResults = fin l ->
  totalRevenue revenueData = fin T ->
  l < 0 -> 0 < T ->
  inventoryDeduction revenueData inventoryResults employee
  = fin (- l * (recorded revenueData (id_key (employeeId employee)) / T)).
Proof.
  intros Hfin Hl HT Hneg Hpos. unfold inventoryDeduction.
  rewrite Hl, HT, (revenue_recorded revenueData Hfin).
  change (num_lt (fin l) (num_of_Z 0)) with (Ideal.Qc_ltb l 0).
  change (num_lt (num_of_Z 0) (fin T)) with (Ideal.Qc_ltb 0 T).
  rewrite (proj2 (Qc_ltb_lt l 0) Hneg), (proj2 (Qc_ltb_lt 0 T) Hpos). cbn [andb].
  change (Math_abs (fin l)) with (fin (if Ideal.Qc_neg l then - l else l)).
  unfold Ideal.Qc_neg. rewrite (proj2 (Qc_ltb_lt l 0) Hneg).
  set (r := recorded revenueData (id_key (employeeId employee))).
  change (fin r / fin T)%js
    with (if Ideal.Qc_eqb T 0
          then (if Ideal.Qc_eqb r 0 then Ideal.INaN else Ideal.IInf (Ideal.Qc_neg r))
          else fin (r / T)).
  destruct (Ideal.Qc_eqb T 0) eqn:E.
  - apply Qc_eqb_eq in E. symmetry in E. now apply Qclt_not_eq in Hpos.
  - reflexivity.
Qed.

Lemma sum_inventoryDeduction_exact
    (employees : list Employee) (revenueData : list (RevenueData Ideal.number))
    (inventoryResults : InventoryResults Ideal.number) (l : Qc) :
  results_totalLoss inventoryResults = fin l ->
  l < 0 ->
  Forall (fun d => exists q, data_revenue d = fin q) revenueData ->
  (totalRevenue revenueData >? num_of_Z 0)%js = true ->
  NoDup (map (fun d => parsed_key (data_employeeId d)) revenueData) ->
  NoDup (map (fun e => id_key (employeeId e)) employees) ->
  (forall d, In d revenueData ->
     exists e, In e employees /\ id_key (employeeId e) = parsed_key (data_employeeId d)) ->
  sum_inventoryDeduction employees revenueData inventoryResults = fin (- l).
Proof.
  intros Hl Hneg Hfin Hpos Hdata Hemp Hcover.
  pose proof (totalRevenue_exact revenueData Hfin) as HT.
  set (T := Qc_sum (map (fun d => to_Qc (data_revenue d)) revenueData)) in *.
  rewrite HT in Hpos. change (Ideal.Qc_ltb 0 T = true) in Hpos.
  apply Qc_ltb_lt in Hpos.
  assert (HT0 : T <> 0) by (intros E; symmetry in E; now apply Qclt_not_eq in Hpos).
  unfold sum_inventoryDeduction. change (num_of_Z 0) with (fin 0).
  rewrite (fold_left_add_fin
             (inventoryDeduction revenueData inventoryResults) employees 0).
  - f_equal.
    rewrite (map_ext _ (fun e => (- l / T) * recorded revenueData (id_key (employeeId e)))).
    + rewrite (Qc_sum_scale (- l / T)
                 (fun e => recorded revenueData (id_key (employeeId e))) employees).
      rewrite (recorded_sum revenueData Hdata employees Hemp Hcover). fold T.
      field. exact HT0.
    + intros e.
      rewrite (inventoryDeduction_exact revenueData inventoryResults e l T Hfin Hl HT Hneg Hpos).
      change (to_Qc (fin ?q)) with q. field. exact HT0.
  - apply Forall_forall. intros e _.
    rewrite (inventoryDeduction_exact revenueData inventoryResults e l T Hfin Hl HT Hneg Hpos).
    eauto.
Qed.

End ExactDeduction.



(** ** 11. The aggregation of the transactions *)

Section ObjectFacts.
Context {V : Type}.
Implicit Types (o : JsObject.t V) (k : string) (v : V).

Lemma get_set_eq k v o : JsObject.get k (JsObject.set k v o) = Some v.
Proof.
  induction o as [|[k' v'] o IH]; cbn.
  - now rewrite String.eqb_refl.
  - destruct (String.eqb k k') eqn:E; cbn; rewrite ?String.eqb_refl, ?E; auto.
Qed.

Lemma get_set_ne k k' v o : k <> k' -> JsObject.get k' (JsObject.set k v o) = JsObject.get k' o.
Proof.
  intros Hne. induction o as [|[k0 v0] o IH]; cbn.
  - destruct (String.eqb k' k) eqn:E; [apply String.eqb_eq in E; congruence|reflexivity].
  - destruct (String.eqb k k0) eqn:E; cbn.
    + apply String.eqb_eq in E. subst k0.
      destruct (String.eqb k' k) eqn:E'; [apply String.eqb_eq in E'; congruence|reflexivity].
    + now rewrite IH.
Qed.

Lemma get_None k o : JsObject.get k o = None <-> ~ In k (JsObject.own_keys o).
Proof.
  unfold JsObject.own_keys. induction o as [|[k' v'] o IH]; cbn; [tauto|].
  destruct (String.eqb k k') eqn:E.
  - apply String.eqb_eq in E. subst. split; [discriminate|tauto].
  - apply String.eqb_neq in E. rewrite IH. split; [intros H [?|?]; congruence|tauto].
Qed.

Lemma get_Some_In k v o : JsObject.get k o = Some v -> In k (JsObject.own_keys o).
Proof.
  intros H. destruct (in_dec string_dec k (JsObject.own_keys o)) as [Hin|Hn]; [exact Hin|].
  apply get_None in Hn. congruence.
Qed.

Lemma own_keys_set_old k v o :
  In k (JsObject.own_keys o) -> JsObject.own_keys (JsObject.set k v o) = JsObject.own_keys o.
Proof.
  unfold JsObject.own_keys. induction o as [|[k' v'] o IH]; cbn; [tauto|].
  intros Hin. destruct (String.eqb k k') eqn:E; cbn.
  - apply String.eqb_eq in E. now subst.
  - apply String.eqb_neq in E. f_equal. apply IH. destruct Hin; congruence.
Qed.

Lemma own_keys_set_new k v o :
  ~ In k (JsObject.own_keys o) ->
  JsObject.own_keys (JsObject.set k v o) = (JsObject.own_keys o ++ [k])%list.
Proof.
  unfold JsObject.own_keys. induction o as [|[k' v'] o IH]; cbn; [reflexivity|].
  intros Hin. destruct (String.eqb k k') eqn:E; cbn.
  - apply String.eqb_eq in E. subst. tauto.
  - f_equal. apply IH. tauto.
Qed.

End ObjectFacts.

Section KeysFacts.
Context {V : Type}.

Lemma insert_index_Permutation (x : N * string) (l : list (N * string)) :
  Permutation (JsObject.insert_index x l) (x :: l).
Proof.
  induction l as [|y l IH]; cbn; [reflexivity|].
  destruct (fst x <=? fst y)%N; [reflexivity|].
  rewrite IH. apply perm_swap.
Qed.

Lemma sorted_indices_Permutation (l : list (N * string)) :
  Permutation (fold_right JsObject.insert_index [] l) l.
Proof.
  induction l as [|x l IH]; cbn; [reflexivity|].
  rewrite insert_index_Permutation. now apply perm_skip.
Qed.

Lemma keys_Permutation (o : JsObject.t V) :
  Permutation (JsObject.keys o) (JsObject.own_keys o).
Proof.
  unfold JsObject.keys. generalize (JsObject.own_keys o). intros ks.
  rewrite (Permutation_map snd (sorted_indices_Permutation _)).
  induction ks as [|k ks IH]; cbn; [reflexivity|].
  destruct (JsObject.array_index k) as [n|] eqn:E; cbn.
  - now apply perm_skip.
  - rewrite <- Permutation_middle. now apply perm_skip.
Qed.

Lemma keys_In (o : JsObject.t V) (k : string) :
  In k (JsObject.keys o) <-> In k (JsObject.own_keys o).
Proof.
  split; apply Permutation_in; [|symmetry]; apply keys_Permutation.
Qed.

Lemma keys_NoDup (o : JsObject.t V) :
  NoDup (JsObject.own_keys o) -> NoDup (JsObject.keys o).
Proof. intros H. now rewrite keys_Permutation. Qed.

End KeysFacts.

Section Aggregation.
Context {N : Number}.
Implicit Types (t : Transaction N) (txs done : list (Transaction N)).
Implicit Types (st : JsObject.t num * JsObject.t (gset string)).

Lemma transactions_of_snoc k done t :
  transactions_of k (done ++ [t])
  = (transactions_of k done
     ++ (if has_employee t && String.eqb (transaction_key t) k then [t] else []))%list.
Proof. unfold transactions_of. now rewrite List.filter_app. Qed.

Lemma running_total_snoc (ts : list (Transaction N)) t :
  running_total (ts ++ [t])
  = ((if num_truthy (running_total ts) then running_total ts else num_of_Z 0)
     + coerced_total t)%js.
Proof. unfold running_total. now rewrite fold_left_app. Qed.

Lemma days_of_snoc (ts : list (Transaction N)) t :
  days_of (ts ++ [t]) = days_of ts ∪ {[ transaction_day t ]}.
Proof.
  unfold days_of. rewrite map_app, list_to_set_app_L. cbn.
  now rewrite (right_id_L ∅ (∪)).
Qed.

Lemma aggregate_skip st t : has_employee t = false -> aggregate st t = Returns st.
Proof.
  unfold has_employee, transaction_employeeId, aggregate. destruct st as [rev shifts].
  now intros ->.
Qed.

Lemma aggregate_throws st t :
  has_employee t = true -> has_timestamp t = false -> aggregate st t = Throws TypeError.
Proof.
  unfold has_employee, has_timestamp, transaction_employeeId, aggregate.
  destruct st as [rev shifts]. intros -> Hd. cbn [negb].
  destruct (js_or (transaction_date_close t) (transaction_date t)); try discriminate Hd;
    reflexivity.
Qed.

(** What one transaction of an employee does to the two objects. *)
Lemma aggregate_step (rev : JsObject.t num) (shifts : JsObject.t (gset string)) t :
  has_employee t = true -> has_timestamp t = true ->
  let k := transaction_key t in
  let rev1 :=
    if no_revenue (JsObject.get k rev) then JsObject.set k (num_of_Z 0) rev else rev in
  let shifts1 :=
    match JsObject.get k shifts with
    | Some _ => shifts
    | None => JsObject.set k ∅ shifts
    end in
  exists dates,
    JsObject.get k shifts1 = Some dates /\
    aggregate (rev, shifts) t
    = Returns (JsObject.set k (revenue_of (JsObject.get k rev1) + coerced_total t)%js rev1,
               JsObject.set k (dates ∪ {[ transaction_day t ]}) shifts1).
Proof.
  unfold has_employee, has_timestamp, transaction_day, transaction_key,
    transaction_employeeId, coerced_total, aggregate.
  intros -> Hd. cbn [negb].
  destruct (js_or (transaction_date_close t) (transaction_date t)) as [| | |s];
    try discriminate Hd.
  cbn.
  destruct (JsObject.get _ shifts) as [dates|] eqn:E.
  - exists dates. now rewrite E.
  - exists ∅. rewrite get_set_eq. split; reflexivity.
Qed.


Lemma aggregated_init : aggregated (N := N) [] (JsObject.empty, JsObject.empty).
Proof.
  unfold aggregated. cbn. repeat split; try tauto.
  - constructor.
  - intros (t & [] & _).
Qed.

Lemma transactions_of_other k done t :
  transaction_key t <> k \/ has_employee t = false ->
  transactions_of k (done ++ [t]) = transactions_of k done.
Proof.
  intros H. rewrite transactions_of_snoc.
  destruct (has_employee t) eqn:He; cbn [andb]; [|apply app_nil_r].
  destruct (String.eqb (transaction_key t) k) eqn:E; [|apply app_nil_r].
  apply String.eqb_eq in E. destruct H; congruence.
Qed.

Lemma transactions_of_same done t :
  has_employee t = true ->
  transactions_of (transaction_key t) (done ++ [t])
  = (transactions_of (transaction_key t) done ++ [t])%list.
Proof.
  intros He. now rewrite transactions_of_snoc, He, String.eqb_refl.
Qed.

Lemma transactions_of_unseen k done :
  ~ (exists t, In t done /\ has_employee t = true /\ transaction_key t = k) ->
  transactions_of k done = [].
Proof.
  intros H. unfold transactions_of.
  induction done as [|t done IH]; [reflexivity|]. cbn.
  destruct (has_employee t) eqn:He; cbn [andb].
  - destruct (String.eqb (transaction_key t) k) eqn:E.
    + apply String.eqb_eq in E. exfalso. apply H. exists t. cbn. auto.
    + apply IH. intros (t' & Hin & H'). apply H. exists t'. cbn. tauto.
  - apply IH. intros (t' & Hin & H'). apply H. exists t'. cbn. tauto.
Qed.

Lemma aggregated_step done st st' t :
  aggregated done st -> aggregate st t = Returns st' -> aggregated (done ++ [t]) st'.
Proof.
  destruct st as [rev shifts]. intros (Hkeys & Hnd & Hdom & Hval) Hstep.
  cbn [fst snd] in *.
  destruct (has_employee t) eqn:He.
  2:{ rewrite aggregate_skip in Hstep by exact He. injection Hstep as <-.
      unfold aggregated. cbn [fst snd]. repeat split; trivial.
      - intros Hin. apply Hdom in Hin. destruct Hin as (t' & Hin & H').
        exists t'. rewrite in_app_iff. tauto.
      - intros (t' & Hin & He' & Hk). apply Hdom. apply in_app_iff in Hin.
        destruct Hin as [Hin|[<-|[]]]; [eauto|congruence].
      - rewrite transactions_of_other by auto. now apply Hval.
      - rewrite transactions_of_other by auto. now apply Hval. }
  destruct (has_timestamp t) eqn:Hd.
  2:{ rewrite aggregate_throws in Hstep by assumption. discriminate Hstep. }
  destruct (aggregate_step rev shifts t He Hd) as (dates & Hdates & Heq).
  rewrite Heq in Hstep. injection Hstep as <-. clear Heq.
  set (k := transaction_key t) in *.
  destruct (in_dec string_dec k (JsObject.own_keys rev)) as [Hin|Hnew].
  - (* the employee has an entry already *)
    destruct (Hval k Hin) as [Hrev Hshifts]. rewrite Hshifts in Hdates.
    assert (dates = days_of (transactions_of k done)) as -> by congruence.
    clear Hdates. rewrite Hrev, Hshifts.
    set (v := running_total (transactions_of k done)) in *.
    assert (Hrev1 :
      revenue_of (JsObject.get k
        (if no_revenue (Some v) then JsObject.set k (num_of_Z 0) rev else rev))
      = if num_truthy v then v else num_of_Z 0).
    { cbn [no_revenue]. destruct (num_truthy v); cbn [negb].
      - now rewrite Hrev.
      - now rewrite get_set_eq. }
    assert (Hk1 : JsObject.own_keys
        (if no_revenue (Some v) then JsObject.set k (num_of_Z 0) rev else rev)
      = JsObject.own_keys rev).
    { destruct (no_revenue (Some v)); [now apply own_keys_set_old|reflexivity]. }
    unfold aggregated. cbn [fst snd].
    rewrite !own_keys_set_old by (rewrite ?Hk1, ?Hkeys; exact Hin).
    rewrite Hk1. repeat split; trivial.
    + intros Hin'. apply Hdom in Hin'. destruct Hin' as (t' & Hin' & H').
      exists t'. rewrite in_app_iff. tauto.
    + intros (t' & Hin' & He' & Hk). apply in_app_iff in Hin'.
      destruct Hin' as [Hin'|[<-|[]]]; [apply Hdom; eauto|now rewrite <- Hk].
    + destruct (string_dec k k0) as [<-|Hne].
      * rewrite get_set_eq, Hrev1. subst k. rewrite transactions_of_same by exact He.
        now rewrite running_total_snoc.
      * rewrite get_set_ne by exact Hne. rewrite transactions_of_other by (left; exact Hne).
        destruct (no_revenue (Some v)); [rewrite get_set_ne by exact Hne|]; now apply Hval.
    + destruct (string_dec k k0) as [<-|Hne].
      * rewrite get_set_eq. subst k. rewrite transactions_of_same by exact He.
        now rewrite days_of_snoc.
      * rewrite get_set_ne by exact Hne. rewrite transactions_of_other by (left; exact Hne).
        now apply Hval.
  - (* the first transaction of the employee *)
    assert (Hnone : JsObject.get k rev = None) by now apply get_None.
    assert (Hnone' : JsObject.get k shifts = None) by (apply get_None; now rewrite Hkeys).
    rewrite Hnone' in Hdates. rewrite get_set_eq in Hdates. injection Hdates as <-.
    rewrite Hnone, Hnone'. cbn [no_revenue]. rewrite get_set_eq. cbn [revenue_of].
    assert (Hunseen : transactions_of k done = []).
    { apply transactions_of_unseen. intros H. now apply Hdom in H. }
    unfold aggregated. cbn [fst snd].
    rewrite !(own_keys_set_old k _ (JsObject.set k _ _))
      by (rewrite own_keys_set_new by (rewrite ?Hkeys; exact Hnew);
          apply in_app_iff; right; now left).
    rewrite !own_keys_set_new by (rewrite ?Hkeys; exact Hnew).
    rewrite Hkeys. repeat split; trivial.
    + apply NoDup_app. repeat split; trivial.
      * intros x Hx Hx'. apply list_elem_of_In in Hx, Hx'.
        destruct Hx' as [<-|[]]. contradiction.
      * apply NoDup_singleton.
    + intros Hin'. apply in_app_iff in Hin'. destruct Hin' as [Hin'|[<-|[]]].
      * apply Hdom in Hin'. destruct Hin' as (t' & Hin' & H').
        exists t'. rewrite in_app_iff. tauto.
      * exists t. rewrite in_app_iff. cbn. tauto.
    + intros (t' & Hin' & He' & Hk). apply in_app_iff. apply in_app_iff in Hin'.
      destruct Hin' as [Hin'|[<-|[]]]; [left; apply Hdom; eauto|right; now left].
    + destruct (string_dec k k0) as [<-|Hne].
      * rewrite get_set_eq. subst k. rewrite transactions_of_same by exact He.
        rewrite running_total_snoc. fold (transaction_key t). rewrite Hunseen.
        unfold running_total at 1 2. cbn [fold_left].
        now destruct (num_truthy (num_of_Z 0)).
      * rewrite !get_set_ne by exact Hne.
        rewrite transactions_of_other by (left; exact Hne).
        apply Hval. apply in_app_iff in H. destruct H as [H|[H|[]]]; congruence.
    + destruct (string_dec k k0) as [<-|Hne].
      * rewrite get_set_eq. subst k. rewrite transactions_of_same by exact He.
        rewrite days_of_snoc. fold (transaction_key t). rewrite Hunseen.
        reflexivity.
      * rewrite !get_set_ne by exact Hne.
        rewrite transactions_of_other by (left; exact Hne).
        apply Hval. apply in_app_iff in H. destruct H as [H|[H|[]]]; congruence.
Qed.


Lemma aggregated_forEach txs done st st' :
  aggregated done st ->
  forEach aggregate txs st = Returns st' ->
  aggregated (done ++ txs) st'.
Proof.
  revert done st. induction txs as [|t txs IH]; intros done st Hst Hrun; cbn in Hrun.
  - injection Hrun as <-. now rewrite app_nil_r.
  - destruct (aggregate st t) as [st1|e] eqn:E; [|discriminate Hrun]. cbn in Hrun.
    replace (done ++ t :: txs)%list with ((done ++ [t]) ++ txs)%list
      by now rewrite <- app_assoc.
    eapply IH; [|exact Hrun]. eapply aggregated_step; eassumption.
Qed.

(** The transactions without an employee are skipped. *)
Lemma forEach_skips txs st :
  forEach aggregate txs st = forEach aggregate (List.filter has_employee txs) st.
Proof.
  revert st. induction txs as [|t txs IH]; intros st; [reflexivity|]. cbn.
  destruct (has_employee t) eqn:He; cbn.
  - destruct (aggregate st t); cbn; [apply IH|reflexivity].
  - rewrite aggregate_skip by exact He. cbn. apply IH.
Qed.

(** With a timestamp on every transaction of an employee the loop returns. *)
Lemma forEach_returns txs st :
  (forall t, In t txs -> has_employee t = true -> has_timestamp t = true) ->
  exists st', forEach aggregate txs st = Returns st'.
Proof.
  revert st. induction txs as [|t txs IH]; intros st Hts; cbn; [eauto|].
  destruct (has_employee t) eqn:He.
  - destruct st as [rev shifts].
    destruct (aggregate_step rev shifts t He (Hts t (or_introl eq_refl) He))
      as (dates & _ & ->).
    cbn. apply IH. intros t' Hin. apply Hts. now right.
  - rewrite aggregate_skip by exact He. cbn. apply IH. intros t' Hin. apply Hts. now right.
Qed.

(** A transaction of an employee without a timestamp makes the loop throw. *)
Lemma forEach_throws txs st t :
  In t txs -> has_employee t = true -> has_timestamp t = false ->
  forEach aggregate txs st = Throws TypeError.
Proof.
  revert st. induction txs as [|t0 txs IH]; intros st Hin He Hd; [destruct Hin|]. cbn.
  destruct (aggregate st t0) as [st1|e] eqn:E; cbn.
  - destruct Hin as [->|Hin]; [|now apply IH].
    rewrite aggregate_throws in E by assumption. discriminate E.
  - destruct (has_employee t0) eqn:He0.
    + destruct (has_timestamp t0) eqn:Hd0.
      * destruct st as [rev shifts].
        destruct (aggregate_step rev shifts t0 He0 Hd0) as (dates & _ & Heq).
        rewrite Heq in E. discriminate E.
      * rewrite aggregate_throws in E by assumption. now injection E as <-.
    + rewrite aggregate_skip in E by exact He0. discriminate E.
Qed.

Lemma mapM_revenue_entry txs (rev : JsObject.t num) (shifts : JsObject.t (gset string))
    (ks : list string) :
  aggregated txs (rev, shifts) ->
  (forall k, In k ks -> In k (JsObject.own_keys rev)) ->
  mapM (revenue_entry rev shifts) ks = Returns (map (entry_of txs) ks).
Proof.
  intros (_ & _ & _ & Hval) Hks. cbn [fst snd] in Hval.
  induction ks as [|k ks IH]; [reflexivity|]. cbn.
  destruct (Hval k (Hks k (or_introl eq_refl))) as [Hrev Hshifts].
  assert (Hentry : revenue_entry rev shifts k = Returns (entry_of txs k)).
  { unfold revenue_entry. now rewrite Hshifts, Hrev. }
  rewrite Hentry, IH by (intros k' Hk'; apply Hks; now right). reflexivity.
Qed.

(** What [getEmployeeRevenue] returns: one aggregate for each distinct
    key among the transactions that carry an employee identifier. *)
Lemma employeeRevenue_Returns txs res :
  employeeRevenue txs = Returns res ->
  exists ks,
    NoDup ks /\
    (forall k, In k ks <->
               exists t, In t txs /\ has_employee t = true /\ transaction_key t = k) /\
    res = map (entry_of txs) ks.
Proof.
  unfold employeeRevenue.
  destruct (forEach aggregate txs (JsObject.empty, JsObject.empty)) as [[rev shifts]|e] eqn:E;
    [|discriminate]. cbn.
  pose proof (aggregated_forEach txs [] _ _ aggregated_init E) as Hagg. cbn in Hagg.
  rewrite (mapM_revenue_entry txs rev shifts (JsObject.keys rev) Hagg)
    by (intros k; apply keys_In).
  intros [= <-]. exists (JsObject.keys rev).
  destruct Hagg as (_ & Hnd & Hdom & _). cbn [fst snd] in *.
  split; [now apply keys_NoDup|]. split; [|reflexivity].
  intros k. rewrite keys_In. apply Hdom.
Qed.

Lemma employeeRevenue_total txs :
  (forall t, In t txs -> has_employee t = true -> has_timestamp t = true) ->
  exists res, employeeRevenue txs = Returns res.
Proof.
  intros Hts. unfold employeeRevenue.
  destruct (forEach_returns txs (JsObject.empty, JsObject.empty) Hts) as [[rev shifts] E].
  rewrite E. cbn.
  pose proof (aggregated_forEach txs [] _ _ aggregated_init E) as Hagg. cbn in Hagg.
  rewrite (mapM_revenue_entry txs rev shifts (JsObject.keys rev) Hagg)
    by (intros k; apply keys_In).
  eauto.
Qed.

End Aggregation.

(** *** Identifiers that are integers *)

Lemma read_digits_string_of_uint (d : Decimal.uint) :
  read_digits (NilEmpty.string_of_uint d) = (d, "").
Proof. induction d; cbn; rewrite ?IHd; reflexivity. Qed.

Lemma trim_start_numeral (d : Decimal.uint) :
  trim_start (NilEmpty.string_of_uint d) = NilEmpty.string_of_uint d.
Proof. destruct d; reflexivity. Qed.

Lemma read_sign_numeral (d : Decimal.uint) :
  read_sign (NilEmpty.string_of_uint d) = (false, NilEmpty.string_of_uint d).
Proof. destruct d; reflexivity. Qed.

Lemma hex_prefix_numeral (d : Decimal.uint) :
  hex_prefix (NilEmpty.string_of_uint d) = false.
Proof. destruct d as [|d|d|d|d|d|d|d|d|d|d]; try reflexivity. destruct d; reflexivity. Qed.

Lemma parse_magnitude_numeral (d : Decimal.uint) :
  d <> Decimal.Nil ->
  parse_magnitude (NilEmpty.string_of_uint d) = Some (N.of_uint d).
Proof.
  intros Hd. unfold parse_magnitude.
  rewrite hex_prefix_numeral, read_digits_string_of_uint.
  destruct d; congruence.
Qed.

Lemma to_uint_nonempty (p : positive) : Pos.to_uint p <> Decimal.Nil.
Proof.
  intros H. pose proof (DecimalPos.Unsigned.of_to p) as E. rewrite H in E. discriminate E.
Qed.

Lemma parseInt_Z_toString (z : Z) : parseInt (Z_toString z) = Some z.
Proof.
  unfold Z_toString, parseInt. destruct z as [|p|p]; [reflexivity| |].
  - cbn [Z.to_int NilZero.string_of_int].
    assert (E : NilZero.string_of_uint (Pos.to_uint p) = NilEmpty.string_of_uint (Pos.to_uint p)).
    { pose proof (to_uint_nonempty p). destruct (Pos.to_uint p); [congruence|reflexivity..]. }
    rewrite E, trim_start_numeral, read_sign_numeral.
    rewrite parse_magnitude_numeral by apply to_uint_nonempty.
    cbn [option_map]. unfold N.of_uint. now rewrite DecimalPos.Unsigned.of_to.
  - cbn [Z.to_int NilZero.string_of_int].
    assert (E : NilZero.string_of_uint (Pos.to_uint p) = NilEmpty.string_of_uint (Pos.to_uint p)).
    { pose proof (to_uint_nonempty p). destruct (Pos.to_uint p); [congruence|reflexivity..]. }
    rewrite E. change (trim_start (String "-" ?s)) with (String "-" s).
    cbn [read_sign].
    rewrite parse_magnitude_numeral by apply to_uint_nonempty.
    cbn [option_map]. unfold N.of_uint. now rewrite DecimalPos.Unsigned.of_to.
Qed.

Lemma Z_toString_inj (z z' : Z) : Z_toString z = Z_toString z' -> z = z'.
Proof.
  intros H. apply (f_equal parseInt) in H. rewrite !parseInt_Z_toString in H. congruence.
Qed.

Example parseInt_examples :
  parseInt "  -42abc" = Some (-42) /\ parseInt "0x1F" = Some 31 /\
  parseInt "abc" = None /\ parseInt "007" = Some 7 /\ parseInt "0" = Some 0 /\
  parseInt "0x" = None /\ parseInt "-" = None /\ parseInt "12.5" = Some 12.
Proof. repeat split; reflexivity. Qed.

Lemma before_space_timestamp (day time : string) :
  has_space day = false -> before_space (day ++ " " ++ time) = day.
Proof.
  induction day as [|c day IH]; [reflexivity|].
  simpl. destruct (Ascii.eqb c " "); simpl; [discriminate|].
  intros H. f_equal. exact (IH H).
Qed.

Section Sums.
Context {N : Number}.

Lemma running_total_sum_totals (ts : list (Transaction N)) :
  (forall p t rest, ts = (p ++ t :: rest)%list ->
     num_truthy (sum_totals p) = true \/ sum_totals p = num_of_Z 0) ->
  running_total ts = sum_totals ts.
Proof.
  induction ts as [|t ts IH] using rev_ind; intros Hidle; [reflexivity|].
  assert (Hsnoc : sum_totals (ts ++ [t]) = (sum_totals ts + coerced_total t)%js).
  { unfold sum_totals. now rewrite fold_left_app. }
  rewrite running_total_snoc, Hsnoc.
  rewrite IH.
  - destruct (Hidle ts t [] eq_refl) as [-> | E]; [reflexivity|].
    rewrite E. now destruct (num_truthy (num_of_Z 0)).
  - intros p t' rest ->. apply (Hidle p t' (rest ++ [t])%list).
    now rewrite <- app_assoc.
Qed.

End Sums.

Lemma running_total_exact (ts : list (Transaction Ideal.number)) :
  Forall (fun t => exists q, coerced_total t = fin q) ts ->
  running_total ts = fin (Qc_sum (map (fun t => to_Qc (coerced_total t)) ts)) /\
  running_total ts = sum_totals ts.
Proof.
  intros Hfin.
  assert (Hsum : forall p, Forall (fun t => exists q, coerced_total t = fin q) p ->
            sum_totals p = fin (Qc_sum (map (fun t => to_Qc (coerced_total t)) p))).
  { intros p Hp. unfold sum_totals. change (num_of_Z 0) with (fin 0).
    rewrite (fold_left_add_fin coerced_total p 0 Hp). f_equal. ring. }
  assert (E : running_total ts = sum_totals ts).
  { apply running_total_sum_totals. intros p t rest ->.
    apply Forall_app in Hfin. destruct Hfin as [Hp _].
    rewrite (Hsum p Hp).
    set (q := Qc_sum _).
    change (num_truthy (fin q)) with (negb (Ideal.Qc_eqb q 0)).
    destruct (Ideal.Qc_eqb q 0) eqn:Hq; [right|now left].
    apply Qc_eqb_eq in Hq. now rewrite Hq. }
  split; [|exact E]. rewrite E. now apply Hsum.
Qed.

Section Aggregates.
Context {N : Number}.
Implicit Types (t : Transaction N) (txs : list (Transaction N)).

Lemma transactions_of_In k txs t :
  In t (transactions_of k txs) <->
  In t txs /\ has_employee t = true /\ transaction_key t = k.
Proof.
  unfold transactions_of. rewrite filter_In, andb_true_iff, String.eqb_eq. tauto.
Qed.

Lemma days_of_In (ts : list (Transaction N)) t :
  In t ts -> transaction_day t ∈ days_of ts.
Proof.
  intros Hin. unfold days_of. apply elem_of_list_to_set, list_elem_of_In, in_map, Hin.
Qed.

Lemma entry_of_shiftsCount txs k :
  (exists t, In t txs /\ has_employee t = true /\ transaction_key t = k) ->
  (1 <= data_shiftsCount (entry_of txs k))%nat.
Proof.
  intros (t & Ht). apply transactions_of_In in Ht. apply days_of_In in Ht. cbn.
  assert (size (days_of (transactions_of k txs)) <> 0%nat); [|lia].
  apply size_non_empty_iff. intros E. rewrite E in Ht. now apply not_elem_of_empty in Ht.
Qed.

Lemma employeeRevenue_timestamps txs res t :
  employeeRevenue txs = Returns res ->
  In t txs -> has_employee t = true -> has_timestamp t = true.
Proof.
  intros Hres Hin He. destruct (has_timestamp t) eqn:Hd; [reflexivity|].
  unfold employeeRevenue in Hres.
  rewrite (forEach_throws txs _ t Hin He Hd) in Hres. discriminate Hres.
Qed.

Lemma NoDup_singleton_iff (a : string) (ks : list string) :
  NoDup ks -> (forall k, In k ks <-> k = a) -> ks = [a].
Proof.
  intros Hnd Hks. destruct ks as [|k ks].
  - destruct (proj2 (Hks a) eq_refl).
  - assert (k = a) as -> by (apply Hks; now left).
    destruct ks as [|k' ks]; [reflexivity|].
    assert (k' = a) as -> by (apply Hks; right; now left).
    apply NoDup_cons in Hnd. destruct Hnd as [Hnotin _].
    exfalso. apply Hnotin. now left.
Qed.

Lemma NoDup_map_parseInt (ks : list string) :
  NoDup ks -> (forall k, In k ks -> exists z, k = Z_toString z) ->
  NoDup (map parseInt ks).
Proof.
  induction ks as [|k ks IH]; intros Hnd Hint; cbn; [constructor|].
  apply NoDup_cons in Hnd. destruct Hnd as [Hnotin Hnd].
  apply NoDup_cons. split.
  - intros Hin. apply list_elem_of_In, in_map_iff in Hin. destruct Hin as (k' & Hk' & Hin).
    destruct (Hint k (or_introl eq_refl)) as [z ->].
    destruct (Hint k' (or_intror Hin)) as [z' ->].
    rewrite !parseInt_Z_toString in Hk'. injection Hk' as ->.
    apply Hnotin. now apply list_elem_of_In.
  - apply IH; [exact Hnd|]. intros k' Hk'. apply Hint. now right.
Qed.

End Aggregates.


Section Sale.
Context {N : Number}.

Lemma sale_has_employee (id : IdVal) (date total : string) :
  id_truthy id = true ->
  has_employee (N := N) (sale id date total) = true /\
  transaction_key (N := N) (sale id date total) = id_key id.
Proof.
  intros H. unfold has_employee, transaction_key, transaction_employeeId, sale, id_or.
  cbn. now rewrite H.
Qed.

Lemma sale_day (id : IdVal) (day time total : string) :
  has_space day = false ->
  has_timestamp (N := N) (sale id (day ++ " " ++ time) total) = true /\
  transaction_day (N := N) (sale id (day ++ " " ++ time) total) = day.
Proof.
  intros H. unfold has_timestamp, transaction_day, sale, js_or. cbn.
  assert (E : String.eqb (day ++ " " ++ time) "" = false) by now destruct day.
  rewrite E. cbn. split; [reflexivity|]. now apply before_space_timestamp.
Qed.

Lemma coerced_total_missing (t : Transaction N) :
  truthy (transaction_total t) = false -> coerced_total t = num_of_Z 0.
Proof. unfold coerced_total, js_or. now intros ->. Qed.

Lemma coerced_total_text (id : IdVal) (date : string) :
  coerced_total (N := N) (sale id date "abc") = NaN.
Proof. reflexivity. Qed.

End Sale.


(** C9, on the code: a total that is missing or falsy counts as 0 and the
    aggregation never throws because of a total, but a total that is a
    string without a number in front is not treated as 0: [parseFloat]
    makes it NaN.  The revenue of an employee with the single total "abc"
    is NaN, and with the totals 10, "abc" and 5 it is 5, not 15. *)
Theorem text_total_is_NaN :
  (forall (N : Number) (t : Transaction N),
     truthy (transaction_total t) = false -> coerced_total t = num_of_Z 0) /\
  (forall (N : Number) (txs : list (Transaction N)),
     (forall t, In t txs -> has_employee t = true -> has_timestamp t = true) ->
     exists res, employeeRevenue txs = Returns res) /\
  (forall (N : Number) (id : IdVal) (date : string),
     coerced_total (N := N) (sale id date "abc") = NaN) /\
  employeeRevenue (N := Float64.number) [ sale (IdInt 1) "2023-02-01 12:30:00" "abc" ]
  = Returns [ {| data_employeeId := Some 1; data_revenue := f64 nan; data_shiftsCount := 1 |} ] /\
  employeeRevenue (N := Float64.number) sales_with_text
  = Returns [ {| data_employeeId := Some 1; data_revenue := f64 5; data_shiftsCount := 2 |} ].
Proof.
  refine (conj _ (conj _ (conj _ (conj _ _)))).
  - intros N t. apply coerced_total_missing.
  - intros N txs. apply employeeRevenue_total.
  - intros N id date. apply coerced_total_text.
  - reflexivity.
  - reflexivity.
Qed.



(** ** 12. The order of the report *)

Local Open Scope Z_scope.

(** *** The order of the binary64 values *)

Lemma SFcompare_rank (x y : spec_float) :
  x <> S754_nan -> y <> S754_nan ->
  match SFcompare x y with
  | Some Lt => rank_lt (rank x) (rank y)
  | Some Eq => rank x = rank y
  | Some Gt => rank_lt (rank y) (rank x)
  | None => False
  end.
Proof.
  intros Hx Hy.
  destruct x as [sx|sx| |sx mx ex], y as [sy|sy| |sy my ey]; try congruence;
    cbn; try (destruct sx); try (destruct sy); cbn; try lia; try reflexivity;
    (destruct (Z.compare_spec ex ey);
     [subst; rewrite ?Pos.compare_cont_spec; cbn;
      destruct (Pos.compare_spec mx my); cbn; subst; try reflexivity; lia
     | lia | lia]).
Qed.

Lemma SFcompare_nan (x y : spec_float) :
  SFcompare x y = None <-> x = S754_nan \/ y = S754_nan.
Proof.
  destruct x as [sx|sx| |sx mx ex], y as [sy|sy| |sy my ey]; cbn;
    intuition (try discriminate; try congruence).
Qed.

Ltac rank_solve :=
  unfold SFltb, SFleb, SFeqb in *;
  repeat match goal with
         | H : context [SFcompare ?x ?y] |- _ => destruct (SFcompare x y) as [[]|]
         | |- context [SFcompare ?x ?y] => destruct (SFcompare x y) as [[]|]
         end;
  try discriminate; try reflexivity; try contradiction;
  repeat match goal with
         | |- context [rank ?x] => destruct (rank x) as [[? ?] ?]
         | H : context [rank ?x] |- _ => destruct (rank x) as [[? ?] ?]
         end;
  unfold rank_lt in *;
  repeat match goal with H : (_, _, _) = (_, _, _) |- _ => injection H as ? ? ? end;
  exfalso; lia.

Section SpecOrder.
Variables a b c : spec_float.
Hypotheses (Ha : a <> S754_nan) (Hb : b <> S754_nan) (Hc : c <> S754_nan).

Lemma SF_le_of_not_lt : SFltb a b = false -> SFleb b a = true.
Proof.
  intros H. pose proof (SFcompare_rank a b Ha Hb). pose proof (SFcompare_rank b a Hb Ha).
  rank_solve.
Qed.

Lemma SF_le_of_lt : SFltb a b = true -> SFleb a b = true.
Proof. intros H. pose proof (SFcompare_rank a b Ha Hb). rank_solve. Qed.

Lemma SF_le_trans : SFleb a b = true -> SFleb b c = true -> SFleb a c = true.
Proof.
  intros H H'. pose proof (SFcompare_rank a b Ha Hb). pose proof (SFcompare_rank b c Hb Hc).
  pose proof (SFcompare_rank a c Ha Hc). rank_solve.
Qed.

Lemma SF_ne_of_lt : SFeqb a c = true -> SFltb a b = true -> SFeqb b c = false.
Proof.
  intros H H'. pose proof (SFcompare_rank a b Ha Hb). pose proof (SFcompare_rank b c Hb Hc).
  pose proof (SFcompare_rank a c Ha Hc). rank_solve.
Qed.

Lemma SF_eq_refl : SFeqb a a = true.
Proof. pose proof (SFcompare_rank a a Ha Ha). rank_solve. Qed.

End SpecOrder.

(** *** The sign of a difference *)

Lemma digits2_pos_bounds (p : positive) :
  2 ^ (Zpos (digits2_pos p) - 1) <= Zpos p < 2 ^ Zpos (digits2_pos p).
Proof.
  induction p as [p IH|p IH|]; cbn [digits2_pos].
  - rewrite Pos2Z.inj_succ.
    replace (Z.succ (Zpos (digits2_pos p)) - 1) with (Z.succ (Zpos (digits2_pos p) - 1)) by lia.
    rewrite !Z.pow_succ_r by lia. lia.
  - rewrite Pos2Z.inj_succ.
    replace (Z.succ (Zpos (digits2_pos p)) - 1) with (Z.succ (Zpos (digits2_pos p) - 1)) by lia.
    rewrite !Z.pow_succ_r by lia. lia.
  - cbn. lia.
Qed.

Lemma shr_1_m (mrs : shr_record) :
  0 <= shr_m mrs -> shr_m (shr_1 mrs) = shr_m mrs / 2.
Proof.
  destruct mrs as [m r s]. cbn [shr_m]. intros Hm. unfold shr_1.
  destruct m as [|[p|p|]|p]; cbn [shr_m].
  - reflexivity.
  - apply Z.div_unique with 1; lia.
  - apply Z.div_unique with 0; lia.
  - reflexivity.
  - lia.
Qed.

Lemma pow2_xO (p : positive) : 2 ^ Zpos p~0 = 2 ^ Zpos p * 2 ^ Zpos p.
Proof. rewrite Pos2Z.inj_xO, <- Z.pow_add_r by lia. f_equal. lia. Qed.

Lemma pow2_xI (p : positive) : 2 ^ Zpos p~1 = 2 * (2 ^ Zpos p * 2 ^ Zpos p).
Proof.
  rewrite Pos2Z.inj_xI, <- Z.pow_add_r by lia.
  replace (2 * Zpos p + 1) with (Z.succ (Zpos p + Zpos p)) by lia.
  now rewrite Z.pow_succ_r by lia.
Qed.

Lemma iter_shr_1_m (p : positive) (mrs : shr_record) :
  0 <= shr_m mrs -> shr_m (SpecFloat.iter_pos shr_1 p mrs) = shr_m mrs / 2 ^ Zpos p.
Proof.
  revert mrs. induction p as [p IH|p IH|]; intros mrs Hm; cbn [SpecFloat.iter_pos].
  - assert (H1 : 0 <= shr_m (shr_1 mrs)) by (rewrite shr_1_m by lia; apply Z.div_pos; lia).
    assert (H2 : 0 <= shr_m (SpecFloat.iter_pos shr_1 p (shr_1 mrs)))
      by (rewrite IH by lia; apply Z.div_pos; lia).
    rewrite IH, IH, shr_1_m by lia.
    rewrite !Z.div_div by lia. now rewrite pow2_xI, Z.mul_assoc.
  - assert (H2 : 0 <= shr_m (SpecFloat.iter_pos shr_1 p mrs))
      by (rewrite IH by lia; apply Z.div_pos; lia).
    rewrite IH, IH by lia. rewrite Z.div_div by lia. now rewrite pow2_xO.
  - rewrite shr_1_m by lia. now rewrite Z.pow_1_r.
Qed.

Lemma shr_record_of_loc_m (m : Z) (l : location) : shr_m (shr_record_of_loc m l) = m.
Proof. destruct l as [|[]]; reflexivity. Qed.

(** Rounding a positive mantissa at an exponent that is at least [emin]
    leaves a positive mantissa. *)
Lemma shr_fexp_positive (m e : Z) (l : location) :
  0 < m -> emin <= e ->
  0 < shr_m (fst (shr_fexp prec emax m e l)) /\ emin <= snd (shr_fexp prec emax m e l).
Proof.
  intros Hm He. unfold shr_fexp, shr.
  destruct m as [|p|p]; try lia. cbn [Zdigits2].
  pose proof (digits2_pos_bounds p) as [Hlo _].
  set (d := Zpos (digits2_pos p)) in *.
  unfold fexp. change (SpecFloat.emin prec emax) with emin.
  destruct (Z.max (d + e - prec) emin - e) as [|n|n] eqn:En; cbn [fst snd].
  - rewrite shr_record_of_loc_m. lia.
  - rewrite iter_shr_1_m by (rewrite shr_record_of_loc_m; lia).
    rewrite shr_record_of_loc_m. split; [|lia].
    apply Z.div_str_pos. split; [lia|].
    assert (Zpos n <= d - 1) by (unfold prec in *; lia).
    eapply Z.le_trans; [|exact Hlo]. apply Z.pow_le_mono_r; lia.
  - rewrite shr_record_of_loc_m. lia.
Qed.

Lemma round_nearest_even_positive (m : Z) (l : location) :
  0 < m -> 0 < round_nearest_even m l.
Proof.
  intros Hm. unfold round_nearest_even.
  destruct l as [|[]]; try lia. destruct (Z.even m); lia.
Qed.

(** A number rounded from a mantissa that is not zero is not zero, and it
    has the sign it was given. *)
Lemma binary_round_aux_sign (s : bool) (m e : Z) (l : location) :
  0 < m -> emin <= e ->
  SFltb (S754_zero false) (binary_round_aux prec emax s m e l) = negb s.
Proof.
  intros Hm He. unfold binary_round_aux.
  destruct (shr_fexp_positive m e l Hm He) as [Hm1 He1].
  destruct (shr_fexp prec emax m e l) as [mrs1 e1]. cbn [fst snd] in *.
  pose proof (round_nearest_even_positive (shr_m mrs1) (loc_of_shr_record mrs1) Hm1) as Hm2.
  destruct (shr_fexp_positive _ e1 loc_Exact Hm2 He1) as [Hm3 _].
  destruct (shr_fexp prec emax _ e1 loc_Exact) as [mrs2 e2]. cbn [fst snd] in *.
  destruct (shr_m mrs2) as [|p|p]; try lia.
  destruct (e2 <=? emax - prec); now destruct s.
Qed.

Lemma fexp_emin (k : Z) : emin <= fexp prec emax k.
Proof. unfold fexp. change (SpecFloat.emin prec emax) with emin. lia. Qed.

Lemma binary_round_sign (s : bool) (m : positive) (e : Z) :
  emin <= e ->
  SFltb (S754_zero false) (binary_round prec emax s m e) = negb s.
Proof.
  intros He. unfold binary_round, shl_align.
  pose proof (fexp_emin (Zpos (digits2_pos m) + e)) as Hf.
  destruct (fexp prec emax (Zpos (digits2_pos m) + e) - e) as [|d|d] eqn:Ed;
    apply binary_round_aux_sign; lia.
Qed.

Lemma binary_normalize_sign (m e : Z) :
  emin <= e ->
  SFltb (S754_zero false) (binary_normalize prec emax m e false) = (0 <? m).
Proof.
  intros He. destruct m as [|p|p]; cbn [binary_normalize]; [reflexivity| |];
    now rewrite binary_round_sign.
Qed.

Lemma iter_xO_pow2 (m k : positive) : Zpos (Pos.iter xO m k) = Zpos m * 2 ^ Zpos k.
Proof.
  induction k as [|k IH] using Pos.peano_ind.
  - cbn. lia.
  - rewrite Pos.iter_succ, Pos2Z.inj_xO, IH, Pos2Z.inj_succ, Z.pow_succ_r by lia. lia.
Qed.

(** The mantissa of [m * 2^e] written at the exponent [ez <= e]. *)
Lemma shl_align_value (m : positive) (e ez : Z) :
  ez <= e -> Zpos (fst (shl_align m e ez)) = Zpos m * 2 ^ (e - ez).
Proof.
  intros Hle. unfold shl_align. destruct (ez - e) as [|d|d] eqn:Ed; cbn [fst].
  - replace (e - ez) with 0 by lia. cbn. lia.
  - lia.
  - rewrite iter_xO_pow2. f_equal. f_equal. lia.
Qed.

Lemma bounded_inv (m : positive) (e : Z) :
  bounded prec emax m e = true ->
  emin <= e /\ Zpos m < 2 ^ 53 /\ (emin < e -> 2 ^ 52 <= Zpos m).
Proof.
  unfold bounded, canonical_mantissa, fexp. change (SpecFloat.emin prec emax) with emin.
  intros H. apply andb_true_iff in H. destruct H as [H _]. apply Z.eqb_eq in H.
  pose proof (digits2_pos_bounds m) as [Hlo Hhi].
  set (d := Zpos (digits2_pos m)) in *.
  assert (Hd : d <= 53) by (unfold prec in *; lia).
  repeat split.
  - lia.
  - eapply Z.lt_le_trans; [exact Hhi|]. apply Z.pow_le_mono_r; lia.
  - intros He. assert (d = 53) as Hd' by (unfold prec in *; lia).
    rewrite Hd' in Hlo. exact Hlo.
Qed.

Lemma aligned_lt_exponent (ma mb : positive) (ea eb ez : Z) :
  bounded prec emax ma ea = true -> bounded prec emax mb eb = true ->
  ez <= ea -> ea < eb -> Zpos ma * 2 ^ (ea - ez) < Zpos mb * 2 ^ (eb - ez).
Proof.
  intros Va Vb Hza Hlt. destruct (bounded_inv ma ea Va) as (Hea & Hma & _).
  destruct (bounded_inv mb eb Vb) as (_ & _ & Hmb). specialize (Hmb ltac:(lia)).
  replace (eb - ez) with ((eb - ea) + (ea - ez)) by lia.
  rewrite Z.pow_add_r by lia.
  assert (HP : 0 < 2 ^ (ea - ez)) by (apply Z.pow_pos_nonneg; lia).
  assert (HQ : 2 ^ 1 <= 2 ^ (eb - ea)) by (apply Z.pow_le_mono_r; lia).
  change (2 ^ 1) with 2 in HQ. change (2 ^ 53) with 9007199254740992 in Hma.
  change (2 ^ 52) with 4503599627370496 in Hmb.
  set (P := 2 ^ (ea - ez)) in *. set (Q := 2 ^ (eb - ea)) in *.
  assert (Zpos ma * P < 9007199254740992 * P) by (apply Z.mul_lt_mono_pos_r; lia).
  assert (9007199254740992 * P <= Zpos mb * Q * P).
  { apply Z.mul_le_mono_nonneg_r; [lia|].
    replace 9007199254740992 with (4503599627370496 * 2) by reflexivity.
    apply Z.mul_le_mono_nonneg; lia. }
  lia.
Qed.

Lemma aligned_lt_mantissa (ma mb : positive) (e ez : Z) :
  ez <= e -> (Zpos ma * 2 ^ (e - ez) < Zpos mb * 2 ^ (e - ez) <-> (ma < mb)%positive).
Proof.
  intros Hz. assert (HP : 0 < 2 ^ (e - ez)) by (apply Z.pow_pos_nonneg; lia).
  rewrite <- Z.mul_lt_mono_pos_r by exact HP. reflexivity.
Qed.

Lemma SFsub_sign_finite (sx sy : bool) (mx my : positive) (ex ey : Z) :
  bounded prec emax mx ex = true -> bounded prec emax my ey = true ->
  SFltb (S754_zero false) (SFsub prec emax (S754_finite sx mx ex) (S754_finite sy my ey))
  = SFltb (S754_finite sy my ey) (S754_finite sx mx ex).
Proof.
  intros Vx Vy. cbn [SFsub].
  destruct (bounded_inv mx ex Vx) as (Hex & _). destruct (bounded_inv my ey Vy) as (Hey & _).
  set (ez := Z.min ex ey).
  assert (Hzx : ez <= ex) by (unfold ez; lia).
  assert (Hzy : ez <= ey) by (unfold ez; lia).
  rewrite binary_normalize_sign by (unfold ez; lia).
  rewrite !shl_align_value by assumption.
  pose proof (aligned_lt_exponent mx my ex ey ez Vx Vy Hzx) as Hxy.
  pose proof (aligned_lt_exponent my mx ey ex ez Vy Vx Hzy) as Hyx.
  assert (Px : 0 < Zpos mx * 2 ^ (ex - ez)) by (apply Z.mul_pos_pos; [lia|apply Z.pow_pos_nonneg; lia]).
  assert (Py : 0 < Zpos my * 2 ^ (ey - ez)) by (apply Z.mul_pos_pos; [lia|apply Z.pow_pos_nonneg; lia]).
  unfold SFltb, SFcompare.
  destruct (Z.compare_spec ey ex) as [E|E|E].
  - subst ey. pose proof (aligned_lt_mantissa mx my ex ez Hzx) as Mxy.
    pose proof (aligned_lt_mantissa my mx ex ez Hzx) as Myx.
    change (Pos.compare_cont Eq my mx) with (Pos.compare my mx).
    set (X := Zpos mx * 2 ^ (ex - ez)) in *. set (Y := Zpos my * 2 ^ (ex - ez)) in *.
    destruct (Pos.compare_spec my mx) as [M|M|M]; cbn [CompOpp].
    + subst my. destruct sx, sy; cbn [cond_Zopp];
        try (apply Z.ltb_lt; lia); apply Z.ltb_ge; lia.
    + apply Myx in M. destruct sx, sy; cbn [cond_Zopp];
        try (apply Z.ltb_lt; lia); apply Z.ltb_ge; lia.
    + apply Mxy in M. destruct sx, sy; cbn [cond_Zopp];
        try (apply Z.ltb_lt; lia); apply Z.ltb_ge; lia.
  - specialize (Hyx E).
    set (X := Zpos mx * 2 ^ (ex - ez)) in *. set (Y := Zpos my * 2 ^ (ey - ez)) in *.
    destruct sx, sy; cbn [cond_Zopp]; try (apply Z.ltb_lt; lia); apply Z.ltb_ge; lia.
  - specialize (Hxy E).
    set (X := Zpos mx * 2 ^ (ex - ez)) in *. set (Y := Zpos my * 2 ^ (ey - ez)) in *.
    destruct sx, sy; cbn [cond_Zopp]; try (apply Z.ltb_lt; lia); apply Z.ltb_ge; lia.
Qed.

Lemma SFsub_sign (x y : spec_float) :
  valid_binary x = true -> valid_binary y = true ->
  x <> S754_nan -> y <> S754_nan ->
  SFltb (S754_zero false) (SFsub prec emax x y) = SFltb y x.
Proof.
  intros Vx Vy Nx Ny.
  destruct x as [sx|sx| |sx mx ex], y as [sy|sy| |sy my ey]; try congruence;
    try (now apply SFsub_sign_finite);
    repeat match goal with s : bool |- _ => destruct s end; reflexivity.
Qed.

(** *** The order laws at the two instances *)

Lemma SFltb_not_nan (x y : spec_float) :
  SFltb x y = true -> x <> S754_nan /\ y <> S754_nan.
Proof. destruct x, y; cbn; intros H; split; congruence. Qed.

Lemma SFleb_not_nan (x y : spec_float) :
  SFleb x y = true -> x <> S754_nan /\ y <> S754_nan.
Proof. destruct x, y; cbn; intros H; split; congruence. Qed.

Lemma SFeqb_not_nan (x y : spec_float) :
  SFeqb x y = true -> x <> S754_nan /\ y <> S754_nan.
Proof. destruct x, y; cbn; intros H; split; congruence. Qed.

Lemma is_nan_false (x : float) : is_nan x = false -> Prim2SF x <> S754_nan.
Proof.
  unfold is_nan. rewrite FloatAxioms.eqb_spec. intros H.
  apply negb_false_iff in H. now apply SFeqb_not_nan in H.
Qed.

#[global] Instance Float64_order : OrderLaws Float64.number.
Proof.
  split; cbn.
  - intros a b Ha Hb.
    change (PrimFloat.ltb zero (PrimFloat.sub b a) = PrimFloat.ltb a b).
    rewrite !ltb_spec, sub_spec.
    change (Prim2SF zero) with (S754_zero false).
    apply SFsub_sign; auto using Prim2SF_valid, is_nan_false.
  - intros a b Ha Hb. rewrite ltb_spec, leb_spec.
    apply SF_le_of_not_lt; auto using is_nan_false.
  - intros a b. rewrite ltb_spec, leb_spec. intros H.
    destruct (SFltb_not_nan _ _ H). now apply SF_le_of_lt.
  - intros a b c. rewrite !leb_spec. intros H H'.
    destruct (SFleb_not_nan _ _ H), (SFleb_not_nan _ _ H').
    now apply SF_le_trans with (Prim2SF b).
  - intros a b v. rewrite !FloatAxioms.eqb_spec, ltb_spec. intros H H'.
    destruct (SFeqb_not_nan _ _ H), (SFltb_not_nan _ _ H').
    now apply SF_ne_of_lt with (Prim2SF a).
Qed.

Lemma Qc_leb_ltb (p q : Qc) : Ideal.Qc_leb p q = negb (Ideal.Qc_ltb q p).
Proof. unfold Ideal.Qc_ltb, Ideal.Qc_leb. now rewrite negb_involutive. Qed.

Lemma Qc_ltb_sub (p q : Qc) : Ideal.Qc_ltb 0 (q + - p)%Qc = Ideal.Qc_ltb p q.
Proof.
  apply eq_true_iff_eq. rewrite !Qc_ltb_lt. split; intros H.
  - apply Qclt_minus_iff. exact H.
  - apply Qclt_minus_iff in H. exact H.
Qed.

#[global] Instance Ideal_order : OrderLaws Ideal.number.
Proof.
  split.
  - intros [|[]|p] [|[]|q]; try discriminate; intros _ _; try reflexivity.
    apply Qc_ltb_sub.
  - intros [|[]|p] [|[]|q]; try discriminate; intros _ _; cbn;
      try discriminate; try reflexivity.
    rewrite Qc_leb_ltb. now intros ->.
  - intros [|[]|p] [|[]|q]; cbn; try discriminate; try reflexivity.
    rewrite Qc_ltb_lt, Qc_leb_le. apply Qclt_le_weak.
  - intros [|[]|p] [|[]|q] [|[]|r]; cbn; try discriminate; try reflexivity.
    rewrite !Qc_leb_le. apply Qcle_trans.
  - intros [|[]|p] [|[]|q] [|[]|v]; cbn; try discriminate; try reflexivity.
    rewrite Qc_eqb_eq, Qc_ltb_lt. intros -> Hlt.
    apply not_true_iff_false. rewrite Qc_eqb_eq. intros ->.
    now apply Qclt_not_eq in Hlt.
Qed.

(** *** The sort by [b.totalSalary - a.totalSalary] *)

Section StableSort.
Context {N : Number} {O : OrderLaws N} {A : Type}.
Variable key : A -> num.
Let comparefn (a b : A) : num := (key b - key a)%js.
Let ok (a : A) : Prop := isNaN (key a) = false.

Lemma goes_after_lt (x y : A) :
  ok x -> ok y -> goes_after comparefn x y = (key x <? key y)%js.
Proof. intros Hx Hy. unfold goes_after, comparefn. now apply sub_pos. Qed.

Lemma sort_insert_sorted (x : A) (l : list A) :
  ok x -> Forall ok l ->
  StronglySorted (descending key) l ->
  StronglySorted (descending key) (sort_insert comparefn x l).
Proof.
  intros Hx Hl Hs. induction l as [|y l IH]; cbn.
  - repeat constructor.
  - apply Forall_cons in Hl. destruct Hl as [Hy Hl].
    apply StronglySorted_inv in Hs. destruct Hs as [Hs Hyl].
    rewrite goes_after_lt by assumption.
    destruct (key x <? key y)%js eqn:E.
    + constructor; [now apply IH|].
      rewrite List.Forall_forall. intros z Hz.
      apply (Permutation_in _ (sort_insert_Permutation comparefn x l)) in Hz.
      destruct Hz as [<-|Hz].
      * now apply le_of_lt.
      * rewrite List.Forall_forall in Hyl. now apply Hyl.
    + assert (Hyx : descending key x y) by now apply le_of_not_lt.
      constructor; [now constructor|].
      constructor; [exact Hyx|].
      rewrite List.Forall_forall in Hyl |- *. intros z Hz.
      unfold descending in *. eapply le_trans; [now apply Hyl|exact Hyx].
Qed.

Lemma Array_sort_sorted (l : list A) :
  Forall ok l -> StronglySorted (descending key) (Array_sort comparefn l).
Proof.
  induction l as [|x l IH]; intros Hl; cbn; [constructor|].
  apply Forall_cons in Hl. destruct Hl as [Hx Hl].
  apply sort_insert_sorted; [exact Hx| |now apply IH].
  rewrite (Array_sort_Permutation comparefn l). exact Hl.
Qed.

Lemma sort_insert_stable (v : num) (x : A) (l : list A) :
  ok x -> Forall ok l ->
  List.filter (has_key key v) (sort_insert comparefn x l)
  = List.filter (has_key key v) (x :: l).
Proof.
  intros Hx Hl. induction l as [|y l IH]; [reflexivity|].
  apply Forall_cons in Hl. destruct Hl as [Hy Hl]. cbn [sort_insert].
  rewrite goes_after_lt by assumption.
  destruct (key x <? key y)%js eqn:E; [|reflexivity].
  cbn [List.filter] in *. rewrite (IH Hl).
  destruct (has_key key v x) eqn:Ex; [|reflexivity].
  unfold has_key in *. now rewrite (ne_of_lt _ _ _ Ex E).
Qed.

Lemma Array_sort_stable (v : num) (l : list A) :
  Forall ok l ->
  List.filter (has_key key v) (Array_sort comparefn l) = List.filter (has_key key v) l.
Proof.
  induction l as [|x l IH]; intros Hl; [reflexivity|].
  apply Forall_cons in Hl. destruct Hl as [Hx Hl]. cbn [Array_sort fold_right].
  fold (Array_sort comparefn l).
  rewrite sort_insert_stable; [|exact Hx|].
  - cbn [List.filter]. now rewrite IH.
  - rewrite (Array_sort_Permutation comparefn l). exact Hl.
Qed.

End StableSort.


(** *** The employees of the report *)



(** ** 13. Failures, empty inputs and NaN *)

#[global] Instance Float64_NaN : NaNLaws Float64.number.
Proof.
  split.
  - reflexivity.
  - intros x. change (PrimFloat.add nan x = nan).
    rewrite <- (SF2Prim_Prim2SF (PrimFloat.add nan x)), add_spec.
    change (Prim2SF nan) with S754_nan. reflexivity.
  - intros x. change (PrimFloat.add x nan = nan).
    rewrite <- (SF2Prim_Prim2SF (PrimFloat.add x nan)), add_spec.
    change (Prim2SF nan) with S754_nan. now destruct (Prim2SF x).
  - intros x. change (PrimFloat.ltb nan x = false). rewrite ltb_spec.
    change (Prim2SF nan) with S754_nan. reflexivity.
  - intros x. change (PrimFloat.ltb x nan = false). rewrite ltb_spec.
    change (Prim2SF nan) with S754_nan. now destruct (Prim2SF x).
Qed.

#[global] Instance Ideal_NaN : NaNLaws Ideal.number.
Proof. split; try reflexivity; now intros [|[]|q]. Qed.

Section Failures.
Context {N : Number}.

Lemma employeeRevenue_Throws (txs : list (Transaction N)) (e : JsError) :
  employeeRevenue txs = Throws e <->
  e = TypeError /\
  exists t, In t txs /\ has_employee t = true /\ has_timestamp t = false.
Proof.
  split.
  - intros Hthrow.
    destruct (forallb (fun t => implb (has_employee t) (has_timestamp t)) txs) eqn:Hall.
    + rewrite forallb_forall in Hall.
      destruct (employeeRevenue_total txs) as [res Hres].
      * intros t Hin He. specialize (Hall t Hin). now rewrite He in Hall.
      * rewrite Hres in Hthrow. discriminate Hthrow.
    + assert (Hex : exists t, In t txs /\ has_employee t = true /\ has_timestamp t = false).
      { clear Hthrow. induction txs as [|t txs IH]; [discriminate Hall|]. cbn in Hall.
        apply andb_false_iff in Hall. destruct Hall as [Ht|Hall].
        - exists t. split; [now left|].
          destruct (has_employee t), (has_timestamp t); try discriminate Ht; now split.
        - destruct (IH Hall) as (t' & Hin & H'). exists t'. split; [now right|exact H']. }
      split; [|exact Hex]. destruct Hex as (t & Hin & He & Hd).
      unfold employeeRevenue in Hthrow.
      rewrite (forEach_throws txs _ t Hin He Hd) in Hthrow. now injection Hthrow as <-.
  - intros (-> & t & Hin & He & Hd). unfold employeeRevenue.
    now rewrite (forEach_throws txs _ t Hin He Hd).
Qed.

End Failures.


(** X2: [calculateSalaries] throws exactly when the request for the
    employees or [getEmployeeRevenue] throws; what it throws is the
    wrapped error [CalculationError] around one of the two causes.  The
    answer to the inventory request never makes it throw. *)
Theorem calculateSalaries_throws {N : Number} (api : PosterApi N) (params : Params N) :
  (forall e, calculateSalaries api params = Throws e ->
     exists cause, e = CalculationError cause /\
       (getEmployees api = Throws cause \/ getEmployeeRevenue api = Throws cause)) /\
  ((exists e, calculateSalaries api params = Throws e) <->
   (exists cause, getEmployees api = Throws cause) \/
   (exists cause, getEmployeeRevenue api = Throws cause)) /\
  (forall inventory,
     (exists r, calculateSalaries api params = Returns r) <->
     (exists r, calculateSalaries (with_inventory api inventory) params = Returns r)).
Proof.
  split; [|split].
  - intros e. unfold calculateSalaries, rethrow.
    destruct (getEmployees api) as [employees|c1]; cbn.
    + destruct (getEmployeeRevenue api) as [revenueData|c2]; cbn; [discriminate|].
      intros [= <-]. eauto.
    + intros [= <-]. eauto.
  - unfold calculateSalaries, rethrow.
    destruct (getEmployees api) as [employees|c1]; cbn.
    + destruct (getEmployeeRevenue api) as [revenueData|c2]; cbn.
      * split; [intros [e He]; discriminate He|].
        intros [[c Hc]|[c Hc]]; discriminate Hc.
      * split; eauto.
    + split; eauto.
  - intros inventory. unfold calculateSalaries, rethrow, getEmployees, getEmployeeRevenue,
      getTransactions. cbn [with_inventory access_getEmployees dash_getTransactions].
    destruct (makeRequest "access.getEmployees" (access_getEmployees api)); cbn;
      [|split; intros [r Hr]; discriminate Hr].
    destruct (makeRequest "dash.getTransactions" (dash_getTransactions api)); cbn;
      [|split; intros [r Hr]; discriminate Hr].
    destruct (employeeRevenue _); cbn; split; intros [r Hr]; try discriminate Hr; eauto.
Qed.

Section EmptyReport.
Context {N : Number} {L : NumberLaws N}.

Lemma employeeRevenue_no_employee (txs : list (Transaction N)) :
  (forall t, In t txs -> has_employee t = false) -> employeeRevenue txs = Returns [].
Proof.
  intros Hno. unfold employeeRevenue. rewrite forEach_skips.
  replace (List.filter has_employee txs) with (@nil (Transaction N)); [reflexivity|].
  symmetry. induction txs as [|t txs IH]; [reflexivity|]. cbn.
  rewrite (Hno t (or_introl eq_refl)). apply IH. intros t' Hin. apply Hno. now right.
Qed.

Lemma workingEmployees_no_revenue params employees (inventoryResults : InventoryResults N) :
  workingEmployees params employees [] inventoryResults = [].
Proof.
  unfold workingEmployees, salaryResults.
  induction employees as [|e employees IH]; [reflexivity|]. cbn [map List.filter].
  exact IH.
Qed.

Lemma report_empty params employees revenueData (inventoryResults : InventoryResults N) :
  workingEmployees params employees revenueData inventoryResults = [] ->
  let r := report params employees revenueData inventoryResults in
  report_employees r = [] /\
  summary_employeesCount (report_summary r) = 0%nat /\
  summary_totalBaseSalary (report_summary r) = num_of_Z 0 /\
  summary_totalRevenueBonus (report_summary r) = num_of_Z 0 /\
  summary_totalInventoryDeduction (report_summary r) = num_of_Z 0 /\
  summary_totalSalary (report_summary r) = num_of_Z 0.
Proof.
  intros Hw. cbn. unfold sum_of. rewrite Hw. cbn.
  repeat split; apply round2_zero.
Qed.

End EmptyReport.

(** X3: when the employee list is empty, or no transaction carries an
    employee identifier (the answer has no transaction at all, say), the
    report has no employee line, counts 0 employees, and its totals of
    base salary, bonus, deduction and salary are 0. *)
Theorem calculateSalaries_without_sales {N : Number} {L : NumberLaws N}
    (api : PosterApi N) (params : Params N) (r : Report N) :
  calculateSalaries api params = Returns r ->
  getEmployees api = Returns [] \/
  (exists txs, getTransactions api = Returns txs /\
               forall t, In t txs -> has_employee t = false) ->
  report_employees r = [] /\
  summary_employeesCount (report_summary r) = 0%nat /\
  summary_totalBaseSalary (report_summary r) = num_of_Z 0 /\
  summary_totalRevenueBonus (report_summary r) = num_of_Z 0 /\
  summary_totalInventoryDeduction (report_summary r) = num_of_Z 0 /\
  summary_totalSalary (report_summary r) = num_of_Z 0.
Proof.
  intros Hr Hcase. apply calculateSalaries_Returns in Hr.
  destruct Hr as (employees & revenueData & Hemp & Hrev & ->).
  apply report_empty. destruct Hcase as [Hnone|(txs & Htxs & Hno)].
  - rewrite Hemp in Hnone. now injection Hnone as ->.
  - unfold getEmployeeRevenue in Hrev. rewrite Htxs in Hrev. cbn in Hrev.
    rewrite (employeeRevenue_no_employee txs Hno) in Hrev. injection Hrev as <-.
    apply workingEmployees_no_revenue.
Qed.

Lemma calculateSalaries_without_sales_witness :
  exists r,
    calculateSalaries (N := Float64.number) api_without_sales (february 500 5) = Returns r /\
    report_employees r = [].
Proof.
  exists ltac:(returned (calculateSalaries (N := Float64.number) api_without_sales
                           (february 500 5))).
  split; [reflexivity|].
  apply (calculateSalaries_without_sales (N := Float64.number)
           api_without_sales (february 500 5)); [reflexivity|].
  right. exists []. split; [reflexivity|]. intros t [].
Defined.

(** X4: the sort loses and repeats nothing, whatever the salaries are
    (NaN included): the employee list of the report is a permutation of
    the lines of the working employees.  The number of employees in the
    summary is its length, which is at most the number of employees the
    API returned. *)
Theorem report_counts_its_employees {N : Number}
    (api : PosterApi N) (params : Params N) (r : Report N)
    (employees : list Employee) (revenueData : list (RevenueData N)) :
  calculateSalaries api params = Returns r ->
  getEmployees api = Returns employees ->
  getEmployeeRevenue api = Returns revenueData ->
  Permutation (report_employees r)
    (workingEmployees params employees revenueData
       (getInventoryResults api (params_inventoryMonth params)
                                (params_inventoryYear params))) /\
  summary_employeesCount (report_summary r) = length (report_employees r) /\
  (length (report_employees r) <= length employees)%nat.
Proof.
  intros Hr Hemp Hrev. apply calculateSalaries_Returns in Hr.
  destruct Hr as (employees' & revenueData' & Hemp' & Hrev' & ->).
  rewrite Hemp in Hemp'. injection Hemp' as <-.
  rewrite Hrev in Hrev'. injection Hrev' as <-.
  cbn [report report_summary summary_employeesCount report_employees].
  split; [apply Array_sort_Permutation|].
  rewrite (Permutation_length (Array_sort_Permutation _ _)). split; [reflexivity|].
  unfold workingEmployees, salaryResults.
  etransitivity; [apply List.filter_length_le|]. now rewrite length_map.
Qed.

Lemma report_counts_its_employees_witness :
  exists r,
    calculateSalaries (N := Float64.number) api_ties (february 500 5) = Returns r /\
    summary_employeesCount (report_summary r) = 3%nat /\
    summary_employeesCount (report_summary r) = length (report_employees r).
Proof.
  exists ltac:(returned (calculateSalaries (N := Float64.number) api_ties (february 500 5))).
  split; [reflexivity|]. split; [reflexivity|].
  apply (report_counts_its_employees (N := Float64.number) api_ties (february 500 5) _
           ltac:(returned (getEmployees (N := Float64.number) api_ties))
           ltac:(returned (getEmployeeRevenue (N := Float64.number) api_ties)));
    reflexivity.
Defined.

Section Lookup.
Context {D V : Type}.
Variables (key : D -> string) (val : D -> V).

Lemma filled_key (l : list D) (m : gmap string V) (k : string) (v : V) :
  filled key val l m !! k = Some v ->
  (exists d, In d l /\ key d = k /\ val d = v) \/ m !! k = Some v.
Proof.
  revert m. induction l as [|d l IH]; intros m H; [now right|].
  unfold filled in *. cbn [fold_left] in H. apply IH in H.
  destruct H as [(d' & Hin & Hk & Hv)|H].
  - left. exists d'. split; [now right|]. now split.
  - destruct (decide (key d = k)) as [Hk|Hne].
    + rewrite <- Hk, lookup_insert_eq in H. injection H as <-.
      left. exists d. split; [now left|]. now split.
    + rewrite lookup_insert_ne in H by exact Hne. now right.
Qed.

End Lookup.

Lemma parsed_key_form (o : option Z) :
  (exists z, parsed_key o = Z_toString z) \/ parsed_key o = "NaN".
Proof. destruct o as [z|]; [left; now exists z|now right]. Qed.



Section BadDifference.
Context {N : Number} {A : NaNLaws N}.

Lemma sum_differences_NaN (revisions : list (Revision N)) (acc : num) :
  fold_left (fun totalLoss revision => (totalLoss + coerced_difference revision)%js)
            revisions NaN = NaN.
Proof. induction revisions as [|x l IH]; [reflexivity|]. cbn. now rewrite NaN_add_l. Qed.

Lemma sum_differences_text (revisions : list (Revision N)) (revision : Revision N) :
  In revision revisions -> coerced_difference revision = NaN ->
  sum_differences revisions = NaN.
Proof.
  intros Hin Hnan.
  change (fold_left (fun totalLoss revision => (totalLoss + coerced_difference revision)%js)
                    revisions (num_of_Z 0) = NaN).
  generalize (num_of_Z 0).
  induction revisions as [|x l IH]; intros acc; [destruct Hin|]. cbn [fold_left].
  destruct Hin as [->|Hin].
  - rewrite Hnan, NaN_add_r. apply (sum_differences_NaN l NaN).
  - now apply IH.
Qed.

End BadDifference.

(** X6: one revision whose difference is not a number makes the total
    loss NaN, and with it the deduction of every employee 0: the
    shortages of the other revisions are not deducted from anybody. *)
Theorem text_difference_cancels_the_deductions {N : Number} {A : NaNLaws N}
    (api : PosterApi N) (month year : option num)
    (revisions : list (Revision N)) (revision : Revision N) :
  storage_getInventoryRevisions api = ResponseData (Some revisions) ->
  In revision revisions ->
  coerced_difference revision = NaN ->
  let inventoryResults := getInventoryResults api month year in
  results_totalLoss inventoryResults = NaN /\
  results_revisionsCount inventoryResults = length revisions /\
  forall revenueData employee,
    inventoryDeduction revenueData inventoryResults employee = num_of_Z 0.
Proof.
  intros Hreq Hin Hnan. unfold getInventoryResults, makeRequest. rewrite Hreq.
  cbv zeta. cbn [response_or_empty results_totalLoss results_revisionsCount].
  rewrite (sum_differences_text revisions revision Hin Hnan).
  repeat split. intros revenueData employee. unfold inventoryDeduction.
  cbn [results_totalLoss]. now rewrite NaN_lt_l.
Qed.

Lemma text_difference_cancels_the_deductions_witness :
  exists r line,
    calculateSalaries (N := Float64.number) api_text_difference (february 500 5) = Returns r /\
    report_employees r = [line] /\ emp_inventoryDeduction line = f64 0 /\
    results_totalLoss (getInventoryResults (N := Float64.number) api_text_difference None None)
    = f64 nan.
Proof.
  exists ltac:(returned (calculateSalaries (N := Float64.number) api_text_difference
                           (february 500 5))).
  eexists. split; [reflexivity|]. split; [reflexivity|]. split; [reflexivity|].
  apply (text_difference_cancels_the_deductions (N := Float64.number)
           api_text_difference None None _ (revision_of "n/a") eq_refl).
  - right. left. reflexivity.
  - reflexivity.
Defined.

Lemma violations_In (rs : list (bool * string)) (message : string) :
  In message (violations rs) <-> In (true, message) rs.
Proof.
  unfold violations. rewrite in_flat_map. split.
  - intros ([[] m] & Hin & Hm); cbn in Hm; [|destruct Hm].
    destruct Hm as [<-|[]]. exact Hin.
  - intros Hin. exists (true, message). split; [exact Hin|now left].
Qed.

(** X7: [validateCalculationParams] lets a shift rate and a revenue
    percent that are NaN pass: NaN is not undefined and no comparison with
    it holds.  A month or a year that is NaN is refused. *)
Theorem validateCalculationParams_NaN {N : Number} {A : NaNLaws N} (params : Params N) :
  let v := validateCalculationParams params in
  (params_shiftRate params = Some NaN -> ~ In "Invalid shift rate" (errors v)) /\
  (params_revenuePercent params = Some NaN ->
   ~ In "Invalid revenue percent (must be 0-100)" (errors v)) /\
  (params_month params = Some NaN -> In "Invalid month (must be 1-12)" (errors v)) /\
  (params_year params = Some NaN -> In "Invalid year" (errors v)).
Proof.
  cbv zeta. rewrite validateCalculationParams_errors.
  rewrite !violations_In. unfold rules. cbn [In]. repeat split.
  - intros ->. cbn [is_undefined ToNumber orb]. rewrite NaN_lt_l.
    intros H. repeat (destruct H as [H|H]; [discriminate H|]). exact H.
  - intros ->. cbn [is_undefined ToNumber orb]. rewrite NaN_lt_l, NaN_lt_r.
    intros H. repeat (destruct H as [H|H]; [discriminate H|]). exact H.
  - intros ->. unfold no_number, num_truthy. rewrite isNaN_NaN. cbn [orb negb]. auto.
  - intros ->. unfold no_number, num_truthy. rewrite isNaN_NaN. cbn [orb negb]. auto 6.
Qed.

Lemma validateCalculationParams_NaN_witness :
  validateCalculationParams (N := Float64.number) february_without_rates
  = {| isValid := true; errors := [] |} /\
  ~ In "Invalid shift rate"
       (errors (validateCalculationParams (N := Float64.number) february_without_rates)).
Proof.
  split; [reflexivity|].
  apply (validateCalculationParams_NaN (N := Float64.number) february_without_rates).
  reflexivity.
Defined.

(** ** 14. The month names, and the bounds of the deduction *)

Lemma Ideal_of_Z_sub (a b : Z) :
  (num_of_Z a - num_of_Z b)%js = @num_of_Z Ideal.number (a - b).
Proof.
  change (Ideal.IFin (Q2Qc (inject_Z a) + - Q2Qc (inject_Z b))%Qc
          = Ideal.IFin (Q2Qc (inject_Z (a - b)))).
  f_equal. apply Qc_is_canon.
  unfold Qcplus, Qcopp. rewrite !Q2Qc_this. unfold Z.sub. rewrite inject_Z_plus, inject_Z_opp.
  reflexivity.
Qed.

Lemma Ideal_of_Z_eqb (a b : Z) :
  (num_of_Z a =? @num_of_Z Ideal.number b)%js = (a =? b)%Z.
Proof.
  change (Ideal.Qc_eqb (Q2Qc (inject_Z a)) (Q2Qc (inject_Z b)) = (a =? b)%Z).
  apply eq_true_iff_eq. rewrite Qc_eqb_eq, Z.eqb_eq. split; [|now intros ->].
  intros H. apply (f_equal this) in H. cbn [this Q2Qc] in H.
  assert (E : (inject_Z a == inject_Z b)%Q) by (rewrite <- (Qred_correct (inject_Z a)), H; apply Qred_correct).
  unfold Qeq in E. cbn in E. lia.
Qed.

Lemma Ideal_array_at (l : list string) (i k : Z) :
  array_at (N := Ideal.number) l i (@num_of_Z Ideal.number k)
  = if (i <=? k) && (k <? i + Z.of_nat (length l))
    then Some (nth (Z.to_nat (k - i)) l "") else None.
Proof.
  revert i. induction l as [|x l IH]; intros i; cbn [array_at length].
  - destruct (Z.leb_spec i k); [|reflexivity]. cbn [andb].
    destruct (Z.ltb_spec k (i + Z.of_nat 0)); [lia|reflexivity].
  - rewrite Ideal_of_Z_eqb. destruct (Z.eqb_spec k i) as [->|Hne].
    + rewrite Z.leb_refl, (proj2 (Z.ltb_lt _ _)) by lia. cbn.
      now replace (i - i) with 0 by lia.
    + rewrite IH.
      destruct (Z.leb_spec (i + 1) k), (Z.leb_spec i k); try lia; cbn [andb];
        [|reflexivity].
      replace (i + 1 + Z.of_nat (length l)) with (i + Z.of_nat (S (length l))) by lia.
      destruct (k <? i + Z.of_nat (S (length l))); [|reflexivity].
      f_equal. replace (Z.to_nat (k - i)) with (S (Z.to_nat (k - (i + 1)))) by lia.
      reflexivity.
Qed.

(** X8: [getMonthName] gives the name of a month from 1 to 12, the one
    at index [month - 1] of the table, and the text for an unknown month
    for every other integer, for NaN and for a month that is undefined. *)
Theorem getMonthName_of_a_month :
  (forall z, 1 <= z <= 12 ->
     getMonthName (N := Float64.number) (Some (num_of_Z z)) = month_name z /\
     In (month_name z) months) /\
  (forall z,
     getMonthName (N := Ideal.number) (Some (num_of_Z z))
     = if (1 <=? z) && (z <=? 12) then month_name z else "Невідомий місяць") /\
  getMonthName (N := Float64.number) None = "Невідомий місяць" /\
  getMonthName (N := Float64.number) (Some NaN) = "Невідомий місяць" /\
  getMonthName (N := Float64.number) (Some (num_of_Z 0)) = "Невідомий місяць" /\
  getMonthName (N := Float64.number) (Some (num_of_Z 13)) = "Невідомий місяць".
Proof.
  split; [|split].
  - intros z Hz.
    assert (H : z = 1 \/ z = 2 \/ z = 3 \/ z = 4 \/ z = 5 \/ z = 6 \/ z = 7 \/ z = 8 \/
                z = 9 \/ z = 10 \/ z = 11 \/ z = 12) by lia.
    repeat (destruct H as [->|H]; [split; [reflexivity|cbn; auto 13]|]).
    subst z. split; [reflexivity|cbn; auto 13].
  - intros z. unfold getMonthName. cbn [ToNumber].
    rewrite Ideal_of_Z_sub, Ideal_array_at. change (Z.of_nat (length months)) with 12.
    destruct (Z.leb_spec 1 z), (Z.leb_spec z 12), (Z.leb_spec 0 (z - 1)),
      (Z.ltb_spec (z - 1) (0 + 12)); try lia; cbn [andb]; try reflexivity.
    unfold month_name. now replace (z - 1 - 0) with (z - 1) by lia.
  - repeat split; reflexivity.
Qed.

Section Bounds.
Local Open Scope Qc_scope.

Lemma Qc_sum_nonneg (l : list Qc) : Forall (fun q => 0 <= q) l -> 0 <= Qc_sum l.
Proof.
  induction 1 as [|q l Hq _ IH]; cbn; [apply Qcle_refl|].
  replace 0 with (0 + 0) by ring. now apply Qcplus_le_compat.
Qed.

Lemma Qc_sum_ge_elem (l : list Qc) (q : Qc) :
  Forall (fun q => 0 <= q) l -> In q l -> q <= Qc_sum l.
Proof.
  induction 1 as [|p l Hp Hl IH]; intros Hin; [destruct Hin|]. cbn.
  destruct Hin as [->|Hin].
  - replace q with (q + 0) at 1 by ring.
    apply Qcplus_le_compat; [apply Qcle_refl|now apply Qc_sum_nonneg].
  - replace q with (0 + q) by ring. apply Qcplus_le_compat; [exact Hp|now apply IH].
Qed.

Variable revenueData : list (RevenueData Ideal.number).
Hypothesis sales : Forall (fun d => exists q, data_revenue d = fin q /\ 0 <= q) revenueData.

Lemma sales_finite : Forall (fun d => exists q, data_revenue d = fin q) revenueData.
Proof. eapply List.Forall_impl; [|exact sales]. intros d (q & Hq & _). eauto. Qed.

Lemma sales_nonneg :
  Forall (fun q => 0 <= q) (map (fun d => to_Qc (data_revenue d)) revenueData).
Proof.
  apply List.Forall_map. eapply List.Forall_impl; [|exact sales].
  intros d (q & -> & Hq). exact Hq.
Qed.

Lemma recorded_bounds (k : string) :
  0 <= recorded revenueData k /\
  recorded revenueData k <= Qc_sum (map (fun d => to_Qc (data_revenue d)) revenueData).
Proof.
  unfold recorded. destruct (revenueMap revenueData !! k) as [r|] eqn:Hr.
  - rewrite revenueMap_filled in Hr. apply filled_some in Hr.
    destruct Hr as [(d & Hin & <-)|Hr]; [|discriminate Hr].
    pose proof sales_nonneg as Hall. split.
    + rewrite Forall_forall in Hall. apply Hall, list_elem_of_In, in_map_iff. eauto.
    + apply Qc_sum_ge_elem; [exact Hall|]. apply in_map_iff. eauto.
  - split; [apply Qcle_refl|]. apply Qc_sum_nonneg, sales_nonneg.
Qed.

End Bounds.



(** ** 15. The calculation for one employee *)

Section StatsFacts.
Context {N : Number}.
Implicit Types (t : Transaction N) (txs : list (Transaction N)).

Lemma dateOnly_Returns t :
  has_timestamp t = true -> transaction_dateOnly t = Returns (transaction_day t).
Proof.
  unfold has_timestamp, transaction_dateOnly, transaction_day, dateOnly.
  now destruct (js_or _ _).
Qed.

Lemma dateOnly_Throws t :
  has_timestamp t = false -> transaction_dateOnly t = Throws TypeError.
Proof.
  unfold has_timestamp, transaction_dateOnly, dateOnly.
  now destruct (js_or _ _).
Qed.

Lemma mapM_dateOnly_Returns txs :
  (forall t, In t txs -> has_timestamp t = true) ->
  mapM transaction_dateOnly txs = Returns (map transaction_day txs).
Proof.
  induction txs as [|t txs IH]; intros Hts; [reflexivity|]. cbn.
  rewrite (dateOnly_Returns t) by (apply Hts; now left).
  rewrite IH by (intros t' Hin; apply Hts; now right). reflexivity.
Qed.

Lemma mapM_dateOnly_Throws txs t :
  In t txs -> has_timestamp t = false ->
  mapM transaction_dateOnly txs = Throws TypeError.
Proof.
  induction txs as [|t0 txs IH]; intros Hin Hd; [destruct Hin|]. cbn.
  destruct (has_timestamp t0) eqn:Hd0.
  - rewrite (dateOnly_Returns t0 Hd0). cbn.
    destruct Hin as [->|Hin]; [congruence|]. now rewrite IH.
  - now rewrite (dateOnly_Throws t0 Hd0).
Qed.

Lemma all_timestamps_dec txs :
  (forall t, In t txs -> has_timestamp t = true) \/
  (exists t, In t txs /\ has_timestamp t = false).
Proof.
  induction txs as [|t txs [IH|(t' & Hin & Hd)]].
  - left. intros t [].
  - destruct (has_timestamp t) eqn:Hd.
    + left. intros t' [<-|Hin]; auto.
    + right. exists t. split; [now left|exact Hd].
  - right. exists t'. split; [now right|exact Hd].
Qed.

Lemma size_list_to_set_le (l : list string) :
  (size (list_to_set l : gset string) <= length l)%nat.
Proof.
  induction l as [|x l IH]; cbn [list_to_set length].
  - now rewrite size_empty.
  - rewrite size_union_alt, size_singleton.
    assert (size (list_to_set l ∖ {[x]} : gset string) <= size (list_to_set l : gset string))%nat
      by (apply subseteq_size, subseteq_difference_l; reflexivity).
    lia.
Qed.

Lemma size_list_to_set_zero (l : list string) :
  size (list_to_set l : gset string) = 0%nat <-> l = [].
Proof.
  split; [|now intros ->].
  intros H. apply size_empty_inv in H. destruct l as [|x l]; [reflexivity|].
  exfalso. apply (not_elem_of_empty (C := gset string) x). rewrite <- H.
  apply elem_of_list_to_set, list_elem_of_In. now left.
Qed.

Lemma employeeStats_Returns (employeeId : IdVal) txs (stats : EmployeeStats N) :
  employeeStats employeeId txs = Returns stats <->
  (forall t, In t txs -> is_of employeeId t = true -> has_timestamp t = true) /\
  stats = {| stats_employeeId := employeeId;
             stats_revenue := sum_totals (List.filter (is_of employeeId) txs);
             stats_shiftsCount := size (days_of (List.filter (is_of employeeId) txs));
             stats_transactionsCount := length (List.filter (is_of employeeId) txs) |}.
Proof.
  unfold employeeStats. cbv zeta.
  destruct (all_timestamps_dec (List.filter (is_of employeeId) txs)) as [Hall|(t & Hin & Hd)].
  - rewrite (mapM_dateOnly_Returns _ Hall). cbn. split.
    + intros [= <-]. split; [|reflexivity].
      intros t Hin Hof. apply Hall, filter_In. now split.
    + intros [_ ->]. reflexivity.
  - rewrite (mapM_dateOnly_Throws _ t Hin Hd). cbn. split; [discriminate|].
    intros [Hall _]. apply filter_In in Hin. destruct Hin as [Hin Hof].
    rewrite (Hall t Hin Hof) in Hd. discriminate Hd.
Qed.

Lemma employeeStats_Throws (employeeId : IdVal) txs (e : JsError) :
  employeeStats employeeId txs = Throws e <->
  e = TypeError /\
  exists t, In t txs /\ is_of employeeId t = true /\ has_timestamp t = false.
Proof.
  unfold employeeStats. cbv zeta.
  destruct (all_timestamps_dec (List.filter (is_of employeeId) txs)) as [Hall|(t & Hin & Hd)].
  - rewrite (mapM_dateOnly_Returns _ Hall). cbn. split; [discriminate|].
    intros (_ & t & Hin & Hof & Hd).
    rewrite (Hall t) in Hd; [discriminate Hd|]. apply filter_In. now split.
  - rewrite (mapM_dateOnly_Throws _ t Hin Hd). cbn.
    apply filter_In in Hin. destruct Hin as [Hin Hof]. split.
    + intros [= <-]. split; [reflexivity|]. eauto.
    + now intros [-> _].
Qed.

End StatsFacts.

(** X10: the statistics of an employee count the transactions whose
    [user_id] or [staff_id] is strictly equal to the identifier; the
    shifts are at most as many as these transactions, and there is no
    shift exactly when there is no such transaction, in which case the
    revenue is 0. *)
Theorem getEmployeeStats_counts {N : Number}
    (api : PosterApi N) (employeeId : IdVal) (stats : EmployeeStats N) :
  getEmployeeStats api employeeId = Returns stats ->
  exists txs,
    getTransactions api = Returns txs /\
    stats_employeeId stats = employeeId /\
    stats_transactionsCount stats = length (List.filter (is_of employeeId) txs) /\
    (stats_shiftsCount stats <= stats_transactionsCount stats)%nat /\
    (stats_shiftsCount stats = 0%nat <-> stats_transactionsCount stats = 0%nat) /\
    (stats_transactionsCount stats = 0%nat -> stats_revenue stats = num_of_Z 0).
Proof.
  unfold getEmployeeStats. destruct (getTransactions api) as [txs|e]; cbn; [|discriminate].
  intros Hstats. apply employeeStats_Returns in Hstats. destruct Hstats as [_ ->].
  exists txs. cbn. set (mine := List.filter (is_of employeeId) txs).
  split; [reflexivity|]. split; [reflexivity|]. split; [reflexivity|].
  unfold days_of. split; [|split].
  - etransitivity; [apply size_list_to_set_le|]. now rewrite length_map.
  - rewrite size_list_to_set_zero. split.
    + intros H. apply map_eq_nil in H. now rewrite H.
    + intros H. apply length_zero_iff_nil in H. now rewrite H.
  - intros H. apply length_zero_iff_nil in H. now rewrite H.
Qed.

Lemma getEmployeeStats_counts_witness :
  exists stats,
    getEmployeeStats (N := Float64.number) api_without_inventory (IdInt 1) = Returns stats /\
    stats_shiftsCount stats = 2%nat /\ stats_transactionsCount stats = 3%nat /\
    (stats_shiftsCount stats <= stats_transactionsCount stats)%nat.
Proof.
  exists ltac:(returned (getEmployeeStats (N := Float64.number) api_without_inventory (IdInt 1))).
  split; [reflexivity|]. split; [reflexivity|]. split; [reflexivity|].
  destruct (getEmployeeStats_counts (N := Float64.number) api_without_inventory (IdInt 1) _
              eq_refl) as (_ & _ & _ & _ & H & _).
  exact H.
Defined.

(** X11: [getEmployeeStats] throws in two cases only: the request for the
    transactions failed, or a transaction of the employee has no timestamp
    that is a string.  A transaction of another employee without a
    timestamp does not make it throw. *)
Theorem getEmployeeStats_throws {N : Number}
    (api : PosterApi N) (employeeId : IdVal) (e : JsError) :
  getEmployeeStats api employeeId = Throws e <->
  (dash_getTransactions api = RequestFailed /\ e = RequestError "dash.getTransactions") \/
  (exists txs t,
     getTransactions api = Returns txs /\ In t txs /\
     is_of employeeId t = true /\ has_timestamp t = false /\ e = TypeError).
Proof.
  unfold getEmployeeStats, getTransactions, makeRequest.
  destruct (dash_getTransactions api) as [|response]; cbn.
  - split.
    + intros [= <-]. now left.
    + intros [[_ ->]|(txs & t & Hreq & _)]; [reflexivity|discriminate Hreq].
  - rewrite employeeStats_Throws. split.
    + intros (-> & t & Hin & He & Hd). right. exists (response_or_empty response), t. auto.
    + intros [[Hreq _]|(txs & t & [= <-] & Hin & He & Hd & ->)]; [discriminate Hreq|].
      split; [reflexivity|]. eauto.
Qed.

Section Agreement.
Context {N : Number}.
Implicit Types (t : Transaction N) (txs : list (Transaction N)).

Lemma is_of_transaction_key t (z : Z) :
  z <> 0 -> by_user_id t = true ->
  is_of (IdInt z) t = has_employee t && String.eqb (transaction_key t) (Z_toString z).
Proof.
  intros Hz. unfold by_user_id, is_of, has_employee, transaction_key, transaction_employeeId.
  destruct (transaction_user_id t) as [|a|s], (transaction_staff_id t) as [|b|s'];
    try discriminate; intros _; [reflexivity|].
  unfold id_or. cbn [id_truthy id_same orb]. rewrite orb_false_r.
  destruct (a =? 0) eqn:Ea; cbn [negb id_truthy andb id_key].
  - apply Z.eqb_eq in Ea. subst a. apply Z.eqb_neq. congruence.
  - rewrite Ea. cbn [negb andb].
    destruct (Z.eqb_spec a z) as [->|Hne]; [now rewrite String.eqb_refl|].
    symmetry. apply String.eqb_neq. intros E. now apply Z_toString_inj in E.
Qed.

Lemma filter_is_of txs (z : Z) :
  z <> 0 -> (forall t, In t txs -> by_user_id t = true) ->
  List.filter (is_of (IdInt z)) txs = transactions_of (Z_toString z) txs.
Proof.
  intros Hz Hby. unfold transactions_of. apply List.filter_ext_in.
  intros t Hin. now apply is_of_transaction_key, Hby.
Qed.

Lemma by_user_id_key t :
  by_user_id t = true -> has_employee t = true ->
  exists a, a <> 0 /\ transaction_key t = Z_toString a.
Proof.
  unfold by_user_id, has_employee, transaction_key, transaction_employeeId.
  destruct (transaction_user_id t) as [|a|s], (transaction_staff_id t) as [|b|s'];
    try discriminate; intros _.
  unfold id_or. cbn [id_truthy].
  destruct (a =? 0) eqn:Ea; cbn [negb id_truthy id_key]; [discriminate|].
  intros _. exists a. split; [now apply Z.eqb_neq|reflexivity].
Qed.

End Agreement.

Section TwoPaths.
Context {N : Number}.
Variables (txs : list (Transaction N)) (res : list (RevenueData N)) (z : Z).
Hypothesis revenue_returned : employeeRevenue txs = Returns res.
Hypothesis numeric : forall t, In t txs -> by_user_id t = true.
Hypothesis nonzero : z <> 0.

Lemma employeeStats_of_aggregated :
  employeeStats (IdInt z) txs
  = Returns {| stats_employeeId := IdInt z;
               stats_revenue := sum_totals (transactions_of (Z_toString z) txs);
               stats_shiftsCount := size (days_of (transactions_of (Z_toString z) txs));
               stats_transactionsCount := length (transactions_of (Z_toString z) txs) |}.
Proof.
  apply employeeStats_Returns. split.
  - intros t Hin Hof. apply (employeeRevenue_timestamps txs res t revenue_returned Hin).
    rewrite (is_of_transaction_key t z nonzero (numeric t Hin)) in Hof.
    now apply andb_true_iff in Hof.
  - now rewrite (filter_is_of txs z nonzero numeric).
Qed.

Lemma aggregate_of_employee (d : RevenueData N) :
  In d res -> data_employeeId d = Some z -> d = entry_of txs (Z_toString z).
Proof.
  intros Hd Hid. destruct (employeeRevenue_Returns txs res revenue_returned)
    as (ks & _ & Hks & ->).
  apply in_map_iff in Hd. destruct Hd as (k & <- & Hk).
  apply Hks in Hk. destruct Hk as (t & Hin & He & <-).
  destruct (by_user_id_key t (numeric t Hin) He) as (a & _ & Ha).
  rewrite Ha in *. cbn [entry_of data_employeeId] in Hid.
  rewrite parseInt_Z_toString in Hid. now injection Hid as ->.
Qed.

Lemma no_aggregate_of_employee :
  (forall d, In d res -> data_employeeId d <> Some z) ->
  transactions_of (Z_toString z) txs = [].
Proof.
  intros Hnone. destruct (transactions_of (Z_toString z) txs) as [|t ts] eqn:E; [reflexivity|].
  exfalso. assert (Ht : In t (transactions_of (Z_toString z) txs)) by (rewrite E; now left).
  apply transactions_of_In in Ht.
  destruct (employeeRevenue_Returns txs res revenue_returned) as (ks & _ & Hks & Hres).
  apply (Hnone (entry_of txs (Z_toString z))).
  - rewrite Hres. apply in_map, Hks. eauto.
  - cbn. apply parseInt_Z_toString.
Qed.

End TwoPaths.





Section ReportOfOne.
Context {N : Number}.
Variables (txs : list (Transaction N)) (res : list (RevenueData N)).
Hypothesis revenue_returned : employeeRevenue txs = Returns res.
Hypothesis numeric : forall t, In t txs -> by_user_id t = true.

Lemma aggregates_keys :
  exists ks,
    NoDup ks /\
    (forall k, In k ks <->
               exists t, In t txs /\ has_employee t = true /\ transaction_key t = k) /\
    res = map (entry_of txs) ks /\
    map (fun d => parsed_key (data_employeeId d)) res = ks.
Proof.
  destruct (employeeRevenue_Returns txs res revenue_returned) as (ks & Hnd & Hks & Hres).
  exists ks. repeat split; trivial; try apply Hks.
  rewrite Hres, map_map. rewrite <- (map_id ks) at 2. apply map_ext_in.
  intros k Hk. apply Hks in Hk. destruct Hk as (t & Hin & He & <-).
  destruct (by_user_id_key t (numeric t Hin) He) as (a & _ & ->).
  cbn. now rewrite parseInt_Z_toString.
Qed.

Lemma lookup_aggregate {V : Type} (val : RevenueData N -> V) (z : Z) :
  filled (fun d => parsed_key (data_employeeId d)) val res ∅ !! Z_toString z
  = match transactions_of (Z_toString z) txs with
    | [] => None
    | _ :: _ => Some (val (entry_of txs (Z_toString z)))
    end.
Proof.
  destruct aggregates_keys as (ks & Hnd & Hks & Hres & Hkeys).
  destruct (transactions_of (Z_toString z) txs) as [|t ts] eqn:E.
  - rewrite filled_other; [reflexivity|]. rewrite Hkeys. intros Hin.
    apply Hks in Hin. destruct Hin as (t & Ht). apply transactions_of_In in Ht.
    rewrite E in Ht. destruct Ht.
  - assert (Ht : In t (transactions_of (Z_toString z) txs)) by (rewrite E; now left).
    apply transactions_of_In in Ht.
    assert (Hk : In (Z_toString z) ks) by (apply Hks; eauto).
    assert (Hd : In (entry_of txs (Z_toString z)) res) by (rewrite Hres; now apply in_map).
    assert (Hkey : parsed_key (data_employeeId (entry_of txs (Z_toString z))) = Z_toString z).
    { cbn. now rewrite parseInt_Z_toString. }
    rewrite <- Hkey at 1.
    apply (filled_recorded (fun d => parsed_key (data_employeeId d)) val res ∅ _); [|exact Hd].
    rewrite Hkeys. exact Hnd.
Qed.

Lemma shiftsCount_of_employee (employee : Employee) (z : Z) :
  employeeId employee = IdInt z ->
  shiftsCount res employee = size (days_of (transactions_of (Z_toString z) txs)).
Proof.
  intros Hid. unfold shiftsCount, shiftsMap. rewrite Hid. cbn [id_key].
  change (fold_left _ res ∅)
    with (filled (fun d : RevenueData N => parsed_key (data_employeeId d))
                 data_shiftsCount res ∅).
  rewrite lookup_aggregate.
  destruct (transactions_of (Z_toString z) txs) eqn:E.
  - unfold days_of. cbn. now rewrite size_empty.
  - cbn [entry_of data_shiftsCount]. now rewrite E.
Qed.

End ReportOfOne.

Lemma Ideal_sub_zero (x : @num Ideal.number) : (x - num_of_Z 0)%js = x.
Proof.
  destruct x as [|s|q]; try reflexivity.
  change (Ideal.IFin (q + - Q2Qc (inject_Z 0))%Qc = Ideal.IFin q). f_equal.
  change (Q2Qc (inject_Z 0)) with 0%Qc. ring.
Qed.

Lemma revenue_of_employee
    (txs : list (Transaction Ideal.number)) (res : list (RevenueData Ideal.number))
    (employee : Employee) (z : Z) :
  employeeRevenue txs = Returns res ->
  (forall t, In t txs -> by_user_id t = true) ->
  Forall (fun t => exists q, coerced_total t = fin q) txs ->
  employeeId employee = IdInt z ->
  revenue res employee = sum_totals (transactions_of (Z_toString z) txs).
Proof.
  intros Hres Hnum Hfin Hid. unfold revenue, revenueMap. rewrite Hid. cbn [id_key].
  change (fold_left _ res ∅)
    with (filled (fun d : RevenueData Ideal.number => parsed_key (data_employeeId d))
                 data_revenue res ∅).
  rewrite (lookup_aggregate txs res Hres Hnum).
  destruct (transactions_of (Z_toString z) txs) as [|t ts] eqn:E; [reflexivity|].
  cbn [entry_of data_revenue]. rewrite E.
  assert (Hmine : Forall (fun t => exists q, coerced_total t = fin q) (t :: ts)).
  { rewrite <- E. rewrite Forall_forall in Hfin |- *. intros t' Ht'. apply Hfin.
    apply list_elem_of_In. apply list_elem_of_In in Ht'.
    now apply transactions_of_In in Ht'. }
  destruct (running_total_exact (t :: ts) Hmine) as [Hq Hsum].
  rewrite <- Hsum, Hq.
  set (q := Qc_sum _).
  change (num_truthy (fin q)) with (negb (Ideal.Qc_eqb q 0)).
  destruct (Ideal.Qc_eqb q 0) eqn:Eq; cbn [negb]; [|reflexivity].
  apply Qc_eqb_eq in Eq. now rewrite Eq.
Qed.



(** ** 16. Saving a report *)

Section SaveFacts.
Context {N : Number}.
Variables (db : Database N) (locationId : IdVal) (salaryData : Report N).

Lemma statements_Query (qs : list (Statement N)) : statements (map Query qs) = qs.
Proof.
  induction qs as [|q qs IH]; [reflexivity|].
  change (q :: statements (map Query qs) = q :: qs). now rewrite IH.
Qed.

Lemma statements_app (a b : list (Event N)) :
  statements (a ++ b) = (statements a ++ statements b)%list.
Proof. apply omap_app. Qed.

Lemma lines_of_app (a b : list (Statement N)) :
  lines_of (a ++ b) = (lines_of a ++ lines_of b)%list.
Proof. unfold lines_of, saved_lines. now rewrite !statements_Query, omap_app. Qed.

Lemma appends_query (s : Statement N) events :
  exists r, appends (client_query db s) events [s] r /\
            (forall e, r = Failed e -> e = QueryError s).
Proof.
  unfold appends, client_query. eexists. split; [reflexivity|].
  destruct (answer db events s); [now intros e [= <-]|discriminate].
Qed.

Lemma appends_bind {A B} (m : Client A) (k : A -> Client B) events qs r :
  appends m events qs r ->
  match r with
  | Done a => forall qs' r', appends (k a) (events ++ map Query qs)%list qs' r' ->
                             appends (m ≫= k) events (qs ++ qs') r'
  | Failed e => appends (m ≫= k) events qs (Failed e)
  end.
Proof.
  unfold appends, mbind, Client_bind. intros ->. destruct r as [a|e]; [|reflexivity].
  intros qs' r' ->. now rewrite map_app, app_assoc.
Qed.

Lemma save_employee_appends (emp : SalaryLine N) events :
  exists qs r,
    appends (save_employee db locationId salaryData emp) events qs r /\
    forallb is_employee_statement qs = true /\
    match r with
    | Done _ => lines_of qs = [line_fields emp]
    | Failed e => e = NoRowError \/ exists s, e = QueryError s /\ last qs = Some s
    end.
Proof.
  unfold save_employee, appends, mbind, Client_bind, client_query, first_id, mret, Client_ret.
  destruct (answer db events (SelectEmployee (emp_employeeId emp) locationId))
    as [|[|id ids]] eqn:E1.
  - exists [SelectEmployee (emp_employeeId emp) locationId]. eexists.
    split; [reflexivity|]. split; [reflexivity|]. right. eexists. split; reflexivity.
  - destruct (answer db _ (InsertEmployee _ _ _)) as [|[|id ids]] eqn:E2.
    + eexists [_; _], _. rewrite <- app_assoc. split; [reflexivity|].
      split; [reflexivity|]. right. eexists. split; reflexivity.
    + eexists [_; _], _. rewrite <- app_assoc. split; [reflexivity|].
      split; [reflexivity|]. now left.
    + destruct (answer db _ (InsertSalaryReport _ _ _ _ _ _ _ _ _ _)) eqn:E3.
      * eexists [_; _; _], _. rewrite <- !app_assoc. split; [reflexivity|].
        split; [reflexivity|]. right. eexists. split; reflexivity.
      * eexists [_; _; _], _. rewrite <- !app_assoc. split; [reflexivity|].
        split; reflexivity.
  - destruct (answer db _ (InsertSalaryReport _ _ _ _ _ _ _ _ _ _)) eqn:E3.
    + eexists [_; _], _. rewrite <- !app_assoc. split; [reflexivity|].
      split; [reflexivity|]. right. eexists. split; reflexivity.
    + eexists [_; _], _. rewrite <- !app_assoc. split; [reflexivity|].
      split; reflexivity.
Qed.

Lemma last_nonempty (a b : list (Statement N)) (s : Statement N) :
  last b = Some s -> last (a ++ b) = Some s.
Proof.
  intros H. rewrite last_app, H. reflexivity.
Qed.

Lemma save_employees_appends (employees : list (SalaryLine N)) events :
  exists qs r,
    appends (save_employees db locationId salaryData employees) events qs r /\
    forallb is_employee_statement qs = true /\
    match r with
    | Done _ => lines_of qs = map line_fields employees
    | Failed e => e = NoRowError \/ exists s, e = QueryError s /\ last qs = Some s
    end.
Proof.
  revert events. induction employees as [|emp rest IH]; intros events.
  - exists [], (Done tt). unfold appends. cbn. rewrite app_nil_r. auto.
  - destruct (save_employee_appends emp events) as (qs1 & r1 & H1 & Hw1 & Hr1).
    cbn [save_employees].
    pose proof (appends_bind _ (fun _ => save_employees db locationId salaryData rest)
                  _ _ _ H1) as Hbind.
    destruct r1 as [[]|e].
    + destruct (IH (events ++ map Query qs1)%list) as (qs2 & r2 & H2 & Hw2 & Hr2).
      exists (qs1 ++ qs2)%list, r2. split; [now apply Hbind|].
      split; [now rewrite forallb_app, Hw1, Hw2|].
      destruct r2 as [[]|e].
      * rewrite lines_of_app, Hr1, Hr2. reflexivity.
      * destruct Hr2 as [->|(s & -> & Hlast)]; [now left|right].
        exists s. split; [reflexivity|]. now apply last_nonempty.
    + exists qs1, (Failed e). auto.
Qed.

Lemma saved_lines_released (qs : list (Statement N)) :
  saved_lines (map Query qs ++ [Release]) = lines_of qs.
Proof.
  unfold lines_of, saved_lines. rewrite statements_app.
  change (statements [Release]) with (@nil (Statement N)). now rewrite app_nil_r.
Qed.

Lemma not_ROLLBACK (qs : list (Statement N)) :
  forallb is_employee_statement qs = true -> ~ In ROLLBACK qs.
Proof.
  intros H Hin. rewrite forallb_forall in H. specialize (H _ Hin). discriminate H.
Qed.

Lemma save_transaction_appends :
  exists work r,
    forallb is_employee_statement work = true /\
    let inventory :=
      InsertInventoryResult locationId
        (inventory_month (report_inventory salaryData))
        (inventory_year (report_inventory salaryData))
        (inventory_totalLoss (report_inventory salaryData)) in
    match r with
    | Done _ =>
        appends (save_transaction db locationId salaryData) []
                (BEGIN :: inventory :: work ++ [COMMIT]) r /\
        lines_of work = map line_fields (report_employees salaryData)
    | Failed e =>
        exists qs,
          appends (save_transaction db locationId salaryData) [] qs r /\
          ~ In ROLLBACK qs /\ head qs = Some BEGIN /\
          (e = NoRowError \/ exists s, e = QueryError s /\ last qs = Some s)
    end.
Proof.
  unfold save_transaction. cbv zeta.
  set (inventory := InsertInventoryResult _ _ _ _).
  destruct (appends_query BEGIN []) as (r1 & H1 & He1).
  pose proof (appends_bind _ (fun _ =>
                _ ← client_query db inventory;
                _ ← save_employees db locationId salaryData (report_employees salaryData);
                _ ← client_query db COMMIT; mret tt) _ _ _ H1) as B1.
  destruct r1 as [rows1|e1].
  2:{ exists [], (Failed e1). split; [reflexivity|]. exists [BEGIN].
      split; [exact B1|]. split; [intros [E|[]]; discriminate E|]. split; [reflexivity|].
      right. exists BEGIN. split; [now apply He1|reflexivity]. }
  destruct (appends_query inventory ([] ++ map Query [BEGIN])%list) as (r2 & H2 & He2).
  pose proof (appends_bind _ (fun _ =>
                _ ← save_employees db locationId salaryData (report_employees salaryData);
                _ ← client_query db COMMIT; mret tt) _ _ _ H2) as B2.
  destruct r2 as [rows2|e2].
  2:{ exists [], (Failed e2). split; [reflexivity|]. exists [BEGIN; inventory].
      split; [exact (B1 _ _ B2)|].
      split; [intros [E|[E|[]]]; discriminate E|]. split; [reflexivity|].
      right. exists inventory. split; [now apply He2|reflexivity]. }
  destruct (save_employees_appends (report_employees salaryData)
              (([] ++ map Query [BEGIN]) ++ map Query [inventory])%list)
    as (work & r3 & H3 & Hw & Hr3).
  pose proof (appends_bind _ (fun _ => _ ← client_query db COMMIT; mret tt) _ _ _ H3) as B3.
  destruct r3 as [[]|e3].
  2:{ exists work, (Failed e3). split; [exact Hw|].
      exists ([BEGIN] ++ [inventory] ++ work)%list.
      split; [exact (B1 _ _ (B2 _ _ B3))|].
      split; [intros [E|[E|Hin]]; try discriminate E; now apply (not_ROLLBACK work Hw)|].
      split; [reflexivity|].
      destruct Hr3 as [->|(s & -> & Hlast)]; [now left|right]. exists s.
      split; [reflexivity|]. now apply (last_nonempty [BEGIN; inventory]). }
  destruct (appends_query COMMIT
              ((([] ++ map Query [BEGIN]) ++ map Query [inventory]) ++ map Query work)%list)
    as (r4 & H4 & He4).
  pose proof (appends_bind _ (fun _ => mret tt) _ _ _ H4) as B4.
  destruct r4 as [rows4|e4].
  - exists work, (Done tt). split; [exact Hw|]. split; [|exact Hr3].
    assert (Hret : appends (mret tt)
                     (((([] ++ map Query [BEGIN]) ++ map Query [inventory])
                       ++ map Query work) ++ map Query [COMMIT])%list [] (Done tt))
      by (unfold appends; cbn; now rewrite app_nil_r).
    pose proof (B1 _ _ (B2 _ _ (B3 _ _ (B4 _ _ Hret)))) as H.
    rewrite app_nil_r in H. exact H.
  - exists work, (Failed e4). split; [exact Hw|].
    exists ([BEGIN] ++ [inventory] ++ work ++ [COMMIT])%list.
    split; [exact (B1 _ _ (B2 _ _ (B3 _ _ B4)))|].
    split.
    + intros [E|[E|Hin]]; try discriminate E. cbn [app] in Hin. apply in_app_iff in Hin.
      destruct Hin as [Hin|[E|[]]]; [now apply (not_ROLLBACK work Hw)|discriminate E].
    + split; [reflexivity|]. right. exists COMMIT. split; [now apply He4|].
      apply (last_nonempty ([BEGIN; inventory] ++ work) [COMMIT]). reflexivity.
Qed.

End SaveFacts.

(** X15: once the pool has handed out a client, [saveSalaryReport]
    releases it exactly once, as the last thing it does with it, whether
    it returns or throws; the first statement is BEGIN.  Without a client
    nothing is sent and the error of the pool is thrown. *)
Theorem saveSalaryReport_releases_the_client {N : Number}
    (db : Database N) (locationId : IdVal) (salaryData : Report N) :
  let '(events, outcome) := saveSalaryReport db locationId salaryData in
  if connects db
  then exists qs, events = (Query BEGIN :: map Query qs ++ [Release])%list
  else events = [] /\ outcome = Failed ConnectError.
Proof.
  unfold saveSalaryReport. destruct (connects db); [|now split].
  destruct (save_transaction_appends db locationId salaryData) as (work & r & _ & H).
  cbv zeta in H. destruct r as [[]|e].
  - destruct H as [H _]. unfold appends in H. rewrite H. cbn.
    now eexists (_ :: work ++ [COMMIT])%list.
  - destruct H as (qs & H & _ & Hhead & _). unfold appends in H. rewrite H.
    destruct qs as [|q qs]; [discriminate Hhead|]. injection Hhead as ->.
    unfold client_query. cbn.
    destruct (answer db _ ROLLBACK); exists (qs ++ [ROLLBACK])%list;
      now rewrite map_app, <- !app_assoc.
Qed.

(** X16: when [saveSalaryReport] returns, the statements were BEGIN, the
    inventory result, the statements of the employees and COMMIT, with no
    ROLLBACK, and one line was written to [salary_reports] for each
    employee of the report, in the order of the report, with that
    employee's shifts, revenue, deduction and total.  When it throws
    after the client was handed out, ROLLBACK was the last statement and
    was sent once; the error is that of the statement that failed, that
    of the missing row, or that of the ROLLBACK itself. *)
Theorem saveSalaryReport_commits_or_rolls_back {N : Number}
    (db : Database N) (locationId : IdVal) (salaryData : Report N) :
  let '(events, outcome) := saveSalaryReport db locationId salaryData in
  match outcome with
  | Done _ =>
      exists work,
        statements events
        = (BEGIN
           :: InsertInventoryResult locationId
                (inventory_month (report_inventory salaryData))
                (inventory_year (report_inventory salaryData))
                (inventory_totalLoss (report_inventory salaryData))
           :: work ++ [COMMIT])%list /\
        forallb is_employee_statement work = true /\
        saved_lines events = map line_fields (report_employees salaryData)
  | Failed e =>
      (connects db = false /\ e = ConnectError /\ events = []) \/
      (exists qs,
         statements events = (qs ++ [ROLLBACK])%list /\ ~ In ROLLBACK qs /\
         (e = QueryError ROLLBACK \/ e = NoRowError \/
          exists s, e = QueryError s /\ last qs = Some s))
  end.
Proof.
  unfold saveSalaryReport. destruct (connects db); [|left; now repeat split].
  destruct (save_transaction_appends db locationId salaryData) as (work & r & Hw & H).
  cbv zeta in H. destruct r as [[]|e].
  - destruct H as [H Hlines]. unfold appends in H. rewrite H. cbn [app].
    exists work. split; [|split; [exact Hw|]].
    + now rewrite statements_app, statements_Query, app_nil_r.
    + rewrite saved_lines_released, <- Hlines.
      change (lines_of ([BEGIN;
                InsertInventoryResult locationId
                  (inventory_month (report_inventory salaryData))
                  (inventory_year (report_inventory salaryData))
                  (inventory_totalLoss (report_inventory salaryData))]
                ++ work ++ [COMMIT])%list = lines_of work).
      rewrite !lines_of_app. change (lines_of [COMMIT]) with (@nil (nat * num * num * num)).
      now rewrite app_nil_r.
  - destruct H as (qs & H & Hnot & _ & He). unfold appends in H. rewrite H.
    unfold client_query. cbn [app].
    destruct (answer db (map Query qs) ROLLBACK); right; exists qs;
      (split; [rewrite !statements_app, statements_Query;
               change (statements [Query ROLLBACK]) with [@ROLLBACK N];
               change (statements [Release]) with (@nil (Statement N));
               now rewrite app_nil_r
              |split; [exact Hnot|tauto]]).
Qed.

(** The report of [api_ties] saved to a database that accepts every
    statement, and to one that rejects the lines of the report. *)
Lemma saveSalaryReport_commits_or_rolls_back_witness :
  exists r,
    calculateSalaries (N := Float64.number) api_ties (february 500 5) = Returns r /\
    (snd (saveSalaryReport empty_database (IdInt 1) r) = Done tt /\
     length (saved_lines (fst (saveSalaryReport empty_database (IdInt 1) r))) = 3%nat) /\
    (exists s qs,
       snd (saveSalaryReport failing_database (IdInt 1) r) = Failed (QueryError s) /\
       statements (fst (saveSalaryReport failing_database (IdInt 1) r))
       = (qs ++ [ROLLBACK])%list).
Proof.
  pose (r := ltac:(returned (calculateSalaries (N := Float64.number) api_ties
                               (february 500 5)))).
  exists r. split; [reflexivity|]. split.
  - pose proof (saveSalaryReport_commits_or_rolls_back empty_database (IdInt 1) r) as H.
    destruct (saveSalaryReport empty_database (IdInt 1) r) as [events [[]|e]] eqn:E;
      [|discriminate (f_equal snd E)].
    destruct H as (work & _ & _ & Hl). cbn [fst snd]. rewrite Hl. split; reflexivity.
  - pose proof (saveSalaryReport_commits_or_rolls_back failing_database (IdInt 1) r) as H.
    destruct (saveSalaryReport failing_database (IdInt 1) r) as [events [[]|e]] eqn:E;
      [discriminate (f_equal snd E)|].
    destruct H as [(Hc & _)|(qs & Hqs & _)]; [discriminate Hc|].
    assert (He : e = QueryError ltac:(let t := eval vm_compute in
                   (snd (saveSalaryReport failing_database (IdInt 1) r)) in
                   match t with Failed (QueryError ?s) => exact s end))
      by (apply (f_equal snd) in E; cbn [snd] in E; now injection E as <-).
    cbn [fst snd]. eexists _, qs. split; [now rewrite He|exact Hqs].
Defined.

Lemma saveSalaryReport_releases_the_client_witness :
  exists qs,
    fst (saveSalaryReport failing_database (IdInt 1)
           ltac:(returned (calculateSalaries (N := Float64.number) api_ties
                             (february 500 5))))
    = (Query BEGIN :: map Query qs ++ [Release])%list.
Proof.
  pose proof (saveSalaryReport_releases_the_client failing_database (IdInt 1)
                ltac:(returned (calculateSalaries (N := Float64.number) api_ties
                                  (february 500 5)))) as H.
  destruct (saveSalaryReport _ _ _) as [events outcome]. exact H.
Defined.

(** ** 17. The summary and the lines *)

Lemma cents_whole (k : Z) : cents (Q2Qc (k # 100)) = k.
Proof.
  destruct (cents_bounds (Q2Qc (k # 100))) as [Hlo Hhi].
  set (c := cents (Q2Qc (k # 100))) in *.
  assert (E : (Q2Qc (k # 100) * 100 == inject_Z k)%Q).
  { rewrite Q2Qc_this. unfold Qeq, Qmult, inject_Z. cbn [Qnum Qden]. lia. }
  rewrite E in Hlo, Hhi.
  assert (H1 : (inject_Z c < inject_Z (k + 1))%Q).
  { rewrite inject_Z_plus. change (inject_Z 1) with (1 : Q).
    generalize dependent (inject_Z c). generalize (inject_Z k). intros. lra. }
  assert (H2 : (inject_Z k < inject_Z (c + 1))%Q).
  { rewrite inject_Z_plus. change (inject_Z 1) with (1 : Q).
    generalize dependent (inject_Z c). generalize (inject_Z k). intros. lra. }
  rewrite <- Zlt_Qlt in H1, H2. lia.
Qed.

Lemma round2_whole (q : Qc) : whole_cents q -> round2 (fin q) = fin q.
Proof. intros [k ->]. now rewrite Ideal_round2, cents_whole. Qed.

Lemma round2_whole_cents (x : @num Ideal.number) (a : Qc) :
  round2 x = fin a -> whole_cents a.
Proof.
  destruct x as [|s|q]; [discriminate|destruct s; intros H; vm_compute in H; discriminate H|].
  rewrite Ideal_round2. intros [= <-]. now exists (cents q).
Qed.

Lemma whole_cents_plus (p q : Qc) : whole_cents p -> whole_cents q -> whole_cents (p + q)%Qc.
Proof.
  intros [j ->] [k ->]. exists (j + k). apply Qc_is_canon.
  unfold Qcplus. rewrite !Q2Qc_this. unfold Qeq, Qplus. cbn [Qnum Qden]. lia.
Qed.

Lemma whole_cents_sum (l : list Qc) : Forall whole_cents l -> whole_cents (Qc_sum l).
Proof.
  induction 1 as [|q l Hq _ IH]; [exists 0; now apply Qc_is_canon|].
  rewrite Qc_sum_cons. now apply whole_cents_plus.
Qed.

Section SummaryOfSums.
Variable field : SalaryLine Ideal.number -> @num Ideal.number.
Variables lines listed : list (SalaryLine Ideal.number).
Hypothesis rounded : forall line, In line lines -> exists x, field line = round2 x.
Hypothesis finite : Forall (fun line => exists q, field line = fin q) listed.
Hypothesis permuted : Permutation listed lines.

Lemma reduce_sum_exact (l : list (SalaryLine Ideal.number)) :
  Forall (fun line => exists q, field line = fin q) l ->
  reduce_sum field l = fin (Qc_sum (map (fun line => to_Qc (field line)) l)).
Proof.
  intros Hl. unfold reduce_sum. change (num_of_Z 0) with (fin 0).
  rewrite (fold_left_add_fin field l 0 Hl). f_equal. ring.
Qed.

Lemma summary_of_sums :
  round2 (reduce_sum field lines) = reduce_sum field listed.
Proof.
  assert (Hlines : Forall (fun line => exists q, field line = fin q) lines)
    by now rewrite <- permuted.
  rewrite (reduce_sum_exact lines Hlines), (reduce_sum_exact listed finite).
  rewrite (Qc_sum_Permutation _ _
             (Permutation_map (fun line => to_Qc (field line)) permuted)).
  apply round2_whole, whole_cents_sum, List.Forall_map.
  rewrite List.Forall_forall in Hlines |- *. intros line Hin.
  destruct (Hlines line Hin) as [q Hq]. destruct (rounded line Hin) as [x Hx].
  rewrite Hq. apply (round2_whole_cents x). now rewrite <- Hx.
Qed.

End SummaryOfSums.

(** X17: in exact arithmetic, when the salary fields of the listed
    employees are finite, each total of the summary is exactly the sum of
    that field over the employees of the report: the lines are whole cents,
    so rounding the sum changes nothing, and the order of the sum does not
    matter. *)
Theorem summary_is_the_sum_of_the_lines
    (api : PosterApi Ideal.number) (params : Params Ideal.number) (r : Report Ideal.number) :
  calculateSalaries api params = Returns r ->
  Forall finite_line (report_employees r) ->
  summary_totalBaseSalary (report_summary r)
  = reduce_sum emp_baseSalary (report_employees r) /\
  summary_totalRevenueBonus (report_summary r)
  = reduce_sum emp_revenueBonus (report_employees r) /\
  summary_totalInventoryDeduction (report_summary r)
  = reduce_sum emp_inventoryDeduction (report_employees r) /\
  summary_totalSalary (report_summary r)
  = reduce_sum emp_totalSalary (report_employees r).
Proof.
  intros Hr Hfin. apply calculateSalaries_Returns in Hr.
  destruct Hr as (employees & revenueData & _ & _ & ->).
  set (inventoryResults := getInventoryResults _ _ _) in *.
  cbn [report report_summary report_employees summary_totalBaseSalary
       summary_totalRevenueBonus summary_totalInventoryDeduction summary_totalSalary] in *.
  pose proof (Array_sort_Permutation (by_totalSalary (N := Ideal.number))
                (workingEmployees params employees revenueData inventoryResults)) as Hperm.
  assert (Hround : forall line,
            In line (workingEmployees params employees revenueData inventoryResults) ->
            exists e, line = salaryLine params revenueData inventoryResults e).
  { intros line Hin. apply workingEmployees_In in Hin.
    destruct Hin as (e & _ & -> & _). now exists e. }
  assert (H : forall field : SalaryLine Ideal.number -> @num Ideal.number,
            (forall e, exists x,
                field (salaryLine params revenueData inventoryResults e) = round2 x) ->
            (forall line, finite_line line -> exists q, field line = fin q) ->
            round2 (reduce_sum field
                      (workingEmployees params employees revenueData inventoryResults))
            = reduce_sum field
                (Array_sort by_totalSalary
                   (workingEmployees params employees revenueData inventoryResults))).
  { intros field Hrounded Hfield. apply summary_of_sums; [| |exact Hperm].
    - intros line Hin. destruct (Hround line Hin) as [e ->]. apply Hrounded.
    - eapply List.Forall_impl; [|exact Hfin]. exact Hfield. }
  repeat split; (apply H; [intros e; cbn; eauto|intros line Hline; apply Hline]).
Qed.

Lemma summary_is_the_sum_of_the_lines_witness :
  exists r,
    calculateSalaries (N := Ideal.number) api_ties (february 500 5) = Returns r /\
    summary_totalSalary (report_summary r) = reduce_sum emp_totalSalary (report_employees r).
Proof.
  exists ltac:(returned (calculateSalaries (N := Ideal.number) api_ties (february 500 5))).
  split; [reflexivity|].
  apply (summary_is_the_sum_of_the_lines api_ties (february 500 5)); [reflexivity|].
  repeat (apply List.Forall_cons;
            [repeat split; eexists; reflexivity|]).
  apply List.Forall_nil.
Defined.

(** ** 18. The CSV export *)

Example toFixed2_examples :
  let toFixed := toFixed2 (fun _ => (0%N, 0)) in
  toFixed 1234.5%float = "1234.50" /\ toFixed 0.005%float = "0.01" /\
  toFixed 1.005%float = "1.00" /\ toFixed (-0.125)%float = "-0.13" /\
  toFixed 0%float = "0.00" /\ toFixed (-0.001)%float = "-0.00" /\
  toFixed nan = "NaN" /\ toFixed 650%float = "650.00" /\
  exponential 1 22 = "1e+21" /\ exponential 123 23 = "1.23e+22".
Proof. cbv zeta. repeat split; reflexivity. Qed.

Section Counting.
Variable c : ascii.

Lemma count_char_app (a b : string) :
  count_char c (a ++ b) = (count_char c a + count_char c b)%nat.
Proof.
  induction a as [|x a IH]; [reflexivity|].
  change (String x a ++ b) with (String x (a ++ b)).
  cbn [count_char]. rewrite IH. lia.
Qed.

Lemma count_char_substring (i n : nat) (s : string) :
  (count_char c (substring i n s) <= count_char c s)%nat.
Proof.
  revert i n. induction s as [|x s IH]; intros i n.
  - destruct i, n; cbn; lia.
  - destruct i as [|i].
    + destruct n as [|n]; cbn; [lia|]. specialize (IH 0%nat n). lia.
    + cbn [substring]. specialize (IH i n). cbn. lia.
Qed.

(** The separators and the elements of a join. *)
Lemma count_char_concat (sep x : string) (l : list string) :
  count_char c (String.concat sep (x :: l))
  = (count_char c x
     + (length l * count_char c sep + list_sum (map (count_char c) l)))%nat.
Proof.
  revert x. induction l as [|y l IH]; intros x.
  - change (String.concat sep [x]) with x.
    change (list_sum (map (count_char c) [])) with 0%nat. cbn [length]. lia.
  - change (String.concat sep (x :: y :: l)) with (x ++ sep ++ String.concat sep (y :: l)).
    rewrite !count_char_app, IH.
    change (list_sum (map (count_char c) (y :: l)))
      with (count_char c y + list_sum (map (count_char c) l))%nat.
    cbn [length]. lia.
Qed.

End Counting.

Section Plain.

Lemma plain_app (a b : string) : plain a -> plain b -> plain (a ++ b).
Proof. intros [Ha Ha'] [Hb Hb']. split; rewrite count_char_app; lia. Qed.

Lemma plain_substring (i n : nat) (s : string) : plain s -> plain (substring i n s).
Proof.
  intros [Hs Hs']. split.
  - pose proof (count_char_substring "," i n s). lia.
  - pose proof (count_char_substring line_feed i n s). lia.
Qed.

Lemma plain_zeros (n : nat) : plain (zeros n).
Proof. induction n as [|n [IH IH']]; split; cbn; trivial. Qed.

Lemma plain_uint (d : Decimal.uint) : plain (NilEmpty.string_of_uint d).
Proof. induction d as [|d [IH IH']|d [IH IH']|d [IH IH']|d [IH IH']|d [IH IH']
                        |d [IH IH']|d [IH IH']|d [IH IH']|d [IH IH']|d [IH IH']];
         split; cbn; trivial.
Qed.

Lemma plain_Z_toString (z : Z) : plain (Z_toString z).
Proof.
  unfold Z_toString, NilZero.string_of_int.
  destruct (Z.to_int z) as [d|d]; unfold NilZero.string_of_uint.
  - destruct d; try apply plain_uint. now split.
  - apply (plain_app "-"); [now split|]. destruct d; try apply plain_uint. now split.
Qed.

Lemma plain_fixed2 (n : N) : plain (fixed2 n).
Proof.
  unfold fixed2. cbv zeta.
  set (m := if (_ <=? 2)%nat then _ else _).
  assert (Hm : plain m).
  { unfold m. destruct (_ <=? 2)%nat; [apply plain_app; [apply plain_zeros|]|];
      apply plain_Z_toString. }
  apply plain_app; [now apply plain_substring|].
  apply (plain_app "."); [now split|now apply plain_substring].
Qed.

Lemma plain_exponential (s : N) (n : Z) : plain (exponential s n).
Proof.
  unfold exponential. cbv zeta.
  assert (He : plain ((if (n - 1 <? 0)%Z then "e-" else "e+") ++ Z_toString (Z.abs (n - 1)))).
  { apply plain_app; [destruct (n - 1 <? 0)%Z; now split|apply plain_Z_toString]. }
  destruct (_ =? 1)%nat.
  - apply plain_app; [apply plain_Z_toString|exact He].
  - apply plain_app; [apply plain_substring, plain_Z_toString|].
    apply (plain_app "."); [now split|].
    apply plain_app; [apply plain_substring, plain_Z_toString|exact He].
Qed.

Variable shortest_digits : float -> N * Z.

Lemma plain_toFixed2 (x : float) : plain (toFixed2 shortest_digits x).
Proof.
  unfold toFixed2. destruct (Prim2SF x) as [s|s| |s m e].
  - apply plain_fixed2.
  - destruct s; now split.
  - now split.
  - cbv zeta. destruct (_ && _).
    + destruct (shortest_digits _) as [digits n].
      apply plain_app; [destruct s; now split|apply plain_exponential].
    + apply plain_app; [destruct s; now split|apply plain_fixed2].
Qed.

End Plain.

Section Rows.
Variable shortest_digits : float -> N * Z.

Lemma csv_row_count (c : ascii) (emp : SalaryLine Float64.number) :
  c = ","%char \/ c = line_feed ->
  count_char c (String.concat "," (csv_row shortest_digits emp))
  = (6 * count_char c "," + count_char c (emp_employeeName emp))%nat.
Proof.
  intros Hc. unfold csv_row. rewrite count_char_concat.
  assert (Hplain : forall s, plain s -> count_char c s = 0%nat)
    by (intros s [H H']; destruct Hc as [->| ->]; assumption).
  cbn [length map]. unfold list_sum. cbn [fold_right].
  rewrite (Hplain _ (plain_Z_toString _)), !(Hplain _ (plain_toFixed2 shortest_digits _)).
  lia.
Qed.

Lemma rows_count (c : ascii) (employees : list (SalaryLine Float64.number)) :
  c = ","%char \/ c = line_feed ->
  list_sum (map (count_char c)
              (map (fun row => String.concat "," row)
                   (map (csv_row shortest_digits) employees)))
  = (6 * count_char c "," * length employees
     + list_sum (map (fun emp => count_char c (emp_employeeName emp)) employees))%nat.
Proof.
  intros Hc. induction employees as [|emp employees IH]; [cbn [map length]; unfold list_sum; cbn [fold_right]; lia|].
  cbn [map length].
  change (list_sum (?x :: ?l)) with (x + list_sum l)%nat.
  rewrite IH, (csv_row_count c emp Hc).
  change (list_sum (?x :: ?l)) with (x + list_sum l)%nat. lia.
Qed.

End Rows.

(** X18: [generateCSV] writes the names as they are, without quotes: a
    row has six commas and those of the employee's name, and the file has
    one line feed for each employee and those of the names.  So the file
    has a header and one line of seven fields for each employee exactly
    when no name has a comma or a line feed in it; the numbers never
    have one. *)
Theorem generateCSV_does_not_quote
    (shortest_digits : float -> N * Z) (salaryData : Report Float64.number) :
  let employees := report_employees salaryData in
  let csv := generateCSV shortest_digits salaryData in
  (forall emp,
     count_char "," (String.concat "," (csv_row shortest_digits emp))
     = (6 + count_char "," (emp_employeeName emp))%nat) /\
  (forall x, plain (toFixed2 shortest_digits x)) /\
  count_char line_feed csv
  = (length employees
     + list_sum (map (fun emp => count_char line_feed (emp_employeeName emp)) employees))%nat /\
  count_char "," csv
  = (6 * (1 + length employees)
     + list_sum (map (fun emp => count_char "," (emp_employeeName emp)) employees))%nat.
Proof.
  cbv zeta. split; [|split; [|split]].
  - intros emp. rewrite (csv_row_count shortest_digits "," emp (or_introl eq_refl)).
    reflexivity.
  - apply plain_toFixed2.
  - unfold generateCSV. rewrite count_char_concat, !length_map.
    rewrite (rows_count shortest_digits line_feed _ (or_intror eq_refl)).
    change (count_char line_feed (String.concat "," headers)) with 0%nat.
    change (count_char line_feed ",") with 0%nat.
    change (count_char line_feed (String line_feed "")) with 1%nat. lia.
  - unfold generateCSV. rewrite count_char_concat, !length_map.
    rewrite (rows_count shortest_digits "," _ (or_introl eq_refl)).
    change (count_char "," (String.concat "," headers)) with 6%nat.
    change (count_char "," ",") with 1%nat.
    change (count_char "," (String line_feed "")) with 0%nat. lia.
Qed.

(** The file of the report of [api_ties]: a header and three lines; the
    line of B. *)
Lemma generateCSV_does_not_quote_witness :
  exists r line,
    calculateSalaries (N := Float64.number) api_ties (february 500 5) = Returns r /\
    head (report_employees r) = Some line /\
    String.concat "," (csv_row (fun _ => (0%N, 0)) line)
    = "B,1,3000.00,500.00,150.00,0.00,650.00" /\
    count_char line_feed (generateCSV (fun _ => (0%N, 0)) r) = 3%nat.
Proof.
  exists ltac:(returned (calculateSalaries (N := Float64.number) api_ties (february 500 5))).
  exists ltac:(first_returned
                 (r ← calculateSalaries (N := Float64.number) api_ties (february 500 5);
                  Returns (report_employees r))).
  split; [reflexivity|]. split; [reflexivity|]. split; [reflexivity|].
  exact (proj1 (proj2 (proj2
           (generateCSV_does_not_quote (fun _ => (0%N, 0))
              ltac:(returned (calculateSalaries (N := Float64.number) api_ties
                                (february 500 5))))))).
Defined.

(** ** 19. Answers without a response *)

Lemma makeRequest_with_response {A} (endpoint : string) (r : ApiResponse A) :
  (response ← makeRequest endpoint (with_response r); Returns (response_or_empty response))
  = (response ← makeRequest endpoint r; Returns (response_or_empty response)).
Proof. now destruct r as [|[l|]]. Qed.

(** X19: an answer of the Poster API that has no [response] property is
    read as an empty list, for the employees, for the transactions and for
    the inventory revisions alike: the four operations return or throw
    the same with it as with the empty list in its place. *)
Theorem missing_response_is_the_empty_list {N : Number}
    (api : PosterApi N) (params : Params N) :
  getEmployees (with_responses api) = getEmployees api /\
  getEmployeeRevenue (with_responses api) = getEmployeeRevenue api /\
  (forall month year,
     getInventoryResults (with_responses api) month year
     = getInventoryResults api month year) /\
  calculateSalaries (with_responses api) params = calculateSalaries api params.
Proof.
  assert (He : getEmployees (with_responses api) = getEmployees api)
    by apply makeRequest_with_response.
  assert (Ht : getTransactions (with_responses api) = getTransactions api)
    by apply makeRequest_with_response.
  assert (Hr : getEmployeeRevenue (with_responses api) = getEmployeeRevenue api)
    by (unfold getEmployeeRevenue; now rewrite Ht).
  assert (Hi : forall month year,
             getInventoryResults (with_responses api) month year
             = getInventoryResults api month year).
  { intros month year. unfold getInventoryResults. cbn [with_responses storage_getInventoryRevisions].
    now destruct (storage_getInventoryRevisions api) as [|[l|]]. }
  repeat split; trivial.
  unfold calculateSalaries. now rewrite He, Hr, Hi.
Qed.

(** ** 20. The calculation request *)

Lemma last_snoc_statement {N : Number} (qs : list (Statement N)) (s : Statement N) :
  last (qs ++ [s]) = Some s.
Proof. now rewrite last_app. Qed.

(** How a save ends: with COMMIT and the lines of the report, or with
    ROLLBACK. *)
Lemma saveSalaryReport_ends {N : Number}
    (db : Database N) (locationId : IdVal) (salaryData : Report N) :
  let '(events, outcome) := saveSalaryReport db locationId salaryData in
  match outcome with
  | Done _ =>
      last (statements events) = Some COMMIT /\
      saved_lines events = map line_fields (report_employees salaryData)
  | Failed _ => events = [] \/ last (statements events) = Some ROLLBACK
  end.
Proof.
  unfold saveSalaryReport. destruct (connects db); [|now left].
  destruct (save_transaction_appends db locationId salaryData) as (work & r & Hw & H).
  cbv zeta in H. destruct r as [[]|e].
  - destruct H as [H Hlines]. unfold appends in H. rewrite H. cbn [app]. split.
    + rewrite statements_app, statements_Query.
      change (statements [Release]) with (@nil (Statement N)). rewrite app_nil_r.
      apply (last_snoc_statement (BEGIN :: _ :: work) COMMIT).
    + rewrite saved_lines_released, <- Hlines.
      change (lines_of ([BEGIN;
                InsertInventoryResult locationId
                  (inventory_month (report_inventory salaryData))
                  (inventory_year (report_inventory salaryData))
                  (inventory_totalLoss (report_inventory salaryData))]
                ++ work ++ [COMMIT])%list = lines_of work).
      rewrite !lines_of_app. change (lines_of [COMMIT]) with (@nil (nat * num * num * num)).
      now rewrite app_nil_r.
  - destruct H as (qs & H & _). unfold appends in H. rewrite H.
    unfold client_query. cbn [app].
    destruct (answer db (map Query qs) ROLLBACK); right;
      rewrite !statements_app, statements_Query;
      change (statements [Query ROLLBACK]) with [@ROLLBACK N];
      change (statements [Release]) with (@nil (Statement N));
      rewrite app_nil_r; apply last_snoc_statement.
Qed.

(** X20: the handler of [POST /api/salary/calculate] touches the client
    of the database only to save a report: after the location was found,
    the token was accepted, the parameters passed
    [validateCalculationParams] and [calculateSalaries] returned.  It
    answers with the report only when the save was committed, with one
    line written for each employee of the report; when the save threw it
    answers with that error, and the last statement was ROLLBACK (or the
    pool gave no client); in every other case nothing is sent on the
    client. *)
Theorem calculateSalary_saves_only_calculated_reports {N : Number}
    (Number_toString : num -> string) (backend : Backend N) (body : Body N) :
  let '(response, events) := calculateSalary Number_toString backend body in
  let calculated result :=
    exists poster_account poster_access_token rows,
      id_truthy (body_locationId body) = true /\
      backend_locations backend
      = LocationRows ((poster_account, poster_access_token) :: rows) /\
      validateToken (backend_settings backend) = true /\
      let params :=
        calculationParams Number_toString body poster_account poster_access_token in
      isValid (validateCalculationParams params) = true /\
      calculateSalaries (backend_api backend) params = Returns result in
  match response with
  | Result result =>
      calculated result /\
      last (statements events) = Some COMMIT /\
      saved_lines events = map line_fields (report_employees result)
  | InternalError (SaveFailure error) =>
      (exists result, calculated result) /\
      (events = [] \/ last (statements events) = Some ROLLBACK)
  | _ => events = []
  end.
Proof.
  unfold calculateSalary.
  destruct (id_truthy (body_locationId body)) eqn:Hid; cbn [negb orb]; [|reflexivity].
  destruct (_ || _); [reflexivity|].
  destruct (backend_locations backend) as [|[|[poster_account poster_access_token] rows]];
    try reflexivity.
  destruct (validateToken (backend_settings backend)) eqn:Htoken; cbn [negb]; [|reflexivity].
  cbv zeta.
  destruct (isValid _) eqn:Hvalid; cbn [negb]; [|reflexivity].
  destruct (calculateSalaries _ _) as [result|error] eqn:Hcalc; [|reflexivity].
  pose proof (saveSalaryReport_ends (backend_database backend) (body_locationId body) result)
    as Hsave.
  destruct (saveSalaryReport _ _ _) as [events [[]|error]].
  - split; [|exact Hsave]. exists poster_account, poster_access_token, rows. auto 10.
  - split; [|exact Hsave]. exists result, poster_account, poster_access_token, rows. auto 10.
Qed.

(** The request for February of [api_ties]: answered with the report,
    after a COMMIT and three lines, when the database accepts every
    statement; answered with the error of the save, after a ROLLBACK,
    when it rejects the lines. *)
Lemma calculateSalary_saves_only_calculated_reports_witness :
  (exists result events,
     calculateSalary (N := Float64.number) (fun _ => "")
       (backend_of api_ties empty_database) february_request = (Result result, events) /\
     calculateSalaries api_ties (february 500 5) = Returns result /\
     last (statements events) = Some COMMIT /\
     length (saved_lines events) = 3%nat) /\
  (exists error events,
     calculateSalary (N := Float64.number) (fun _ => "")
       (backend_of api_ties failing_database) february_request
     = (InternalError (SaveFailure error), events) /\
     last (statements events) = Some ROLLBACK).
Proof.
  pose (r := ltac:(returned (calculateSalaries (N := Float64.number) api_ties
                               (february 500 5)))).
  assert (Hr : calculateSalaries (N := Float64.number) api_ties (february 500 5) = Returns r)
    by reflexivity.
  assert (Hc : forall db,
             calculateSalary (N := Float64.number) (fun _ => "") (backend_of api_ties db)
               february_request
             = match saveSalaryReport db (IdInt 1) r with
               | (events, Failed error) => (InternalError (SaveFailure error), events)
               | (events, Done _) => (Result r, events)
               end).
  { intros db. unfold calculateSalary.
    unfold backend_of.
    cbn [backend_locations backend_settings backend_api backend_database].
    change (calculationParams (fun _ => "") february_request (Some "cafe") (Some "token"))
      with (february (N := Float64.number) 500 5).
    rewrite Hr. reflexivity. }
  split.
  - pose proof (calculateSalary_saves_only_calculated_reports (N := Float64.number)
                  (fun _ => "") (backend_of api_ties empty_database) february_request) as H.
    rewrite Hc in H |- *.
    destruct (saveSalaryReport empty_database (IdInt 1) r) as [events [[]|e]] eqn:E;
      [|discriminate (f_equal snd E)].
    destruct H as (_ & Hl & Hs).
    exists r, events. repeat split; [exact Hl|]. rewrite Hs. reflexivity.
  - pose proof (calculateSalary_saves_only_calculated_reports (N := Float64.number)
                  (fun _ => "") (backend_of api_ties failing_database) february_request) as H.
    rewrite Hc in H |- *.
    destruct (saveSalaryReport failing_database (IdInt 1) r) as [events [[]|e]] eqn:E;
      [discriminate (f_equal snd E)|].
    destruct H as [_ [Hnil|Hl]].
    + apply (f_equal fst) in E. cbn [fst] in E. rewrite Hnil in E. discriminate E.
    + exists e, events. split; [reflexivity|exact Hl].
Defined.
